(** * history.js: the dashboard's load flows, renderers and selection state

    A shallow embedding of [src/nofv2/static/history.js].  The script is
    event driven: every function below is the body of one task of the
    event loop, run to completion on an explicit page state.  A promise
    chain is split at its suspension point into the part that issues the
    requests and the reaction that runs once the responses have settled. *)

From Stdlib Require Import ZArith QArith List Ascii String Lia.
From Stdlib Require Import Qround Qabs Lqa.
From stdpp Require Import gmap strings list fin_maps pretty.

Open Scope string_scope.
Open Scope list_scope.
Open Scope Z_scope.

(** ** Strings *)

(** The script's markup literals are single-quoted and full of double
    quotes.  They are written here with a backquote in each place where
    the script has a double quote (the script has no backquote of its
    own), and [markup] puts the double quotes back. *)
Definition dquote : ascii := ascii_of_nat 34.

Fixpoint markup (s : string) : string :=
  match s with
  | EmptyString => EmptyString
  | String c r => String (if Ascii.eqb c "`" then dquote else c) (markup r)
  end.

(** [s.replace(/c/g, r)] for a one-character pattern. *)
Fixpoint replaceAll (c : ascii) (r : string) (s : string) : string :=
  match s with
  | EmptyString => EmptyString
  | String a t =>
      if Ascii.eqb a c then r +:+ replaceAll c r t
      else String a (replaceAll c r t)
  end.

(** [function escapeHtml(str)], on a string argument. *)
Definition escapeHtml (str : string) : string :=
  if String.eqb str "" then ""
  else replaceAll ">" "&gt;" (replaceAll "<" "&lt;" (replaceAll "&" "&amp;" str)).

(** [hay.indexOf(needle) >= 0]. *)
Fixpoint includes (needle hay : string) : bool :=
  String.prefix needle hay
  || match hay with
     | EmptyString => false
     | String _ t => includes needle t
     end.

(** [xs.join(sep)] on an array of strings. *)
Fixpoint join (sep : string) (xs : list string) : string :=
  match xs with
  | [] => ""
  | [x] => x
  | x :: t => x +:+ sep +:+ join sep t
  end.

(** ** Values received from the backend *)

(** A number of the script is a double: the one [JSON.parse] reads a
    literal as, or the result of an operation.  It is kept as the
    rational that is its exact value, so the literal [100.1] is
    3521955646092083 / 2^45, the double nearest to it.  The operations
    that are exact on doubles (comparison, negation, [Math.abs],
    [Math.floor], [%]) are those of the rationals; the ones that round
    ([*], [/]) and the printing of a number are the host's. *)
Definition number := Q.

(** A field rendered as it comes: a number or a text. *)
Inductive Scalar :=
  | SNum (n : number)
  | SText (s : string).

(** Functions of the host (the JavaScript engine) whose output is locale
    or floating-point formatting, and its rounded arithmetic. *)
Class Host := {
  (** [a * b] and [a / b], rounded to a double *)
  times : number -> number -> number;
  divide : number -> number -> number;
  (** [n.toFixed(digits)] *)
  toFixed : number -> nat -> string;
  (** the string a number turns into under [+] with a string *)
  numberToString : number -> string;
  (** [new Date(ms).toLocaleString('zh-CN', {month, day, hour, minute})] *)
  toLocaleString : Z -> string
}.

(** One point of the profit curve: [[ts, equity]] or [{ts, equity}]. *)
Inductive Point :=
  | PointArray (ts : Z) (equity : number)
  | PointObject (ts : Z) (equity : number).

Record ProfitCurve := {
  initial_equity : option number;
  data : option (list Point)
}.

Record Signal := {
  symbol : option string;
  action : option string;
  entry : option Scalar;
  position_size : option Scalar;
  quantity : option Scalar;
  order_value : option Scalar;
  amount : option Scalar;
  stop_loss : option Scalar;
  take_profit : option Scalar;
  ai_decision : option string;
  ai_reason : option string;
  reason : option string;
  invalidations : option (list string)
}.

(** A raw request or response: a string, or an object, which is given by
    its [content] field and by the text [JSON.stringify(o, null, 2)]
    prints for it. *)
Inductive Payload :=
  | PString (s : string)
  | PObject (content : option string) (stringified : string).

Record Decision := {
  round : Z;
  timestamp : option Z;
  http_status : option Z;
  symbols_count : option Z;
  signal_count : option Z;
  wait_count : option Z;
  signals : option (list Signal);
  request : option Payload;
  response_raw : option Payload
}.

Record DecisionsResponse := {
  decisions : option (list Decision);
  decisions_total : option Z
}.

(** ** Truthiness and defaults

    An absent field ([undefined] or [null]) is [None]. *)

(** [x || d] on an integer field. *)
Definition orZ (x : option Z) (d : Z) : Z :=
  match x with
  | Some n => if n =? 0 then d else n
  | None => d
  end.

(** [x || d] on a number field. *)
Definition orQ (x : option number) (d : number) : number :=
  match x with
  | Some q => if Qeq_bool q 0 then d else q
  | None => d
  end.

(** The truthy text of a string field, if any. *)
Definition truthyText (x : option string) : option string :=
  match x with
  | Some s => if String.eqb s "" then None else Some s
  | None => None
  end.

(** [x || d] on a string field. *)
Definition orText (x : option string) (d : string) : string :=
  default d (truthyText x).

Definition truthyScalar (v : Scalar) : bool :=
  match v with
  | SNum q => negb (Qeq_bool q 0)
  | SText s => negb (String.eqb s "")
  end.

(** ** [Array.prototype.sort]

    The sort is stable and calls [comparefn a b] on pairs of elements; a
    positive result puts [a] after [b].  With a comparator that orders
    the elements consistently, as the one of the script does, every
    stable sort gives the same array, and it is the one of this
    insertion sort: an element moves past the elements it has to come
    after, and past no other. *)
Section Sort.

Context {A : Type} (comparefn : A -> A -> Z).

Fixpoint sortInsert (a : A) (l : list A) : list A :=
  match l with
  | [] => [a]
  | b :: t => if comparefn a b >? 0 then b :: sortInsert a t else a :: b :: t
  end.

Definition sort (l : list A) : list A := foldr sortInsert [] l.

(** What every sort guarantees of its result: no element has to come
    after a later one. *)
Definition sortedBy (r : list A) : Prop :=
  forall i j a b,
    r !! i = Some a -> r !! j = Some b -> (i < j)%nat -> comparefn a b <= 0.

End Sort.

(** The comparator of [renderDecisionDetail]. *)
Definition isWait (a : Signal) : bool :=
  match action a with
  | Some s => String.eqb s "wait" || String.eqb s "hold"
  | None => false
  end.

Definition notWait (s : Signal) : bool := negb (isWait s).

Definition compareSignals (a b : Signal) : Z :=
  let aIsWait := if isWait a then 1 else 0 in
  let bIsWait := if isWait b then 1 else 0 in
  aIsWait - bIsWait.

(** [signals = d.signals || []; signals.sort(...)]: an array, also an
    empty one, is truthy, so [signals] is the array of the decision
    object itself and the sort reorders it in place.  The result is the
    decision object as the sort leaves it, and [signals]. *)
Definition sortSignals (d : Decision) : Decision * list Signal :=
  match signals d with
  | Some l =>
      let sorted := sort compareSignals l in
      (Build_Decision (round d) (timestamp d) (http_status d) (symbols_count d)
         (signal_count d) (wait_count d) (Some sorted) (request d) (response_raw d),
       sorted)
  | None => (d, [])
  end.

(** ** The page state *)

Definition Error := string.

(** How the promise of a request, [fetch(url).then(function(r) { return
    r.json(); })], settles: rejected when the network fails or the body
    is not JSON, fulfilled with the parsed body otherwise.  The script
    does not look at the status of a response. *)
Inductive Outcome (A : Type) :=
  | Fulfilled (v : A)
  | Rejected (e : Error).
Arguments Fulfilled {A} v.
Arguments Rejected {A} e.

(** What [fetch(url)] comes to: a network error, or a response, with
    its status and with what [r.json()] makes of its body. *)
Inductive Fetched (A : Type) :=
  | NetworkError (e : Error)
  | Response (status : Z) (body : Outcome A).
Arguments NetworkError {A} e.
Arguments Response {A} status body.

(** [fetch(url).then(function(r) { return r.json(); })], the promise
    each flow waits for: neither [r.ok] nor [r.status] is read. *)
Definition json {A} (f : Fetched A) : Outcome A :=
  match f with
  | NetworkError e => Rejected e
  | Response _ body => body
  end.

(** A request fails: by a network error, by a status that is not a
    success (200 to 299), or by a body that is not JSON. *)
Definition requestFails {A} (f : Fetched A) : Prop :=
  match f with
  | NetworkError _ => True
  | Response status body =>
      (status < 200 \/ 299 < status) \/ match body with Rejected _ => True | Fulfilled _ => False end
  end.

(** How a run of statements completes. *)
Inductive Completion (A : Type) :=
  | Normal (a : A)
  | Throw (e : Error).
Arguments Normal {A} a.
Arguments Throw {A} e.

(** A line of the console: [console.log(text, ...)], of which the text
    is kept, and [console.error(context, err)]. *)
Inductive LogEntry :=
  | Log (text : string)
  | LogError (context : string) (err : Error).

(** What the chart library is asked to do. *)
Inductive ChartEvent :=
  | EchartsInit (id : string)
  | SetOption (xData : list string) (yData baseLine : list number)
  | ResizeListener.

Section Script.

Context `{Host}.

Definition scalarToString (v : Scalar) : string :=
  match v with
  | SNum q => numberToString q
  | SText s => s
  end.

(** ['' + (x1 || x2 || ... || d)]: the first truthy field, else [d]. *)
Fixpoint firstTruthy (xs : list (option Scalar)) (d : string) : string :=
  match xs with
  | [] => d
  | Some v :: t => if truthyScalar v then scalarToString v else firstTruthy t d
  | None :: t => firstTruthy t d
  end.

(** The three renderers of cards and tables whose markup no property
    below depends on are left open, with the types of what they render.
    Each of them computes markup from its arguments and assigns it to
    elements of the document, and may throw after some of the
    assignments; [Writes] is that sequence of assignments (element id,
    markup) and the exception, if any.  Everything proved holds for
    every choice of them. *)
Context {Stats Position Trade : Type}.

Definition Writes : Type := list (string * string) * option Error.

Record PositionsResponse := {
  positions : option (list Position)
}.

Record TradePage := {
  trades : option (list Trade);
  trades_total : option Z;
  page : option Z;
  pages : option Z
}.

(** A call of one of the script's renderers.  The detail renderer gets
    [undefined] or a decision object of the store, which is named by its
    position in [currentDecisions]. *)
Inductive RenderCall :=
  | CallDashboardStats (stats : Stats) (profit : ProfitCurve)
  | CallProfitChart (profit : ProfitCurve)
  | CallPositionsTable (positions : PositionsResponse)
  | CallTradesTable (trades : TradePage)
  | CallDecisionList
  | CallDecisionDetail (d : option nat).

(** The document maps the id of each element it has to the element's
    content ([innerHTML], [textContent] or [value]); [console], [network],
    [chart], [calls] and [unhandled] record what the script did, the
    last one the rejections no handler took. *)
Record State := mkState {
  document : gmap string string;
  console : list LogEntry;
  network : list string;
  chart : list ChartEvent;
  calls : list RenderCall;
  unhandled : list Error;
  currentDecisions : list Decision;
  selectedDecisionIndex : Z;
  currentTradesPage : Z
}.

Definition setDocument (f : gmap string string -> gmap string string) (st : State) :=
  mkState (f (document st)) (console st) (network st) (chart st) (calls st)
    (unhandled st) (currentDecisions st) (selectedDecisionIndex st) (currentTradesPage st).
Definition setConsole (f : list LogEntry -> list LogEntry) (st : State) :=
  mkState (document st) (f (console st)) (network st) (chart st) (calls st)
    (unhandled st) (currentDecisions st) (selectedDecisionIndex st) (currentTradesPage st).
Definition setNetwork (f : list string -> list string) (st : State) :=
  mkState (document st) (console st) (f (network st)) (chart st) (calls st)
    (unhandled st) (currentDecisions st) (selectedDecisionIndex st) (currentTradesPage st).
Definition setChart (f : list ChartEvent -> list ChartEvent) (st : State) :=
  mkState (document st) (console st) (network st) (f (chart st)) (calls st)
    (unhandled st) (currentDecisions st) (selectedDecisionIndex st) (currentTradesPage st).
Definition setCalls (f : list RenderCall -> list RenderCall) (st : State) :=
  mkState (document st) (console st) (network st) (chart st) (f (calls st))
    (unhandled st) (currentDecisions st) (selectedDecisionIndex st) (currentTradesPage st).
Definition setUnhandled (f : list Error -> list Error) (st : State) :=
  mkState (document st) (console st) (network st) (chart st) (calls st)
    (f (unhandled st)) (currentDecisions st) (selectedDecisionIndex st) (currentTradesPage st).
Definition setCurrentDecisions (f : list Decision -> list Decision) (st : State) :=
  mkState (document st) (console st) (network st) (chart st) (calls st)
    (unhandled st) (f (currentDecisions st)) (selectedDecisionIndex st) (currentTradesPage st).
Definition setSelectedDecisionIndex (i : Z) (st : State) :=
  mkState (document st) (console st) (network st) (chart st) (calls st)
    (unhandled st) (currentDecisions st) i (currentTradesPage st).
Definition setCurrentTradesPage (p : Z) (st : State) :=
  mkState (document st) (console st) (network st) (chart st) (calls st)
    (unhandled st) (currentDecisions st) (selectedDecisionIndex st) p.

(** ** Statements: state passing with exceptions

    A statement that throws keeps the changes made before the throw. *)
Definition M (A : Type) : Type := State -> Completion A * State.

Definition ret {A} (a : A) : M A := fun st => (Normal a, st).

Definition throw {A} (e : Error) : M A := fun st => (Throw e, st).

Definition bind {A B} (m : M A) (k : A -> M B) : M B :=
  fun st =>
    match m st with
    | (Normal a, st') => k a st'
    | (Throw e, st') => (Throw e, st')
    end.

Notation "x <- m ;; k" := (bind m (fun x => k))
  (at level 100, m at next level, right associativity).
Notation "m ;; k" := (bind m (fun _ => k))
  (at level 100, right associativity).

Definition get : M State := fun st => (Normal st, st).

Definition modify (f : State -> State) : M unit := fun st => (Normal tt, f st).

(** [promise.catch(handler)] around the statements of a reaction. *)
Definition catch (m : M unit) (handler : Error -> M unit) : M unit :=
  fun st =>
    match m st with
    | (Normal a, st') => (Normal a, st')
    | (Throw e, st') => handler e st'
    end.

(** One task of the event loop: what escapes it reaches the top level. *)
Definition runTask (m : M unit) (st : State) : State :=
  match m st with
  | (Normal _, st') => st'
  | (Throw e, st') => setUnhandled (fun l => l ++ [e]) st'
  end.

Definition consoleLog (text : string) : M unit :=
  modify (setConsole (fun l => l ++ [Log text])).

Definition consoleError (context : string) (err : Error) : M unit :=
  modify (setConsole (fun l => l ++ [LogError context err])).

(** [fetch(url)]: the request goes out. *)
Definition fetch (url : string) : M unit :=
  modify (setNetwork (fun l => l ++ [url])).

Definition called (c : RenderCall) : M unit :=
  modify (setCalls (fun l => l ++ [c])).

Definition charted (e : ChartEvent) : M unit :=
  modify (setChart (fun l => l ++ [e])).

(** [document.getElementById(id)]: the element's content, if it is there. *)
Definition getElementById (id : string) : M (option string) :=
  fun st => (Normal (document st !! id), st).

Definition nullError : Error := "TypeError: Cannot set properties of null".

(** [document.getElementById(id).innerHTML = s] (or [textContent]): a
    missing element is [null], and setting a property of it throws. *)
Definition setContent (id : string) (s : string) : M unit :=
  fun st =>
    match document st !! id with
    | Some _ => (Normal tt, setDocument (insert id s) st)
    | None => (Throw nullError, st)
    end.

(** ** The decision list and the decision detail *)

(** One pass of the loop of [renderDecisionList]. *)
Definition decisionItem (i : nat) (d : Decision) (active : bool) : string :=
  let httpStatus := orZ (http_status d) 200 in
  let statusColor := if httpStatus =? 200 then "#00c853" else "#ff5252" in
  let timeStr :=
    match timestamp d with
    | Some t => if t =? 0 then "" else toLocaleString (t * 1000)
    | None => ""
    end in
  markup "<div class=`decision-item " +:+ (if active then "active" else "")
    +:+ markup "` onclick=`selectDecision(" +:+ pretty i +:+ markup ")`>"
  +:+ markup "<div class=`round`>第 " +:+ pretty (round d) +:+ " 轮决策</div>"
  +:+ markup "<div class=`status` style=`color:" +:+ statusColor +:+ markup "`>· HTTP "
    +:+ pretty httpStatus +:+ "</div>"
  +:+ (if String.eqb timeStr "" then ""
       else markup "<div style=`font-size:11px;color:#666;margin-top:2px;`>" +:+ timeStr +:+ "</div>")
  +:+ markup "<div class=`meta`>symbols <b>" +:+ pretty (orZ (symbols_count d) 0)
    +:+ markup "</b>  Signal <span class=`signal`>" +:+ pretty (orZ (signal_count d) 0)
    +:+ markup "</span>  wait <span class=`wait`>" +:+ pretty (orZ (wait_count d) 0)
    +:+ "</span></div>"
  +:+ "</div>".

(** The loop, from index [i] on. *)
Fixpoint decisionItems (i : nat) (ds : list Decision) (selected : Z) : string :=
  match ds with
  | [] => ""
  | d :: t =>
      decisionItem i d (Z.of_nat i =? selected) +:+ decisionItems (S i) t selected
  end.

Definition noDecisions : string :=
  markup "<div style=`padding:40px;color:#666;text-align:center;`>暂无决策</div>".

Definition renderDecisionList : M unit :=
  called CallDecisionList ;;
  st <- get ;;
  if (length (currentDecisions st) =? 0)%nat then setContent "decision-list" noDecisions
  else
    setContent "decision-list"
      (decisionItems 0 (currentDecisions st) (selectedDecisionIndex st)).

(** One pass of the first loop of [renderDecisionDetail]. *)
Definition signalRow (s : Signal) : string :=
  let action := orText (action s) "wait" in
  let cls :=
    if String.eqb action "wait" || String.eqb action "hold" then "wait"
    else if includes "long" action then "buy" else "sell" in
  let sizeVal := firstTruthy [position_size s; quantity s; order_value s; amount s] "-" in
  "<tr><td><b>" +:+ orText (symbol s) "-"
  +:+ markup "</b></td><td><span class=`badge " +:+ cls +:+ markup "`>" +:+ action
  +:+ "</span></td><td>" +:+ firstTruthy [entry s] "-"
  +:+ "</td><td>" +:+ sizeVal
  +:+ "</td><td>" +:+ firstTruthy [stop_loss s] "-"
  +:+ "</td><td>" +:+ firstTruthy [take_profit s] "-" +:+ "</td></tr>".

(** One pass of its second loop. *)
Definition signalReason (sig : Signal) : string :=
  let actionCls :=
    if isWait sig then "wait"
    else match truthyText (action sig) with
         | Some a => if includes "long" a then "buy" else "sell"
         | None => "sell"
         end in
  markup "<div style=`margin-bottom:12px;padding:10px;background:#0a0c10;border-radius:4px;`>"
  +:+ markup "<div style=`margin-bottom:6px;`><b style=`color:#5ab2ff;`>" +:+ orText (symbol sig) "-"
    +:+ markup "</b> <span class=`badge " +:+ actionCls +:+ markup "` style=`margin-left:8px;`>"
    +:+ orText (action sig) "wait" +:+ "</span>"
  +:+ match truthyText (ai_decision sig) with
      | Some ai =>
          if String.eqb ai "-" then ""
          else
            let aiColor :=
              if String.eqb ai "APPROVE" then "#00c853"
              else if String.eqb ai "CLOSE" then "#ffc107" else "#ff5252" in
            markup " <span style=`margin-left:10px;padding:2px 8px;border-radius:3px;font-size:11px;background:"
            +:+ aiColor +:+ "22;color:" +:+ aiColor +:+ markup ";`>AI: " +:+ ai +:+ "</span>"
      | None => ""
      end
  +:+ "</div>"
  +:+ match truthyText (reason sig) with
      | Some r =>
          markup "<div style=`color:#aaa;font-size:12px;line-height:1.6;margin-bottom:6px;`><b>量化:</b> "
          +:+ escapeHtml r +:+ "</div>"
      | None => ""
      end
  +:+ match truthyText (ai_reason sig) with
      | Some r =>
          if String.eqb r "-" then ""
          else
            markup "<div style=`color:#5ab2ff;font-size:12px;line-height:1.6;`><b>AI审核:</b> "
            +:+ escapeHtml r +:+ "</div>"
      | None => ""
      end
  +:+ match invalidations sig with
      | Some (i :: l) =>
          markup "<div style=`margin-top:6px;color:#ff5252;font-size:11px;`>失效条件: "
          +:+ join ", " (i :: l) +:+ "</div>"
      | _ => ""
      end
  +:+ "</div>".

(** [s1 + s2 + ...] over the array, as the loops build it up. *)
Definition concatMap {A} (f : A -> string) (l : list A) : string :=
  fold_left (fun html a => html +:+ f a) l "".

(** [x || '无数据'] on a string. *)
Definition orNoData (s : string) : string :=
  if String.eqb s "" then "无数据" else s.

(** The markup [renderDecisionDetail] builds from the decision [d] and
    its sorted [signals]. *)
Definition decisionDetail (d : Decision) (signals : list Signal) : string :=
  let rows := concatMap signalRow signals in
  let reasonHtml := concatMap signalReason signals in
  let reasonHtml :=
    if String.eqb reasonHtml ""
    then markup "<div style=`color:#666;padding:20px;text-align:center;`>无 reason 数据</div>"
    else reasonHtml in
  let contentRaw :=
    match response_raw d with
    | Some (PObject content _) => orText content ""
    | _ => ""
    end in
  let requestContent :=
    match request d with
    | Some (PString s) => s
    | Some (PObject _ stringified) => stringified
    | None => ""
    end in
  let responseContent :=
    match response_raw d with
    | Some (PString s) => s
    | Some (PObject _ stringified) => stringified
    | None => ""
    end in
  markup "<div class=`detail-header`><div class=`detail-title`>第 " +:+ pretty (round d)
    +:+ markup " 轮决策 <span style=`color:#888;font-weight:normal;`>(" +:+ pretty (orZ (symbols_count d) 0)
    +:+ markup " 个币种)</span></div><div class=`detail-meta`>Signal <span style=`color:#ff5252;`>"
    +:+ pretty (orZ (signal_count d) 0)
    +:+ markup "</span> · wait <span style=`color:#00c853;`>" +:+ pretty (orZ (wait_count d) 0)
    +:+ "</span> · HTTP " +:+ pretty (orZ (http_status d) 200) +:+ "</div></div>"
  +:+ markup "<div class=`table-wrap signal-table`><table class=`data-table`><thead><tr><th>Symbol</th><th>Action</th><th>Entry</th><th>Size</th><th>SL</th><th>TP</th></tr></thead><tbody>"
    +:+ (if String.eqb rows ""
         then markup "<tr><td colspan=`6` style=`text-align:center;color:#666;`>本次推理无 signals / decision 数据</td></tr>"
         else rows)
    +:+ "</tbody></table></div>"
  +:+ markup "<div class=`collapsible-section`><div class=`collapsible-header` onclick=`toggleCollapsible(this)`><span class=`arrow`>▶</span> 查看每个币种的 reason</div><div class=`collapsible-body`>"
    +:+ reasonHtml +:+ "</div></div>"
  +:+ markup "<div class=`collapsible-section`><div class=`collapsible-header` onclick=`toggleCollapsible(this)`><span class=`arrow`>▶</span> 查看原始 decision 输出(Response.content)</div><div class=`collapsible-body`><pre class=`code-block` style=`white-space:pre-wrap;word-break:break-all;`>"
    +:+ escapeHtml (orNoData contentRaw) +:+ "</pre></div></div>"
  +:+ markup "<div class=`collapsible-section`><div class=`collapsible-header` onclick=`toggleCollapsible(this)`><span class=`arrow`>▶</span> 投喂内容(Request)</div><div class=`collapsible-body`><pre class=`code-block` style=`white-space:pre-wrap;word-break:break-all;`>"
    +:+ escapeHtml (orNoData requestContent) +:+ "</pre></div></div>"
  +:+ markup "<div class=`collapsible-section`><div class=`collapsible-header` onclick=`toggleCollapsible(this)`><span class=`arrow`>▶</span> 原始输出(Response JSON)</div><div class=`collapsible-body`><pre class=`code-block` style=`white-space:pre-wrap;word-break:break-all;`>"
    +:+ escapeHtml (orNoData responseContent) +:+ "</pre></div></div>".

Definition selectPrompt : string :=
  markup "<div style=`color:#666;text-align:center;padding:40px;`>选择左侧决策</div>".

(** [currentDecisions[index]]: the object at an index in range, else
    [undefined]. *)
Definition decisionAt (index : Z) (ds : list Decision) : option nat :=
  if (0 <=? index) && (index <? Z.of_nat (length ds)) then Some (Z.to_nat index) else None.

(** [function renderDecisionDetail(d)].  The sort happens on the object
    in the store, before the markup is written to the pane.  ([d] comes
    from [decisionAt], so it names an object that is there; a name of no
    object is taken as [undefined].) *)
Definition renderDecisionDetail (d : option nat) : M unit :=
  called (CallDecisionDetail d) ;;
  st <- get ;;
  match d with
  | Some i =>
      match currentDecisions st !! i with
      | Some obj =>
          let (obj', signals) := sortSignals obj in
          modify (setCurrentDecisions (fun ds => <[i := obj']> ds)) ;;
          setContent "decision-detail" (decisionDetail obj' signals)
      | None => setContent "decision-detail" selectPrompt
      end
  | None => setContent "decision-detail" selectPrompt
  end.

(** [function selectDecision(index)]. *)
Definition selectDecision (index : Z) : M unit :=
  modify (setSelectedDecisionIndex index) ;;
  renderDecisionList ;;
  st <- get ;;
  renderDecisionDetail (decisionAt index (currentDecisions st)).

(** ** The dashboard renderers *)

(** What [renderDashboardStats], [renderPositionsTable] and
    [renderTradesTable] write for their arguments. *)
Variable dashboardStats : Stats -> ProfitCurve -> Writes.
Variable positionsTable : PositionsResponse -> Writes.
Variable tradesTable : TradePage -> Writes.

Fixpoint assign (ws : list (string * string)) : M unit :=
  match ws with
  | [] => ret tt
  | (id, s) :: t => setContent id s ;; assign t
  end.

Definition perform (w : Writes) : M unit :=
  assign (fst w) ;;
  match snd w with
  | Some e => throw e
  | None => ret tt
  end.

Definition renderDashboardStats (stats : Stats) (profit : ProfitCurve) : M unit :=
  called (CallDashboardStats stats profit) ;;
  perform (dashboardStats stats profit).

Definition renderPositionsTable (data : PositionsResponse) : M unit :=
  called (CallPositionsTable data) ;;
  perform (positionsTable data).

Definition renderTradesTable (data : TradePage) : M unit :=
  called (CallTradesTable data) ;;
  perform (tradesTable data).

(** [xs.push(x)]. *)
Definition push {A} (xs : list A) (x : A) : list A := xs ++ [x].

Definition pointTs (item : Point) : Z :=
  match item with
  | PointArray ts _ => ts
  | PointObject ts _ => ts
  end.

Definition pointEquity (item : Point) : number :=
  match item with
  | PointArray _ equity => equity
  | PointObject _ equity => equity
  end.

(** The loop of [renderProfitChart]: [xData], [yData] and [baseLine]
    start empty and get one element each per point. *)
Definition chartSeries (points : list Point) (initial : number)
  : list string * list number * list number :=
  fold_left
    (fun '(xData, yData, baseLine) item =>
       (push xData (toLocaleString (pointTs item)),
        push yData (pointEquity item),
        push baseLine initial))
    points ([], [], []).

Definition noChartData : string :=
  markup "<div style=`padding:40px;color:#666;text-align:center;`>暂无数据</div>".

(** [function renderProfitChart(data)]. *)
Definition renderProfitChart (profit : ProfitCurve) : M unit :=
  called (CallProfitChart profit) ;;
  el <- getElementById "profit_chart" ;;
  match el with
  | None => ret tt
  | Some _ =>
      let points := default [] (data profit) in
      let initial := orQ (initial_equity profit) 0%Q in
      if (length points =? 0)%nat then setContent "profit_chart" noChartData
      else
        charted (EchartsInit "profit_chart") ;;
        let '(xData, yData, baseLine) := chartSeries points initial in
        setContent "chart-legend" ("权益(USDT) | 基准 " +:+ toFixed initial 2 +:+ " USDT") ;;
        charted (SetOption xData yData baseLine) ;;
        charted ResizeListener
  end.

(** ** The load flows *)

(** The reason a promise is rejected with, if it is. *)
Definition rejection {A} (r : Outcome A) : option Error :=
  match r with
  | Rejected e => Some e
  | Fulfilled _ => None
  end.

(** [Promise.all] of the four requests: fulfilled with the four values
    when all are fulfilled, else rejected with the reason of the
    request that is rejected first.  [order] is the order in which the
    requests settle, by their positions 0 to 3 in the array; a request
    it leaves out settles after those it has, in the order of the
    array.  (One of the four is rejected where the reason is taken, so
    the default is never the reason.) *)
Definition promiseAll4 {A B C D} (order : list nat) (r1 : Outcome A) (r2 : Outcome B)
    (r3 : Outcome C) (r4 : Outcome D) : Outcome (A * B * C * D) :=
  match r1, r2, r3, r4 with
  | Fulfilled a, Fulfilled b, Fulfilled c, Fulfilled d => Fulfilled (a, b, c, d)
  | _, _, _, _ =>
      let reasons := [rejection r1; rejection r2; rejection r3; rejection r4] in
      Rejected
        (default ""
           (head (omap (fun i => mjoin (reasons !! i)) (order ++ [0; 1; 2; 3]%nat))))
  end.

(** [loadDashboard], up to the point where the requests are out. *)
Definition loadDashboard_request : M unit :=
  consoleLog "loadDashboard..." ;;
  fetch "/dashboard_stats" ;;
  fetch "/profit_curve" ;;
  fetch "/positions" ;;
  fetch "/completed_trades?limit=10&page=1".

(** The function given to [then] in [loadDashboard]. *)
Definition loadDashboard_then (stats : Stats) (profit : ProfitCurve)
    (positionsData : PositionsResponse) (trades : TradePage) : M unit :=
  consoleLog "Data:" ;;
  renderDashboardStats stats profit ;;
  renderProfitChart profit ;;
  renderPositionsTable positionsData ;;
  renderTradesTable trades ;;
  setContent "pos-count" (pretty (length (default [] (positions positionsData)))) ;;
  setContent "trade-count" (pretty (orZ (trades_total trades) 0)) ;;
  let initial := orQ (initial_equity profit) 0%Q in
  setContent "dashboard-subtitle" ("Stats | Base: " +:+ toFixed initial 2 +:+ " USDT").

(** What [loadDashboard] does once [Promise.all] has settled, the four
    requests settling in the order [order]. *)
Definition loadDashboard_settled (order : list nat) (r1 : Outcome Stats)
    (r2 : Outcome ProfitCurve) (r3 : Outcome PositionsResponse) (r4 : Outcome TradePage)
  : M unit :=
  match promiseAll4 order r1 r2 r3 r4 with
  | Fulfilled (stats, profit, positionsData, trades) =>
      catch (loadDashboard_then stats profit positionsData trades)
        (fun err => consoleError "loadDashboard error:" err)
  | Rejected err => consoleError "loadDashboard error:" err
  end.

(** [loadTradesPage(page)], up to the point where the request is out;
    [true] when a request is out. *)
Definition loadTradesPage_request (page : Z) : M bool :=
  if page <? 1 then ret false
  else
    modify (setCurrentTradesPage page) ;;
    fetch ("/completed_trades?limit=10&page=" +:+ pretty page) ;;
    ret true.

(** What it does once the promise has settled: the chain has no
    [catch], so a rejection goes through it. *)
Definition loadTradesPage_settled (r : Outcome TradePage) : M unit :=
  match r with
  | Fulfilled data =>
      renderTradesTable data ;;
      setContent "trade-count" (pretty (orZ (trades_total data) 0))
  | Rejected err => throw err
  end.

(** [loadTradesPage(page)] with the response [r] to its request, if it
    makes one. *)
Definition loadTradesPage (page : Z) (r : Outcome TradePage) (st : State) : State :=
  match loadTradesPage_request page st with
  | (Normal true, st') => runTask (loadTradesPage_settled r) st'
  | (Normal false, st') => st'
  | (Throw e, st') => setUnhandled (fun l => l ++ [e]) st'
  end.

(** [loadAIDecisions], up to the point where the request is out. *)
Definition loadAIDecisions_request : M unit :=
  limitEl <- getElementById "ai-limit" ;;
  let limit := match limitEl with Some value => value | None => "8" end in
  fetch ("/decisions?limit=" +:+ limit).

(** The function given to [then] in [loadAIDecisions]. *)
Definition loadAIDecisions_then (response : DecisionsResponse) : M unit :=
  let allDecisions := default [] (decisions response) in
  modify (setCurrentDecisions (fun _ =>
    List.filter (fun d => orZ (symbols_count d) 0 >? 0) allDecisions)) ;;
  let total := orZ (decisions_total response) 0 in
  setContent "ai-summary"
    ("共 " +:+ pretty total +:+ " 条 · 已执行 " +:+ pretty total +:+ " 轮决策") ;;
  renderDecisionList ;;
  st <- get ;;
  if (0 <? length (currentDecisions st))%nat then selectDecision 0 else ret tt.

(** What [loadAIDecisions] does once the promise has settled. *)
Definition loadAIDecisions_settled (r : Outcome DecisionsResponse) : M unit :=
  match r with
  | Fulfilled response =>
      catch (loadAIDecisions_then response)
        (fun err => consoleError "loadAIDecisions error:" err)
  | Rejected err => consoleError "loadAIDecisions error:" err
  end.

(** The three flows, each with the responses to its requests. *)
Definition loadDashboard (order : list nat) (r1 : Outcome Stats) (r2 : Outcome ProfitCurve)
    (r3 : Outcome PositionsResponse) (r4 : Outcome TradePage) (st : State) : State :=
  runTask (loadDashboard_settled order r1 r2 r3 r4) (runTask loadDashboard_request st).

Definition loadAIDecisions (r : Outcome DecisionsResponse) (st : State) : State :=
  runTask (loadAIDecisions_settled r) (runTask loadAIDecisions_request st).

(** ** The page as a transition system

    The tasks the page runs: the start of a flow (opening a page, a
    pager button), the arrival of the responses of a flow, and a click
    on an item of the decision list. *)
Inductive Event :=
  | DashboardOpened
  | DashboardSettled (order : list nat) (r1 : Outcome Stats) (r2 : Outcome ProfitCurve)
      (r3 : Outcome PositionsResponse) (r4 : Outcome TradePage)
  | PagerClicked (page : Z)
  | TradesSettled (r : Outcome TradePage)
  | DecisionsOpened
  | DecisionsSettled (r : Outcome DecisionsResponse)
  | DecisionClicked (index : nat).

Definition task (e : Event) : M unit :=
  match e with
  | DashboardOpened => loadDashboard_request
  | DashboardSettled order r1 r2 r3 r4 => loadDashboard_settled order r1 r2 r3 r4
  | PagerClicked page => _ <- loadTradesPage_request page ;; ret tt
  | TradesSettled r => loadTradesPage_settled r
  | DecisionsOpened => loadAIDecisions_request
  | DecisionsSettled r => loadAIDecisions_settled r
  | DecisionClicked index => selectDecision (Z.of_nat index)
  end.

(** The items of the list carry [onclick="selectDecision(i)"] for the
    indices [i] of the loop of [renderDecisionList], so a click selects
    an index of the list on display. *)
Definition enabled (e : Event) (st : State) : Prop :=
  match e with
  | DecisionClicked index => (index < length (currentDecisions st))%nat
  | _ => True
  end.

(** The elements the decision flow writes to. *)
Definition decisionPanes (doc : gmap string string) : Prop :=
  is_Some (doc !! "ai-summary") /\ is_Some (doc !! "decision-list")
  /\ is_Some (doc !! "decision-detail").

(** The states the page gets to from the script's initial state
    ([currentDecisions = []], [selectedDecisionIndex = 0],
    [currentTradesPage = 1]) on a document with the decision panes. *)
Inductive reachable : State -> Prop :=
  | reachable_init (doc : gmap string string) :
      decisionPanes doc -> reachable (mkState doc [] [] [] [] [] [] 0 1)
  | reachable_step (st : State) (e : Event) :
      reachable st -> enabled e st -> reachable (runTask (task e) st).

(** ** Vocabulary of the properties *)

Definition isRejected {A} (r : Outcome A) : Prop :=
  match r with
  | Rejected _ => True
  | Fulfilled _ => False
  end.

(** A statement relates every state to the state it leaves. *)
Definition relates {A} (R : State -> State -> Prop) (m : M A) : Prop :=
  forall st, R st (snd (m st)).

(** No element leaves the document. *)
Definition keepsElements (st st' : State) : Prop :=
  forall id, is_Some (document st !! id) -> is_Some (document st' !! id).

(** The decision log and the selection are untouched. *)
Definition sameDecisions (st st' : State) : Prop :=
  currentDecisions st' = currentDecisions st
  /\ selectedDecisionIndex st' = selectedDecisionIndex st
  /\ keepsElements st st'.

(** A decision object, as loaded or with its signals sorted. *)
Definition sortedVersion (d d' : Decision) : Prop :=
  d' = d \/ d' = fst (sortSignals d).

(** The decision log holds the same objects, some with their signals
    sorted, and the selection is untouched. *)
Definition decisionsUpToSort (st st' : State) : Prop :=
  Forall2 sortedVersion (currentDecisions st) (currentDecisions st')
  /\ selectedDecisionIndex st' = selectedDecisionIndex st
  /\ keepsElements st st'.

(** The same, whatever happens to the selection. *)
Definition decisionsKept (st st' : State) : Prop :=
  Forall2 sortedVersion (currentDecisions st) (currentDecisions st')
  /\ keepsElements st st'.

(** The selection is an index of the log, when the log has an entry. *)
Definition selectionValid (st : State) : Prop :=
  currentDecisions st <> [] ->
  0 <= selectedDecisionIndex st < Z.of_nat (length (currentDecisions st)).

(** The document has the elements [ids]. *)
Definition hasElements (ids : list string) (st : State) : Prop :=
  forall id, In id ids -> is_Some (document st !! id).

(** On a document with the elements [ids], a statement completes
    normally and leaves them there. *)
Definition completes {A} (ids : list string) (m : M A) : Prop :=
  forall st,
    hasElements ids st ->
    (exists a, fst (m st) = Normal a) /\ hasElements ids (snd (m st)).

(** The elements the handler of [loadDashboard] writes to, besides the
    chart: those of the three renderers, and the four it names. *)
Definition handlerElements (stats : Stats) (profit : ProfitCurve)
    (positionsData : PositionsResponse) (trades : TradePage) : list string :=
  List.map fst (fst (dashboardStats stats profit))
  ++ List.map fst (fst (positionsTable positionsData))
  ++ List.map fst (fst (tradesTable trades))
  ++ ["chart-legend"; "pos-count"; "trade-count"; "dashboard-subtitle"].

(** Nothing is added to what reached the top level. *)
Definition nothingEscapes (st st' : State) : Prop :=
  unhandled st' = unhandled st.

(** Nothing is rendered, logged or left unhandled. *)
Definition sameTrace (st st' : State) : Prop :=
  calls st' = calls st /\ console st' = console st /\ unhandled st' = unhandled st.

(** A statement makes the renderer calls [cs], in this order, and stops
    among them when it throws; it logs nothing and lets nothing escape. *)
Definition emits {A} (cs : list RenderCall) (m : M A) : Prop :=
  forall st,
    console (snd (m st)) = console st
    /\ unhandled (snd (m st)) = unhandled st
    /\ match fst (m st) with
       | Normal _ => calls (snd (m st)) = calls st ++ cs
       | Throw _ => exists cs', cs' `prefix_of` cs /\ calls (snd (m st)) = calls st ++ cs'
       end.

End Script.

Arguments PositionsResponse : clear implicits.
Arguments TradePage : clear implicits.
Arguments RenderCall : clear implicits.
Arguments State : clear implicits.
Arguments M : clear implicits.

(** ** The cards and tables of the dashboard

    [renderDashboardStats], [renderPositionsTable] and
    [renderTradesTable] as the script has them, on the payloads of the
    backend: what each writes to the document. *)

(** [s.toLowerCase()].  Text is kept as UTF-8 bytes, and the letters A
    to Z are the ones mapped: sides and order types have no other. *)
Definition lowerAscii (c : ascii) : ascii :=
  let n := nat_of_ascii c in
  if ((65 <=? n) && (n <=? 90))%nat then ascii_of_nat (n + 32) else c.

Fixpoint toLowerCase (s : string) : string :=
  match s with
  | EmptyString => EmptyString
  | String c r => String (lowerAscii c) (toLowerCase r)
  end.

(** [a % b]: the remainder has the sign of [a].  It is a double
    whenever [a] and [b] are, so nothing is rounded. *)
Definition truncate (q : number) : Z :=
  if Qle_bool 0 q then Qfloor q else Qceiling q.

Definition remainder (a b : number) : number :=
  (a - b * inject_Z (truncate (a / b)))%Q.

Module DashboardStats.
Record t := {
  total_profit : option number;
  profit_pct : option number;
  unrealized_pnl : option number;
  win_rate : option number;
  win_count : option number;
  lose_count : option number;
  total_trades : option number;
  position_count : option number;
  current_equity : option number;
  total_fee : option number;
  max_drawdown : option number;
  calmar : option number
}.
End DashboardStats.

Module OpenPosition.
Record t := {
  symbol : string;
  side : option string;
  size : option number;
  entry : option number;
  leverage : option number;
  mark_price : option number;
  pnl : option number;
  tp_price : option number;
  sl_price : option number
}.
End OpenPosition.

Module CompletedTrade.
Record t := {
  symbol : string;
  side : option string;
  entry_type : option string;
  exit_type : option string;
  entry_price : option number;
  exit_price : option number;
  quantity : option number;
  net_pnl : option number;
  pnl_pct : option number;
  peak_pnl : option number;
  max_drawdown : option number;
  total_fee : option number;
  hold_minutes : option number;
  entry_time : option Z;
  exit_time : option Z
}.
End CompletedTrade.

Section Renderers.

Context `{Host}.

(** The two rows of cards of [renderDashboardStats]. *)
Definition statsRows (stats : DashboardStats.t) (profit : ProfitCurve) : string * string :=
  let initial := orQ (initial_equity profit) 0%Q in
  let totalProfit := orQ (DashboardStats.total_profit stats) 0%Q in
  let profitPct := orQ (DashboardStats.profit_pct stats) 0%Q in
  let unrealized := orQ (DashboardStats.unrealized_pnl stats) 0%Q in
  let winRate := orQ (DashboardStats.win_rate stats) 0%Q in
  let winCount := orQ (DashboardStats.win_count stats) 0%Q in
  let loseCount := orQ (DashboardStats.lose_count stats) 0%Q in
  let totalTrades := orQ (DashboardStats.total_trades stats) 0%Q in
  let posCount := orQ (DashboardStats.position_count stats) 0%Q in
  let currentEquity := orQ (DashboardStats.current_equity stats) initial in
  let totalFee := orQ (DashboardStats.total_fee stats) 0%Q in
  let maxDD := orQ (DashboardStats.max_drawdown stats) 0%Q in
  let calmar := orQ (DashboardStats.calmar stats) 0%Q in
  let row1 :=
    markup "<div class=`stat-card`><div class=`label`>总净收益</div><div class=`value "
        +:+ (if Qle_bool 0 totalProfit then "green" else "red") +:+ markup "`>"
        +:+ (if Qle_bool 0 totalProfit then "+" else "") +:+ toFixed totalProfit 2
        +:+ markup " USDT</div><div class=`sub`>" +:+ (if Qle_bool 0 profitPct then "+" else "")
        +:+ toFixed profitPct 2 +:+ "%</div></div>"
    +:+ markup "<div class=`stat-card`><div class=`label`>持仓实时净收益</div><div class=`value "
        +:+ (if Qle_bool 0 unrealized then "green" else "red") +:+ markup "`>"
        +:+ (if Qle_bool 0 unrealized then "+" else "") +:+ toFixed unrealized 2
        +:+ "</div></div>"
    +:+ markup "<div class=`stat-card`><div class=`label`>胜率</div><div class=`value yellow`>"
        +:+ toFixed winRate 1 +:+ markup "%</div><div class=`sub`>胜:"
        +:+ numberToString winCount +:+ " 负:" +:+ numberToString loseCount +:+ "</div></div>"
    +:+ markup "<div class=`stat-card`><div class=`label`>交易次数</div><div class=`value blue`>"
        +:+ numberToString totalTrades +:+ markup "</div><div class=`sub`>持仓: "
        +:+ numberToString posCount +:+ "</div></div>" in
  let row2 :=
    markup "<div class=`stat-card`><div class=`label`>当前账户余额</div><div class=`value blue`>"
        +:+ toFixed currentEquity 2 +:+ markup " USDT</div><div class=`sub`>初始: "
        +:+ toFixed initial 2 +:+ "</div></div>"
    +:+ markup "<div class=`stat-card`><div class=`label`>累计交易成本</div><div class=`value red`>- "
        +:+ toFixed totalFee 2 +:+ " USDT</div></div>"
    +:+ markup "<div class=`stat-card`><div class=`label`>收益/回撤</div><div class=`value green`>+"
        +:+ toFixed profitPct 2 +:+ "% / -" +:+ toFixed maxDD 2
        +:+ markup "%</div><div class=`sub`>Calmar: " +:+ toFixed calmar 2 +:+ "</div></div>"
    +:+ markup "<div class=`stat-card`><div class=`label`>最大回撤</div><div class=`value red`>-"
        +:+ toFixed (divide (times maxDD initial) 100%Q) 2 +:+ " USDT (-" +:+ toFixed maxDD 2
        +:+ "%)</div></div>" in
  (row1, row2).

(** [function renderDashboardStats(stats, profit)]: the first row is
    written before the second. *)
Definition dashboardStatsWrites (stats : DashboardStats.t) (profit : ProfitCurve) : Writes :=
  let (row1, row2) := statsRows stats profit in
  ([("stats-row1", row1); ("stats-row2", row2)], None).

Definition noPositions : string :=
  markup "<div style=`padding:40px;color:#666;text-align:center;`>暂无持仓</div>".

(** One pass of the loop of [renderPositionsTable]. *)
Definition positionRow (p : OpenPosition.t) : string :=
  let side := orText (OpenPosition.side p) "LONG" in
  let pnl := orQ (OpenPosition.pnl p) 0%Q in
  let leverage := orQ (OpenPosition.leverage p) 1%Q in
  let tpStr :=
    match OpenPosition.tp_price p with
    | Some x => if Qeq_bool x 0 then "-" else toFixed x 4
    | None => "-"
    end in
  let slStr :=
    match OpenPosition.sl_price p with
    | Some x => if Qeq_bool x 0 then "-" else toFixed x 4
    | None => "-"
    end in
  "<tr><td><b>" +:+ OpenPosition.symbol p +:+ markup "</b></td><td><span class=`badge "
    +:+ toLowerCase side +:+ markup "`>" +:+ side +:+ "</span></td><td>"
    +:+ toFixed (Qabs (orQ (OpenPosition.size p) 0%Q)) 4 +:+ "</td><td>"
    +:+ toFixed (orQ (OpenPosition.entry p) 0%Q) 6 +:+ "</td><td>"
    +:+ numberToString leverage +:+ "x</td><td>"
    +:+ toFixed (orQ (OpenPosition.mark_price p) 0%Q) 6 +:+ markup "</td><td style=`color:"
    +:+ (if Qle_bool 0 pnl then "#00c853" else "#ff5252") +:+ markup "`>"
    +:+ (if Qle_bool 0 pnl then "+" else "") +:+ toFixed pnl 2 +:+ " USDT</td><td>TP:"
    +:+ tpStr +:+ " / SL:" +:+ slStr +:+ "</td></tr>".

Definition positionsMarkup (positions : list OpenPosition.t) : string :=
  if (length positions =? 0)%nat then noPositions
  else
    fold_left (fun html p => html +:+ positionRow p) positions
      (markup "<table class=`data-table`><thead><tr><th>交易对</th><th>方向</th><th>数量</th><th>入场价格</th><th>杠杆</th><th>标记价</th><th>未实现盈亏</th><th>止盈/止损</th></tr></thead><tbody>")
    +:+ "</tbody></table>".

(** [function renderPositionsTable(data)]. *)
Definition positionsTableWrites (data : PositionsResponse OpenPosition.t) : Writes :=
  ([("tab-positions", positionsMarkup (default [] (positions data)))], None).

Definition noTrades : string :=
  markup "<div style=`padding:40px;color:#666;text-align:center;`>暂无交易记录</div>".

(** The line above the table of [renderTradesTable]: the page, the
    total and the two pager buttons. *)
Definition tradesPager (page pages total : Z) : string :=
  markup "<div style=`padding:10px 16px;color:#888;font-size:12px;`>当前页" +:+ pretty page
    +:+ "(每页 10 条) | 总 " +:+ pretty total +:+ " 条"
  +:+ markup "<span style=`float:right;`><button onclick=`loadTradesPage("
    +:+ pretty (page - 1) +:+ markup ")` "
    +:+ (if page <=? 1 then markup "disabled style=`opacity:0.5`" else "")
    +:+ ">上一页</button> "
  +:+ markup "<button onclick=`loadTradesPage(" +:+ pretty (page + 1) +:+ markup ")` "
    +:+ (if page >=? pages then markup "disabled style=`opacity:0.5`" else "")
    +:+ ">下一页</button></span></div>".

(** [(type && type.toLowerCase().indexOf('limit') >= 0) ? '限价单' : '市价单']. *)
Definition orderType (type : option string) : string :=
  match truthyText type with
  | Some s => if includes "limit" (toLowerCase s) then "限价单" else "市价单"
  | None => "市价单"
  end.

(** The hold duration of a trade: [Math.floor(holdMin/60)] is the floor
    of the quotient as the host rounds it. *)
Definition holdDuration (holdMin : option number) : string :=
  match holdMin with
  | Some m =>
      if Qle_bool 60 m
      then numberToString (inject_Z (Qfloor (divide m 60%Q))) +:+ "小时"
           +:+ numberToString (remainder m 60%Q) +:+ "分钟"
      else numberToString m +:+ "分钟"
  | None => "-"
  end.

(** [time ? new Date(time * 1000).toLocaleString(...) : '-']. *)
Definition tradeTime (time : option Z) : string :=
  match time with
  | Some s => if s =? 0 then "-" else toLocaleString (s * 1000)
  | None => "-"
  end.

(** One pass of the loop of [renderTradesTable]. *)
Definition tradeRow (t : CompletedTrade.t) : string :=
  let side := orText (CompletedTrade.side t) "LONG" in
  let netPnl := CompletedTrade.net_pnl t in
  let peakPnl := CompletedTrade.peak_pnl t in
  let maxDd := CompletedTrade.max_drawdown t in
  let totalFee := default 0%Q (CompletedTrade.total_fee t) in
  let holdMin := CompletedTrade.hold_minutes t in
  let pnlPct := CompletedTrade.pnl_pct t in
  let entryTime := tradeTime (CompletedTrade.entry_time t) in
  let exitTime := tradeTime (CompletedTrade.exit_time t) in
  let holdStr := holdDuration holdMin in
  let entryType := orderType (CompletedTrade.entry_type t) in
  let exitType := orderType (CompletedTrade.exit_type t) in
  "<tr>"
  +:+ "<td><b>" +:+ CompletedTrade.symbol t +:+ "</b></td>"
  +:+ markup "<td><span class=`badge " +:+ toLowerCase side +:+ markup "`>" +:+ side
      +:+ "</span></td>"
  +:+ "<td>" +:+ entryType +:+ "</td>"
  +:+ "<td>"
      +:+ (match CompletedTrade.entry_price t with Some x => toFixed x 6 | None => "-" end)
      +:+ "</td>"
  +:+ "<td>"
      +:+ (match CompletedTrade.exit_price t with Some x => toFixed x 6 | None => "-" end)
      +:+ "</td>"
  +:+ "<td>" +:+ exitType +:+ "</td>"
  +:+ "<td>"
      +:+ (match CompletedTrade.quantity t with Some x => toFixed x 4 | None => "-" end)
      +:+ "</td>"
  +:+ markup "<td style=`color:"
      +:+ (match netPnl with Some x => if Qle_bool 0 x then "#00c853" else "#ff5252" | None => "#ff5252" end)
      +:+ markup "`>"
      +:+ (match netPnl with Some x => (if Qle_bool 0 x then "+" else "") +:+ toFixed x 2 | None => "-" end)
      +:+ (match pnlPct with Some x => "<br><small>" +:+ (if Qle_bool 0 x then "+" else "") +:+ toFixed x 2 +:+ "%</small>" | None => "" end)
      +:+ "</td>"
  +:+ markup "<td style=`color:#00c853`>"
      +:+ (match peakPnl with Some x => "+" +:+ toFixed x 2 | None => "-" end) +:+ "</td>"
  +:+ markup "<td style=`color:#ff5252`>"
      +:+ (match maxDd with Some x => "-" +:+ toFixed x 2 | None => "-" end) +:+ "</td>"
  +:+ "<td>" +:+ toFixed totalFee 2 +:+ "</td>"
  +:+ "<td>" +:+ holdStr +:+ "</td>"
  +:+ "<td><small>开: " +:+ entryTime +:+ "<br>平: " +:+ exitTime +:+ "</small></td>"
  +:+ "</tr>".

Definition tradesMarkup (data : TradePage CompletedTrade.t) : string :=
  let trades := default [] (trades data) in
  let total := orZ (trades_total data) (Z.of_nat (length trades)) in
  let page := orZ (page data) 1 in
  let pages := orZ (pages data) 1 in
  if (length trades =? 0)%nat then noTrades
  else
    fold_left (fun html t => html +:+ tradeRow t) trades
      (tradesPager page pages total
       +:+ markup "<table class=`data-table`><thead><tr><th>交易对</th><th>方向</th><th>开仓方式</th><th>开仓价</th><th>平仓价</th><th>平仓方式</th><th>数量</th><th>净收益</th><th>峰值收益</th><th>最大回撤</th><th>手续费</th><th>持仓时长</th><th>开平时间</th></tr></thead><tbody>")
    +:+ "</tbody></table>".

(** [function renderTradesTable(data)]. *)
Definition tradesTableWrites (data : TradePage CompletedTrade.t) : Writes :=
  ([("tab-trades", tradesMarkup data)], None).

End Renderers.

(** ** Pages, tabs and panels *)

(** What [document.querySelectorAll] finds for the selectors [.page],
    [.nav-links a] and [.tab-btn], in document order.  An element is
    named by its id when it has one. *)
Record Layout := {
  pageElements : list string;
  navLinks : list string;
  tabButtons : list string
}.

(** What the script sets besides content: the elements whose class list
    has [active], and [style.display] of the elements it has given
    one. *)
Record View := mkView {
  active : gset string;
  display : gmap string string
}.

(** [classList.remove('active')] on each of the elements. *)
Definition removeActive (elements : list string) (v : View) : View :=
  mkView (active v ∖ list_to_set elements) (display v).

(** [element.classList.add('active')]. *)
Definition addActive (element : string) (v : View) : View :=
  mkView ({[element]} ∪ active v) (display v).

(** [element.style.display = value]. *)
Definition setDisplay (element value : string) (v : View) : View :=
  mkView (active v) (<[element := value]> (display v)).

Definition readError : Error := "TypeError: Cannot read properties of null".

Definition undefinedError : Error := "TypeError: Cannot read properties of undefined".

Section Navigation.

Context {Stats Position Trade : Type}.

(** [function showPage(page)]: the requests of the page go out at its
    end. *)
Definition showPage (layout : Layout) (page : string) (v : View)
    (st : State Stats Position Trade)
  : Completion unit * View * State Stats Position Trade :=
  let v := removeActive (pageElements layout) v in
  let v := removeActive (navLinks layout) v in
  match document st !! ("page-" +:+ page) with
  | None => (Throw readError, v, st)
  | Some _ =>
      let v := addActive ("page-" +:+ page) v in
      match document st !! ("nav-" +:+ page) with
      | None => (Throw readError, v, st)
      | Some _ =>
          let v := addActive ("nav-" +:+ page) v in
          let (c, st) :=
            bind (if String.eqb page "dashboard" then loadDashboard_request else ret tt)
              (fun _ => if String.eqb page "ai" then loadAIDecisions_request else ret tt)
              st in
          (c, v, st)
      end
  end.

(** [function switchTab(tab)]. *)
Definition switchTab (layout : Layout) (tab : string) (v : View)
    (st : State Stats Position Trade) : Completion unit * View :=
  let v := removeActive (tabButtons layout) v in
  match tabButtons layout !! (if String.eqb tab "positions" then 0%nat else 1%nat) with
  | None => (Throw undefinedError, v)
  | Some button =>
      let v := addActive button v in
      match document st !! "tab-positions" with
      | None => (Throw readError, v)
      | Some _ =>
          let v :=
            setDisplay "tab-positions"
              (if String.eqb tab "positions" then "block" else "none") v in
          match document st !! "tab-trades" with
          | None => (Throw readError, v)
          | Some _ =>
              (Normal tt,
               setDisplay "tab-trades"
                 (if String.eqb tab "trades" then "block" else "none") v)
          end
      end
  end.

End Navigation.

(** A collapsible header, by what [toggleCollapsible] reads of it:
    whether the class list of its next sibling has [open], when it has
    a next sibling, and the text of its [.arrow], when it has one. *)
Record Collapsible := {
  bodyOpen : option bool;
  arrow : option string
}.

(** [function toggleCollapsible(header)]. *)
Definition toggleCollapsible (header : Collapsible) : Completion unit * Collapsible :=
  match bodyOpen header with
  | None => (Throw readError, header)
  | Some true =>
      (Normal tt,
       {| bodyOpen := Some false;
          arrow := match arrow header with Some _ => Some "▶" | None => None end |})
  | Some false =>
      (Normal tt,
       {| bodyOpen := Some true;
          arrow := match arrow header with Some _ => Some "▼" | None => None end |})
  end.

(** ** Vocabulary of the further properties *)

(** What [escapeHtml] puts for one character. *)
Definition escapeChar (c : ascii) : string :=
  if Ascii.eqb c "&" then "&amp;"
  else if Ascii.eqb c "<" then "&lt;"
  else if Ascii.eqb c ">" then "&gt;"
  else String c "".

(** The text with each character replaced once. *)
Fixpoint escapeEach (s : string) : string :=
  match s with
  | EmptyString => EmptyString
  | String c r => escapeChar c +:+ escapeEach r
  end.

(** The character occurs in the text. *)
Fixpoint occurs (c : ascii) (s : string) : bool :=
  match s with
  | EmptyString => false
  | String a r => Ascii.eqb a c || occurs c r
  end.

(** The class of the badge of a signal in the table of the detail
    pane, and in its block of reasons. *)
Definition rowBadge (s : Signal) : string :=
  let action := orText (action s) "wait" in
  if String.eqb action "wait" || String.eqb action "hold" then "wait"
  else if includes "long" action then "buy" else "sell".

Definition reasonBadge (sig : Signal) : string :=
  if isWait sig then "wait"
  else match truthyText (action sig) with
       | Some a => if includes "long" a then "buy" else "sell"
       | None => "sell"
       end.

(** The tag an item of the decision list opens with, for the index it
    selects and for what its class attribute has after [decision-item]
    and a space: nothing, or [active]. *)
Definition itemTag (i : nat) (class : string) : string :=
  markup "<div class=`decision-item " +:+ class
  +:+ markup "` onclick=`selectDecision(" +:+ pretty i +:+ markup ")`>".

(** A field that counts as not set: absent, zero or the empty text. *)
Definition unset (x : option Scalar) : Prop :=
  match x with
  | Some v => truthyScalar v = false
  | None => True
  end.

(** The document after a sequence of assignments. *)
Definition written (ws : list (string * string)) (doc : gmap string string)
  : gmap string string :=
  fold_left (fun doc w => <[fst w := snd w]> doc) ws doc.

Section Requests.

Context {Stats Position Trade : Type}.

(** The requests a task sends. *)
Definition requests (e : Event (Stats := Stats) (Position := Position) (Trade := Trade))
    (st : State Stats Position Trade) : list string :=
  match e with
  | DashboardOpened =>
      ["/dashboard_stats"; "/profit_curve"; "/positions"; "/completed_trades?limit=10&page=1"]
  | PagerClicked page =>
      if page <? 1 then [] else ["/completed_trades?limit=10&page=" +:+ pretty page]
  | DecisionsOpened => ["/decisions?limit=" +:+ default "8" (document st !! "ai-limit")]
  | _ => []
  end.

(** No request goes out. *)
Definition sameNetwork (st st' : State Stats Position Trade) : Prop :=
  network st' = network st.

(** The states agree in everything but [currentTradesPage]. *)
Definition agreeButPage (st st' : State Stats Position Trade) : Prop :=
  document st' = document st /\ console st' = console st /\ network st' = network st
  /\ chart st' = chart st /\ calls st' = calls st /\ unhandled st' = unhandled st
  /\ currentDecisions st' = currentDecisions st
  /\ selectedDecisionIndex st' = selectedDecisionIndex st.

(** A statement goes its way whatever [currentTradesPage] holds, and
    leaves it alone. *)
Definition blind {A} (m : M Stats Position Trade A) : Prop :=
  forall p st,
    m (setCurrentTradesPage p st) = (fst (m st), setCurrentTradesPage p (snd (m st))).

End Requests.

(** ** A host and a page to run the script on

    [decimalHost] computes without rounding and formats without a
    locale: [toFixed] rounds the exact value half away from zero, a
    number prints as an integer or as a fraction, and a date as its
    milliseconds. *)
Definition padLeft (width : nat) (s : string) : string :=
  String.concat "" (repeat "0" (width - String.length s)) +:+ s.

Definition decimalToFixed (q : number) (digits : nat) : string :=
  let scale := 10 ^ Z.of_nat digits in
  let den := Z.pos (Qden q) in
  let units := (2 * Z.abs (Qnum q) * scale + den) / (2 * den) in
  (if Qnum q <? 0 then "-" else "")
  +:+ pretty (units / scale)
  +:+ (if (digits =? 0)%nat then "" else "." +:+ padLeft digits (pretty (units mod scale))).

Definition decimalHost : Host := {|
  times := Qmult;
  divide := Qdiv;
  toFixed := decimalToFixed;
  numberToString q :=
    let r := Qred q in
    if (Qden r =? 1)%positive then pretty (Qnum r)
    else pretty (Qnum r) +:+ "/" +:+ pretty (Z.pos (Qden r));
  toLocaleString ms := pretty ms
|}.

(** The elements the script looks up, all empty but the limit box. *)
Definition examplePage : gmap string string :=
  list_to_map
    [("stats-row1", ""); ("stats-row2", ""); ("profit_chart", ""); ("chart-legend", "");
     ("tab-positions", ""); ("tab-trades", ""); ("pos-count", ""); ("trade-count", "");
     ("dashboard-subtitle", ""); ("ai-limit", "8"); ("ai-summary", "");
     ("decision-list", ""); ("decision-detail", "")].

(** The state of the script when it has just been loaded. *)
Definition initialState {Stats Position Trade} (page : gmap string string)
  : State Stats Position Trade :=
  mkState page [] [] [] [] [] [] 0 1.

(** Stand-ins for the renderers left open: the backend's payloads are
    unit values, and each renderer writes a fixed text to its element. *)
Definition exampleStats (_ : unit) (_ : ProfitCurve) : Writes :=
  ([("stats-row1", "row1"); ("stats-row2", "row2")], None).

Definition examplePositions (_ : PositionsResponse unit) : Writes :=
  ([("tab-positions", "positions")], None).

Definition exampleTrades (_ : TradePage unit) : Writes :=
  ([("tab-trades", "trades")], None).

Definition exampleState : State unit unit unit := initialState examplePage.

Definition signalOf (sym act : string) : Signal :=
  Build_Signal (Some sym) (Some act) None None None None None None None None None None None.

Definition decisionOf (n count : Z) (sigs : list Signal) : Decision :=
  Build_Decision n None None (Some count) None None (Some sigs) None None.

(** A log of three rounds, the first one empty; the third round has a
    waiting signal in front of a long one. *)
Definition exampleDecisions : DecisionsResponse :=
  Build_DecisionsResponse
    (Some [decisionOf 1 0 [];
           decisionOf 2 2 [signalOf "BTCUSDT" "open_long"; signalOf "ETHUSDT" "wait"];
           decisionOf 3 2 [signalOf "BTCUSDT" "wait"; signalOf "ETHUSDT" "open_long"]])
    (Some 3).

Definition emptyDecisions : DecisionsResponse :=
  Build_DecisionsResponse (Some [decisionOf 4 0 []]) (Some 4).

(** The page after the log has loaded, and after a click on its second
    item. *)
Definition exampleLoaded : State unit unit unit :=
  runTask
    (task (H := decimalHost) exampleStats examplePositions exampleTrades
       (DecisionsSettled (Fulfilled exampleDecisions)))
    exampleState.

Definition exampleClicked : State unit unit unit :=
  runTask
    (task (H := decimalHost) exampleStats examplePositions exampleTrades (DecisionClicked 1))
    exampleLoaded.

(** A signal whose reason and whose invalidation condition carry
    markup. *)
Definition markedSignal : Signal :=
  Build_Signal (Some "BTCUSDT") (Some "open_long") None None None None None None None
    None None (Some "<i>breakout</i>")
    (Some ["<img src=x onerror=alert(1)>"; "close < 100"]).

Definition markedDecisions : DecisionsResponse :=
  Build_DecisionsResponse (Some [decisionOf 1 1 [markedSignal]]) (Some 1).

Definition examplePositionsData : PositionsResponse unit :=
  Build_PositionsResponse (Some [tt]).

Definition exampleTradePage : TradePage unit :=
  Build_TradePage (Some [tt; tt]) (Some 2) (Some 1) (Some 1).

Definition exampleCurve : ProfitCurve :=
  Build_ProfitCurve (Some 5000%Q)
    (Some [PointArray 1700000000000 5000%Q; PointObject 1700000060000 (50105 # 10)]).

(** ** A site and payloads for the further properties *)

(** The example page with the elements of two pages and their links. *)
Definition exampleSite : gmap string string :=
  <["page-dashboard" := ""]> (<["nav-dashboard" := ""]>
    (<["page-ai" := ""]> (<["nav-ai" := ""]> examplePage))).

Definition exampleLayout : Layout :=
  {| pageElements := ["page-dashboard"; "page-ai"];
     navLinks := ["nav-dashboard"; "nav-ai"];
     tabButtons := ["btn-positions"; "btn-trades"] |}.

(** The dashboard is the page on display, with the positions tab. *)
Definition exampleView : View :=
  mkView {["page-dashboard"; "nav-dashboard"; "btn-positions"]} ∅.

Definition exampleSiteState : State unit unit unit := initialState exampleSite.

(** The example page without the legend of the chart. *)
Definition exampleNoLegend : State unit unit unit :=
  initialState (delete "chart-legend" examplePage).

(** A short position closed with a profit after 2 hours and 15
    minutes, entered by a limit order. *)
Definition exampleTrade : CompletedTrade.t :=
  CompletedTrade.Build_t "BTCUSDT" (Some "SHORT") (Some "LIMIT") None
    (Some 65000%Q) (Some 64000%Q) (Some (1 # 8)) (Some 100%Q) (Some (3 # 2))
    (Some 120%Q) (Some 20%Q) (Some (5 # 4)) (Some 135%Q)
    (Some 1700000000) (Some 1700008100).

(** A trade of which the backend knows the symbol only. *)
Definition exampleBareTrade : CompletedTrade.t :=
  CompletedTrade.Build_t "ETHUSDT" None None None None None None None None None None None
    None None None.

(** The second of three pages, without a total; and a first page. *)
Definition exampleTrades2 : TradePage CompletedTrade.t :=
  Build_TradePage (Some [exampleTrade; exampleBareTrade]) None (Some 2) (Some 3).

Definition exampleTrades1 : TradePage CompletedTrade.t :=
  Build_TradePage (Some [exampleBareTrade]) (Some 21) (Some 1) (Some 3).

Definition exampleOpenPosition : OpenPosition.t :=
  OpenPosition.Build_t "BTCUSDT" (Some "SHORT") (Some (- (1 # 8))%Q) (Some 65000%Q)
    (Some 5%Q) (Some 64500%Q) (Some 50%Q) None (Some 66000%Q).

Definition exampleOpenPositions : PositionsResponse OpenPosition.t :=
  Build_PositionsResponse (Some [exampleOpenPosition]).

(** Statistics of an account that has not traded: most fields absent. *)
Definition exampleBareStats : DashboardStats.t :=
  DashboardStats.Build_t None None None None None None (Some 0%Q) None None None None None.

Definition exampleDashboard : State DashboardStats.t OpenPosition.t CompletedTrade.t :=
  initialState examplePage.

(** The body of an error response, [{"error": "..."}], read as
    statistics: it has none of their fields. *)
Definition exampleErrorBody : DashboardStats.t :=
  DashboardStats.Build_t None None None None None None None None None None None None.

(** * Properties *)

(** ** The formatting helpers on small inputs *)

Example escapeHtml_markup :
  escapeHtml "<b>a & b</b>" = "&lt;b&gt;a &amp; b&lt;/b&gt;".
Proof. reflexivity. Qed.

Example escapeHtml_ampersand_first : escapeHtml "&lt;" = "&amp;lt;".
Proof. reflexivity. Qed.

Example escapeHtml_empty : escapeHtml "" = "".
Proof. reflexivity. Qed.

Example size_is_first_populated :
  firstTruthy (H := decimalHost) [None; Some (SNum 2%Q); Some (SText "9"); None] "-" = "2"
  /\ firstTruthy (H := decimalHost) [Some (SNum 0%Q); Some (SText ""); None; None] "-" = "-".
Proof. split; reflexivity. Qed.

Example includes_long :
  includes "long" "open_long" = true /\ includes "long" "close_short" = false.
Proof. split; reflexivity. Qed.

Example join_comma : join ", " ["a"; "b"; "c"] = "a, b, c".
Proof. reflexivity. Qed.

Example sort_is_stable :
  List.map symbol
    (sort compareSignals
       [signalOf "A" "wait"; signalOf "B" "open_long"; signalOf "C" "hold";
        signalOf "D" "close_short"; signalOf "E" "wait"])
  = [Some "B"; Some "D"; Some "A"; Some "C"; Some "E"].
Proof. reflexivity. Qed.

(** ** The order of the signals *)

Lemma compareSignals_gt (a b : Signal) :
  (compareSignals a b >? 0) = isWait a && negb (isWait b).
Proof.
  unfold compareSignals. destruct (isWait a), (isWait b); reflexivity.
Qed.

(** A signal that is not waiting stays in front. *)
Lemma sortInsert_notWait (a : Signal) (l : list Signal) :
  isWait a = false -> sortInsert compareSignals a l = a :: l.
Proof.
  intros Ha. destruct l as [|b t]; [reflexivity|].
  simpl. rewrite compareSignals_gt, Ha. reflexivity.
Qed.

(** A waiting signal moves past the signals that are not waiting and
    stops in front of the first waiting one. *)
Lemma sortInsert_wait (a : Signal) (front back : list Signal) :
  isWait a = true ->
  Forall (fun s => isWait s = false) front ->
  Forall (fun s => isWait s = true) back ->
  sortInsert compareSignals a (front ++ back) = front ++ a :: back.
Proof.
  intros Ha Hfront Hback.
  induction Hfront as [|b front Hb _ IH]; simpl.
  - destruct Hback as [|c back Hc _]; [reflexivity|].
    simpl. rewrite compareSignals_gt, Ha, Hc. reflexivity.
  - rewrite compareSignals_gt, Ha, Hb. simpl. now rewrite IH.
Qed.

Lemma Forall_filter_true {A} (f : A -> bool) (l : list A) :
  Forall (fun x => f x = true) (List.filter f l).
Proof.
  apply List.Forall_forall. intros x Hx.
  apply List.filter_In in Hx. tauto.
Qed.

Lemma filter_all {A} (f : A -> bool) (l : list A) :
  Forall (fun x => f x = true) l -> List.filter f l = l.
Proof.
  induction 1 as [|a l Ha _ IH]; [reflexivity|]. simpl. now rewrite Ha, IH.
Qed.

Lemma filter_all_none {A} (f : A -> bool) (l : list A) :
  Forall (fun x => f x = false) l -> List.filter f l = [].
Proof.
  induction 1 as [|a l Ha _ IH]; [reflexivity|]. simpl. now rewrite Ha, IH.
Qed.

Lemma sort_compareSignals (l : list Signal) :
  sort compareSignals l = List.filter notWait l ++ List.filter isWait l.
Proof.
  induction l as [|a l IH]; [reflexivity|].
  unfold sort in *. simpl. rewrite IH.
  assert (Hfront : Forall (fun s => isWait s = false) (List.filter notWait l)).
  { eapply List.Forall_impl; [|apply (Forall_filter_true notWait)].
    unfold notWait. intros s Hs. now destruct (isWait s). }
  unfold notWait at 2. destruct (isWait a) eqn:Ha; simpl.
  - apply sortInsert_wait; [assumption|assumption|apply Forall_filter_true].
  - now apply sortInsert_notWait.
Qed.

(** The insertion sort stands for every stable sort: an array that is
    sorted by the comparator and has the signals of each part in the
    order [l] has them is the array [sort] gives. *)
Lemma sortedBy_partition (r : list Signal) :
  sortedBy compareSignals r -> r = List.filter notWait r ++ List.filter isWait r.
Proof.
  induction r as [|a r IH]; intros Hsorted; [reflexivity|].
  assert (Htail : sortedBy compareSignals r).
  { intros i j x y Hi Hj Hij. apply (Hsorted (S i) (S j)); [exact Hi|exact Hj|lia]. }
  simpl. unfold notWait at 1. destruct (isWait a) eqn:Ha; simpl.
  - assert (Hall : Forall (fun s => isWait s = true) r).
    { apply List.Forall_forall. intros s Hs.
      apply list_elem_of_In, list_elem_of_lookup in Hs. destruct Hs as [j Hj].
      specialize (Hsorted 0%nat (S j) a s eq_refl Hj ltac:(lia)).
      unfold compareSignals in Hsorted. rewrite Ha in Hsorted.
      destruct (isWait s); [reflexivity|lia]. }
    rewrite (filter_all_none notWait r), (filter_all isWait r); [reflexivity|exact Hall|].
    eapply List.Forall_impl; [|exact Hall].
    unfold notWait. intros s Hs. now rewrite Hs.
  - f_equal. now apply IH.
Qed.

Lemma stable_sort_unique (l r : list Signal) :
  sortedBy compareSignals r ->
  List.filter notWait r = List.filter notWait l ->
  List.filter isWait r = List.filter isWait l ->
  r = sort compareSignals l.
Proof.
  intros Hsorted Hfront Hback.
  rewrite sort_compareSignals, <- Hfront, <- Hback.
  now apply sortedBy_partition.
Qed.

(** In a list made of a part that fails [f] and a part that passes
    it, an element that passes comes after every element that fails. *)
Lemma partition_positions {A} (f : A -> bool) (front back : list A) (i j : nat) (a b : A) :
  Forall (fun x => f x = false) front ->
  Forall (fun x => f x = true) back ->
  (front ++ back) !! i = Some a -> (front ++ back) !! j = Some b ->
  f a = true -> f b = false -> (j < i)%nat.
Proof.
  intros Hfront Hback Hi Hj Ha Hb.
  rewrite List.Forall_forall in Hfront, Hback.
  destruct (decide (i < length front)%nat) as [Hlt|Hge].
  - rewrite lookup_app_l in Hi by assumption.
    apply list_elem_of_lookup_2, list_elem_of_In, Hfront in Hi. congruence.
  - destruct (decide (j < length front)%nat) as [Hlt|Hge']; [lia|].
    rewrite lookup_app_r in Hj by lia.
    apply list_elem_of_lookup_2, list_elem_of_In, Hback in Hj. congruence.
Qed.

(** C2. The order [renderDecisionDetail] gives the signals is a stable
    partition: the signals whose action is not exactly [wait] or [hold]
    come first, in the order they had, then the signals whose action is
    [wait] or [hold], in the order they had, so that each of these comes
    after each of those; and the comparator is 0 on two signals of the
    same part. *)
Theorem detail_sort_stable_partition (d : Decision) :
  let signals := default [] (signals d) in
  let sorted := snd (sortSignals d) in
  sorted = List.filter notWait signals ++ List.filter isWait signals
  /\ (forall i j a b,
        sorted !! i = Some a -> sorted !! j = Some b ->
        isWait a = true -> isWait b = false -> (j < i)%nat)
  /\ (forall a b, isWait a = isWait b -> compareSignals a b = 0)
  /\ (forall s, isWait s = true <-> action s = Some "wait" \/ action s = Some "hold").
Proof.
  simpl.
  assert (Hsorted : snd (sortSignals d)
                    = List.filter notWait (default [] (signals d))
                      ++ List.filter isWait (default [] (signals d))).
  { unfold sortSignals. destruct (signals d) as [l|]; simpl; [|reflexivity].
    apply sort_compareSignals. }
  split; [exact Hsorted|]. split; [|split].
  - rewrite Hsorted. intros i j a b.
    apply (partition_positions isWait); [|apply Forall_filter_true].
    eapply List.Forall_impl; [|apply (Forall_filter_true notWait)].
    unfold notWait. intros s Hs. now destruct (isWait s).
  - intros a b Hab. unfold compareSignals. rewrite Hab. destruct (isWait b); reflexivity.
  - intros s. unfold isWait. destruct (action s) as [a|].
    + rewrite orb_true_iff, !String.eqb_eq.
      split; (intros [E|E]; [left|right]; congruence).
    + split; [discriminate|]. intros [?|?]; discriminate.
Qed.

(** ** Appending texts *)

Lemma string_app_assoc (a b c : string) : (a +:+ b) +:+ c = a +:+ (b +:+ c).
Proof.
  induction a as [|x a IH]; [reflexivity|].
  change (String x ((a +:+ b) +:+ c) = String x (a +:+ (b +:+ c))). now rewrite IH.
Qed.

Lemma string_app_nil_r (a : string) : a +:+ "" = a.
Proof.
  induction a as [|x a IH]; [reflexivity|].
  change (String x (a +:+ "") = String x a). now rewrite IH.
Qed.

Lemma string_length_app (a b : string) :
  String.length (a +:+ b) = (String.length a + String.length b)%nat.
Proof.
  induction a as [|x a IH]; [reflexivity|].
  change (S (String.length (a +:+ b)) = S (String.length a + String.length b)).
  now rewrite IH.
Qed.

Section Properties.

Context `{Host} {Stats Position Trade : Type}.
Variable dashboardStats : Stats -> ProfitCurve -> Writes.
Variable positionsTable : PositionsResponse Position -> Writes.
Variable tradesTable : TradePage Trade -> Writes.

Local Abbreviation PageState := (State Stats Position Trade).
Local Abbreviation Stmt := (M Stats Position Trade).

(** ** The trades pager *)

(** C8. For a page below 1, [loadTradesPage] does nothing: no request
    goes out, nothing is logged or thrown, and [currentTradesPage] and
    the rest of the state are what they were. *)
Theorem loadTradesPage_below_one (page : Z) (r : Outcome (TradePage Trade)) (st : PageState) :
  page < 1 ->
  loadTradesPage_request page st = (Normal false, st)
  /\ loadTradesPage tradesTable page r st = st.
Proof.
  intros Hpage. unfold loadTradesPage, loadTradesPage_request.
  replace (page <? 1) with true by (symmetry; apply Z.ltb_lt; lia).
  split; reflexivity.
Qed.

(** ** The profit chart *)

Lemma chartSeries_from (points : list Point) (initial : number)
    (xData : list string) (yData baseLine : list number) :
  fold_left
    (fun '(xData, yData, baseLine) item =>
       (push xData (toLocaleString (pointTs item)),
        push yData (pointEquity item),
        push baseLine initial))
    points (xData, yData, baseLine)
  = (xData ++ List.map (fun item => toLocaleString (pointTs item)) points,
     yData ++ List.map pointEquity points,
     baseLine ++ repeat initial (length points)).
Proof.
  revert xData yData baseLine.
  induction points as [|item points IH]; intros xData yData baseLine; simpl.
  - now rewrite !List.app_nil_r.
  - rewrite IH. unfold push. now rewrite <- !List.app_assoc.
Qed.

Lemma chartSeries_eq (points : list Point) (initial : number) :
  chartSeries points initial
  = (List.map (fun item => toLocaleString (pointTs item)) points,
     List.map pointEquity points,
     repeat initial (length points)).
Proof. unfold chartSeries. now rewrite chartSeries_from. Qed.

Lemma orQ_eq (q : number) : (orQ (Some q) 0 == q)%Q.
Proof.
  unfold orQ. destruct (Qeq_bool q 0) eqn:E; [|reflexivity].
  apply Qeq_bool_iff in E. now symmetry.
Qed.

(** C9. For a profit curve with at least one point, the three arrays
    the loop of [renderProfitChart] builds have the length of the point
    sequence, and every element of [baseLine] is the curve's
    [initial_equity]; on a page with the chart and its legend, these
    are the arrays the chart is given. *)
Theorem renderProfitChart_series (profit : ProfitCurve) (points : list Point)
    (xData : list string) (yData baseLine : list number) :
  data profit = Some points ->
  points <> [] ->
  chartSeries points (orQ (initial_equity profit) 0%Q) = (xData, yData, baseLine) ->
  length xData = length points
  /\ length yData = length points
  /\ length baseLine = length points
  /\ (forall q, initial_equity profit = Some q -> Forall (fun b => (b == q)%Q) baseLine)
  /\ (forall st : PageState,
        is_Some (document st !! "profit_chart") ->
        is_Some (document st !! "chart-legend") ->
        exists st',
          renderProfitChart profit st = (Normal tt, st')
          /\ chart st' = chart st ++ [EchartsInit "profit_chart";
                                       SetOption xData yData baseLine; ResizeListener]).
Proof.
  intros Hdata Hpoints Hseries. rewrite chartSeries_eq in Hseries.
  injection Hseries as <- <- <-.
  rewrite !List.length_map, List.repeat_length.
  repeat split.
  - intros q Hq. rewrite Hq. apply List.Forall_forall. intros b Hb.
    apply List.repeat_spec in Hb. subst b. apply orQ_eq.
  - intros st [c Hc] [l Hl].
    unfold renderProfitChart, bind, called, charted, modify, getElementById, setContent.
    simpl. rewrite Hc, Hdata. simpl.
    destruct points as [|p points]; [congruence|]. simpl length. simpl Nat.eqb. cbv iota.
    rewrite chartSeries_eq. simpl. rewrite Hl.
    eexists. split; [reflexivity|]. simpl. now rewrite <- !List.app_assoc.
Qed.

(** ** Running the decision renderers *)

Arguments decisionDetail : simpl never.
Arguments decisionItems : simpl never.
Arguments noDecisions : simpl never.
Arguments selectPrompt : simpl never.

Lemma setContent_run (id s : string) (st : PageState) :
  setContent id s st =
    match document st !! id with
    | Some _ => (Normal tt, setDocument (insert id s) st)
    | None => (Throw nullError, st)
    end.
Proof. reflexivity. Qed.

Lemma renderDecisionList_run (st : PageState) :
  renderDecisionList st =
    let st1 := setCalls (fun l => l ++ [CallDecisionList]) st in
    let html :=
      if (length (currentDecisions st) =? 0)%nat then noDecisions
      else decisionItems 0 (currentDecisions st) (selectedDecisionIndex st) in
    match document st !! "decision-list" with
    | Some _ => (Normal tt, setDocument (insert "decision-list" html) st1)
    | None => (Throw nullError, st1)
    end.
Proof.
  unfold renderDecisionList, bind, called, modify, get, setContent. simpl.
  destruct (length (currentDecisions st) =? 0)%nat; simpl;
    destruct (document st !! "decision-list"); reflexivity.
Qed.

Lemma renderDecisionDetail_undefined (st : PageState) :
  renderDecisionDetail None st =
    let st1 := setCalls (fun l => l ++ [CallDecisionDetail None]) st in
    match document st !! "decision-detail" with
    | Some _ => (Normal tt, setDocument (insert "decision-detail" selectPrompt) st1)
    | None => (Throw nullError, st1)
    end.
Proof. reflexivity. Qed.

Lemma renderDecisionDetail_object (i : nat) (obj : Decision) (st : PageState) :
  currentDecisions st !! i = Some obj ->
  renderDecisionDetail (Some i) st =
    let st1 :=
      setCurrentDecisions (fun ds => <[i := fst (sortSignals obj)]> ds)
        (setCalls (fun l => l ++ [CallDecisionDetail (Some i)]) st) in
    match document st !! "decision-detail" with
    | Some _ =>
        (Normal tt,
         setDocument
           (insert "decision-detail"
              (decisionDetail (fst (sortSignals obj)) (snd (sortSignals obj)))) st1)
    | None => (Throw nullError, st1)
    end.
Proof.
  intros Hobj.
  unfold renderDecisionDetail, bind, called, modify, get, setContent. simpl.
  rewrite Hobj. destruct (sortSignals obj) as [obj' sorted]. simpl.
  destruct (document st !! "decision-detail"); reflexivity.
Qed.

Lemma decisionAt_out (index : Z) (ds : list Decision) :
  index < 0 \/ Z.of_nat (length ds) <= index -> decisionAt index ds = None.
Proof.
  intros Hout. unfold decisionAt.
  destruct (0 <=? index) eqn:E1, (index <? Z.of_nat (length ds)) eqn:E2;
    try reflexivity.
  apply Z.leb_le in E1. apply Z.ltb_lt in E2. lia.
Qed.

Lemma decisionAt_in (index : nat) (ds : list Decision) :
  (index < length ds)%nat -> decisionAt (Z.of_nat index) ds = Some index.
Proof.
  intros Hin. unfold decisionAt.
  replace (0 <=? Z.of_nat index) with true by (symmetry; apply Z.leb_le; lia).
  replace (Z.of_nat index <? Z.of_nat (length ds)) with true
    by (symmetry; apply Z.ltb_lt; lia).
  simpl. now rewrite Nat2Z.id.
Qed.

(** The markup of the list, item by item. *)
Lemma decisionItems_items (i : nat) (ds : list Decision) (selected : Z) :
  decisionItems i ds selected
  = foldr String.append ""
      (imap (fun j d => decisionItem (i + j) d (Z.of_nat (i + j) =? selected)) ds).
Proof.
  revert i. induction ds as [|d ds IH]; intros i; [reflexivity|].
  unfold decisionItems; fold decisionItems. simpl.
  rewrite Nat.add_0_r. f_equal. rewrite IH. f_equal.
  apply imap_ext. intros j x _. simpl. now rewrite Nat.add_succ_r.
Qed.

Lemma decisionItems_unselected (ds : list Decision) (selected : Z) :
  selected < 0 \/ Z.of_nat (length ds) <= selected ->
  decisionItems 0 ds selected
  = foldr String.append "" (imap (fun j d => decisionItem j d false) ds).
Proof.
  intros Hout. rewrite decisionItems_items. f_equal.
  apply imap_ext. intros j d Hj. simpl.
  apply lookup_lt_Some in Hj.
  replace (Z.of_nat j =? selected) with false; [reflexivity|].
  symmetry. apply Z.eqb_neq. lia.
Qed.

(** ** Selecting an index that is out of range *)

(** An item opens with its tag, which has [active] in the class
    attribute for the selected item and for no other. *)
Lemma decisionItem_tag (i : nat) (d : Decision) (active : bool) :
  exists rest,
    decisionItem i d active = itemTag i (if active then "active" else "") +:+ rest.
Proof.
  eexists. unfold itemTag. rewrite !string_app_assoc. reflexivity.
Qed.


(** ** What a statement leaves alone *)

Lemma filter_filter_same {A} (f : A -> bool) (l : list A) :
  List.filter f (List.filter f l) = List.filter f l.
Proof.
  induction l as [|a l IH]; [reflexivity|]. simpl.
  destruct (f a) eqn:Ha; simpl; [rewrite Ha, IH|]; auto.
Qed.

Lemma filter_filter_none {A} (f g : A -> bool) (l : list A) :
  (forall x, g x = true -> f x = false) ->
  List.filter f (List.filter g l) = [].
Proof.
  intros Hfg. induction l as [|a l IH]; [reflexivity|]. simpl.
  destruct (g a) eqn:Ha; simpl; [rewrite (Hfg a Ha)|]; auto.
Qed.

Lemma filter_notWait_sorted (l : list Signal) :
  List.filter notWait (List.filter notWait l ++ List.filter isWait l)
  = List.filter notWait l.
Proof.
  rewrite List.filter_app, filter_filter_same, filter_filter_none.
  - apply List.app_nil_r.
  - intros s Hs. unfold notWait. now rewrite Hs.
Qed.

Lemma filter_isWait_sorted (l : list Signal) :
  List.filter isWait (List.filter notWait l ++ List.filter isWait l)
  = List.filter isWait l.
Proof.
  rewrite List.filter_app, filter_filter_same, filter_filter_none.
  - reflexivity.
  - intros s. unfold notWait. now destruct (isWait s).
Qed.

(** Sorting sorted signals changes nothing. *)
Lemma sort_compareSignals_idem (l : list Signal) :
  sort compareSignals (sort compareSignals l) = sort compareSignals l.
Proof.
  rewrite !sort_compareSignals.
  now rewrite filter_notWait_sorted, filter_isWait_sorted.
Qed.

Lemma sortSignals_idem (d : Decision) :
  fst (sortSignals (fst (sortSignals d))) = fst (sortSignals d).
Proof.
  unfold sortSignals. destruct (signals d) as [l|] eqn:Hl; simpl.
  - now rewrite sort_compareSignals_idem.
  - now rewrite Hl.
Qed.

Lemma sortedVersion_trans (a b c : Decision) :
  sortedVersion a b -> sortedVersion b c -> sortedVersion a c.
Proof.
  unfold sortedVersion. intros [->| ->] [->| ->]; auto.
  right. apply sortSignals_idem.
Qed.

#[local] Instance keepsElements_preorder : PreOrder (A := PageState) keepsElements.
Proof.
  split.
  - intros st id Hid. exact Hid.
  - intros st1 st2 st3 H12 H23 id Hid. apply H23, H12, Hid.
Qed.

#[local] Instance sameDecisions_preorder : PreOrder (A := PageState) sameDecisions.
Proof.
  split.
  - intros st. repeat split. reflexivity.
  - intros st1 st2 st3 (D12 & S12 & K12) (D23 & S23 & K23).
    repeat split; [congruence|congruence|]. etransitivity; eassumption.
Qed.

#[local] Instance decisionsUpToSort_preorder : PreOrder (A := PageState) decisionsUpToSort.
Proof.
  split.
  - intros st. repeat split; [|reflexivity].
    apply Forall2_same_length_lookup. split; [reflexivity|].
    intros i d d' Hd Hd'. left. congruence.
  - intros st1 st2 st3 (D12 & S12 & K12) (D23 & S23 & K23).
    repeat split; [|congruence|etransitivity; eassumption].
    eapply Forall2_trans; [|eassumption|eassumption].
    intros a b c. apply sortedVersion_trans.
Qed.

Lemma sameDecisions_upToSort (st st' : PageState) :
  sameDecisions st st' -> decisionsUpToSort st st'.
Proof.
  intros (D & S & K). repeat split; [|assumption|assumption].
  rewrite D. apply Forall2_same_length_lookup. split; [reflexivity|].
  intros i d d' Hd Hd'. left. congruence.
Qed.

Section Relates.

Variable R : PageState -> PageState -> Prop.
Context {R_preorder : PreOrder R}.

Lemma relates_ret {A} (a : A) : relates R (ret a).
Proof. intros st. simpl. reflexivity. Qed.

Lemma relates_throw {A} (e : Error) : relates R (throw (A := A) e).
Proof. intros st. simpl. reflexivity. Qed.

Lemma relates_get : relates R get.
Proof. intros st. simpl. reflexivity. Qed.

Lemma relates_bind {A B} (m : Stmt A) (k : A -> Stmt B) :
  relates R m -> (forall a, relates R (k a)) -> relates R (bind m k).
Proof.
  intros Hm Hk st. unfold bind. specialize (Hm st).
  destruct (m st) as [[a|e] st1]; simpl in *; [|exact Hm].
  etransitivity; [exact Hm|apply Hk].
Qed.

Lemma relates_catch (m : Stmt unit) (handler : Error -> Stmt unit) :
  relates R m -> (forall e, relates R (handler e)) -> relates R (catch m handler).
Proof.
  intros Hm Hh st. unfold catch. specialize (Hm st).
  destruct (m st) as [[a|e] st1]; simpl in *; [exact Hm|].
  etransitivity; [exact Hm|apply Hh].
Qed.

End Relates.

Lemma relates_weaken {A} (R R' : PageState -> PageState -> Prop) (m : Stmt A) :
  (forall st st', R st st' -> R' st st') -> relates R m -> relates R' m.
Proof. intros HR Hm st. apply HR, Hm. Qed.

Lemma keepsElements_insert (id s : string) (st st' : PageState) :
  is_Some (document st !! id) ->
  document st' = <[id := s]> (document st) ->
  keepsElements st st'.
Proof.
  intros Hid Hdoc id' Hid'. rewrite Hdoc.
  apply lookup_insert_is_Some. destruct (decide (id = id')); auto.
Qed.

Lemma keepsElements_same (st st' : PageState) :
  document st' = document st -> keepsElements st st'.
Proof. intros Hdoc id. now rewrite Hdoc. Qed.

Lemma same_setContent (id s : string) : relates sameDecisions (setContent id s : Stmt _).
Proof.
  intros st. rewrite setContent_run.
  destruct (document st !! id) eqn:Hid; simpl; [|reflexivity].
  repeat split. eapply keepsElements_insert; [rewrite Hid; eauto|reflexivity].
Qed.

Lemma same_modify (f : PageState -> PageState) :
  (forall st, currentDecisions (f st) = currentDecisions st) ->
  (forall st, selectedDecisionIndex (f st) = selectedDecisionIndex st) ->
  (forall st, document (f st) = document st) ->
  relates sameDecisions (modify f).
Proof.
  intros Hd Hs Hdoc st. simpl. repeat split; auto using keepsElements_same.
Qed.

Lemma same_consoleLog (text : string) : relates sameDecisions (consoleLog text : Stmt _).
Proof. apply same_modify; reflexivity. Qed.

Lemma same_consoleError (context : string) (e : Error) :
  relates sameDecisions (consoleError context e : Stmt _).
Proof. apply same_modify; reflexivity. Qed.

Lemma same_fetch (url : string) : relates sameDecisions (fetch url : Stmt _).
Proof. apply same_modify; reflexivity. Qed.

Lemma same_called (c : RenderCall Stats Position Trade) : relates sameDecisions (called c).
Proof. apply same_modify; reflexivity. Qed.

Lemma same_charted (e : ChartEvent) : relates sameDecisions (charted e : Stmt _).
Proof. apply same_modify; reflexivity. Qed.

Lemma same_getElementById (id : string) :
  relates sameDecisions (getElementById id : Stmt _).
Proof. intros st. simpl. reflexivity. Qed.

Lemma same_setCurrentTradesPage (page : Z) :
  relates sameDecisions (modify (setCurrentTradesPage page) : Stmt _).
Proof. apply same_modify; reflexivity. Qed.

Create HintDb frame.

#[local] Hint Resolve relates_ret relates_throw relates_get same_setContent
  same_consoleLog same_consoleError same_fetch same_called same_charted
  same_getElementById same_setCurrentTradesPage : frame.

Ltac frame :=
  repeat first
    [ progress intros
    | solve [eauto with frame typeclass_instances]
    | apply relates_bind; [typeclasses eauto| |]
    | apply relates_catch; [typeclasses eauto| |]
    | match goal with
      | |- relates _ (match ?x with _ => _ end) => destruct x
      end ].

Lemma same_assign (ws : list (string * string)) :
  relates sameDecisions (assign ws : Stmt _).
Proof.
  induction ws as [|[id s] ws IH]; simpl; frame.
Qed.

Lemma same_perform (w : Writes) :
  relates sameDecisions (perform w : Stmt _).
Proof. unfold perform. pose proof same_assign. frame. Qed.

Lemma same_renderProfitChart (profit : ProfitCurve) :
  relates sameDecisions (renderProfitChart profit : Stmt _).
Proof. unfold renderProfitChart. frame. Qed.

#[local] Hint Resolve same_assign same_perform same_renderProfitChart : frame.

Lemma same_loadDashboard_request :
  relates sameDecisions (loadDashboard_request : Stmt _).
Proof. unfold loadDashboard_request. frame. Qed.

Lemma same_loadDashboard_settled (order : list nat) (r1 : Outcome Stats)
    (r2 : Outcome ProfitCurve)
    (r3 : Outcome (PositionsResponse Position)) (r4 : Outcome (TradePage Trade)) :
  relates sameDecisions
    (loadDashboard_settled dashboardStats positionsTable tradesTable order r1 r2 r3 r4).
Proof.
  unfold loadDashboard_settled, loadDashboard_then, renderDashboardStats,
    renderPositionsTable, renderTradesTable.
  frame.
Qed.

Lemma same_loadTradesPage_request (page : Z) :
  relates sameDecisions (loadTradesPage_request page : Stmt _).
Proof. unfold loadTradesPage_request. frame. Qed.

Lemma same_loadTradesPage_settled (r : Outcome (TradePage Trade)) :
  relates sameDecisions (loadTradesPage_settled tradesTable r : Stmt _).
Proof. unfold loadTradesPage_settled, renderTradesTable. frame. Qed.

Lemma same_loadAIDecisions_request :
  relates sameDecisions (loadAIDecisions_request : Stmt _).
Proof. unfold loadAIDecisions_request. frame. Qed.

(** ** What the decision renderers do to the log *)

Lemma Forall2_sortedVersion_refl (ds : list Decision) : Forall2 sortedVersion ds ds.
Proof.
  apply Forall2_same_length_lookup. split; [reflexivity|].
  intros i d d' Hd Hd'. left. congruence.
Qed.

Lemma Forall2_sortedVersion_insert (ds : list Decision) (i : nat) (obj : Decision) :
  ds !! i = Some obj ->
  Forall2 sortedVersion ds (<[i := fst (sortSignals obj)]> ds).
Proof.
  intros Hobj. apply Forall2_same_length_lookup.
  split; [now rewrite length_insert|].
  intros j d d' Hd Hd'. destruct (decide (i = j)) as [->|Hij].
  - rewrite list_lookup_insert_eq in Hd' by (eapply lookup_lt_Some; eassumption).
    right. congruence.
  - rewrite list_lookup_insert_ne in Hd' by assumption. left. congruence.
Qed.

#[local] Instance decisionsKept_preorder : PreOrder (A := PageState) decisionsKept.
Proof.
  split.
  - intros st. split; [apply Forall2_sortedVersion_refl|reflexivity].
  - intros st1 st2 st3 (D12 & K12) (D23 & K23).
    split; [|etransitivity; eassumption].
    eapply Forall2_trans; [|eassumption|eassumption].
    intros a b c. apply sortedVersion_trans.
Qed.

Lemma upToSort_kept (st st' : PageState) :
  decisionsUpToSort st st' -> decisionsKept st st'.
Proof. intros (D & S & K). now split. Qed.

Lemma upToSort_renderDecisionList :
  relates decisionsUpToSort (renderDecisionList : Stmt _).
Proof.
  apply (relates_weaken sameDecisions); [apply sameDecisions_upToSort|].
  unfold renderDecisionList. frame.
Qed.

Lemma upToSort_renderDecisionDetail (d : option nat) :
  relates decisionsUpToSort (renderDecisionDetail d : Stmt _).
Proof.
  intros st.
  assert (Hnone : forall c, decisionsUpToSort st
            (snd (setContent "decision-detail" selectPrompt
                    (setCalls (fun l => l ++ [c]) st)))).
  { intros c. apply sameDecisions_upToSort. rewrite setContent_run. simpl.
    destruct (document st !! "decision-detail") eqn:Hp; simpl; repeat split.
    - eapply keepsElements_insert; [rewrite Hp; eauto|reflexivity].
    - now apply keepsElements_same. }
  destruct d as [i|]; [|apply Hnone].
  destruct (currentDecisions st !! i) as [obj|] eqn:Hobj.
  - rewrite (renderDecisionDetail_object i obj st Hobj). simpl.
    destruct (document st !! "decision-detail") eqn:Hp; simpl; repeat split;
      try (now apply Forall2_sortedVersion_insert).
    + eapply keepsElements_insert; [rewrite Hp; eauto|reflexivity].
    + now apply keepsElements_same.
  - unfold renderDecisionDetail, bind, called, modify, get. simpl.
    rewrite Hobj. apply Hnone.
Qed.

(** [selectDecision] stores the index, whatever it is, and keeps the
    log up to the sort. *)
Lemma selectDecision_stores (index : Z) (st : PageState) :
  selectedDecisionIndex (snd (selectDecision index st)) = index
  /\ decisionsKept st (snd (selectDecision index st)).
Proof.
  assert (Hrest : relates decisionsUpToSort
            (bind (renderDecisionList : Stmt _)
               (fun _ => bind get (fun st1 =>
                  renderDecisionDetail (decisionAt index (currentDecisions st1)))))).
  { pose proof upToSort_renderDecisionList. pose proof upToSort_renderDecisionDetail.
    frame. }
  specialize (Hrest (setSelectedDecisionIndex index st)).
  unfold selectDecision. unfold bind at 1. simpl.
  destruct Hrest as (D & S & K). split; [exact S|]. split; [exact D|exact K].
Qed.

Lemma kept_selectDecision (index : Z) :
  relates decisionsKept (selectDecision index : Stmt _).
Proof. intros st. apply selectDecision_stores. Qed.

Lemma runTask_relates (R : PageState -> PageState -> Prop) `{!PreOrder R}
    (m : Stmt unit) (st : PageState) :
  relates R m ->
  (forall st1 e, R st1 (setUnhandled (fun l => l ++ [e]) st1)) ->
  R st (runTask m st).
Proof.
  intros Hm Hu. unfold runTask. specialize (Hm st).
  destruct (m st) as [[a|e] st1]; simpl in *; [exact Hm|].
  etransitivity; [exact Hm|apply Hu].
Qed.

(** The log after the reaction of [loadAIDecisions] to a response: the
    decisions of the response that pass the filter, up to the sort. *)
Lemma loadAIDecisions_settled_kept (response : DecisionsResponse) (st : PageState) :
  decisionsKept
    (setCurrentDecisions
       (fun _ => List.filter (fun d => orZ (symbols_count d) 0 >? 0)
                   (default [] (decisions response))) st)
    (runTask (loadAIDecisions_settled (Fulfilled response)) st).
Proof.
  set (filtered := List.filter _ _).
  set (st1 := setCurrentDecisions (fun _ => filtered) st).
  unfold runTask, loadAIDecisions_settled, catch, loadAIDecisions_then.
  unfold bind at 1. simpl. fold filtered. fold st1.
  match goal with
  | |- context [bind ?m ?k st1] =>
      assert (Hk : relates decisionsKept (bind m k))
  end.
  { pose proof upToSort_renderDecisionList as HL.
    apply (relates_weaken _ _ _ upToSort_kept) in HL.
    pose proof kept_selectDecision.
    pose proof (fun id s => relates_weaken _ _ _
      (fun st st' Hs => upToSort_kept st st' (sameDecisions_upToSort st st' Hs))
      (same_setContent id s)).
    frame. }
  specialize (Hk st1).
  match goal with
  | |- context [bind ?m ?k st1] => destruct (bind m k st1) as [[a|e] st2]
  end; simpl in *; [exact Hk|].
  destruct Hk as [D K]. split; [exact D|exact K].
Qed.

Lemma loadAIDecisions_settled_log (response : DecisionsResponse) (st : PageState) :
  Forall2 sortedVersion
    (List.filter (fun d => orZ (symbols_count d) 0 >? 0) (default [] (decisions response)))
    (currentDecisions (runTask (loadAIDecisions_settled (Fulfilled response)) st)).
Proof. exact (proj1 (loadAIDecisions_settled_kept response st)). Qed.

(** ** The decision log has no empty round *)

(** C5. Whatever the response, the decision list [loadAIDecisions]
    retains has no decision with [symbols_count] 0 (nor one without a
    count, nor with a negative one). *)
Theorem loadAIDecisions_no_empty_round (response : DecisionsResponse) (st : PageState) :
  Forall (fun d => symbols_count d <> Some 0 /\ 0 < orZ (symbols_count d) 0)
    (currentDecisions (loadAIDecisions (Fulfilled response) st)).
Proof.
  unfold loadAIDecisions.
  eapply Forall2_Forall_r; [apply loadAIDecisions_settled_log|].
  apply List.Forall_forall. intros d Hd d' Hdd'.
  apply List.filter_In in Hd. destruct Hd as [_ Hpos].
  apply Z.gtb_lt in Hpos.
  assert (Hcount : symbols_count d' = symbols_count d).
  { destruct Hdd' as [->| ->]; [reflexivity|].
    unfold sortSignals. now destruct (signals d). }
  rewrite Hcount. split; [|exact Hpos].
  intros Hzero. rewrite Hzero in Hpos. simpl in Hpos. lia.
Qed.

(** ** The sort happens in the store *)

(** C4, as the script has it.  [renderDecisionDetail] sorts the signals
    of the decision object in the store: after it has run on the
    decision at index [i], that decision holds its signals with the
    [wait] and [hold] ones moved behind the others (each group in the
    order it had), its other fields and the other decisions are what
    they were, and a second run changes nothing more. *)
Theorem renderDecisionDetail_sorts_store (i : nat) (obj : Decision) (l : list Signal)
    (st : PageState) :
  currentDecisions st !! i = Some obj ->
  signals obj = Some l ->
  let st' := snd (renderDecisionDetail (Some i) st) in
  let sorted := List.filter notWait l ++ List.filter isWait l in
  currentDecisions st'
  = <[i := Build_Decision (round obj) (timestamp obj) (http_status obj) (symbols_count obj)
             (signal_count obj) (wait_count obj) (Some sorted) (request obj)
             (response_raw obj)]> (currentDecisions st)
  /\ currentDecisions (snd (renderDecisionDetail (Some i) st')) = currentDecisions st'.
Proof.
  intros Hobj Hl. simpl.
  assert (Hsorted : fst (sortSignals obj)
    = Build_Decision (round obj) (timestamp obj) (http_status obj) (symbols_count obj)
        (signal_count obj) (wait_count obj)
        (Some (List.filter notWait l ++ List.filter isWait l)) (request obj)
        (response_raw obj)).
  { unfold sortSignals. rewrite Hl. simpl. now rewrite sort_compareSignals. }
  assert (Hstore : forall st0 : PageState, forall o,
            currentDecisions st0 !! i = Some o ->
            currentDecisions (snd (renderDecisionDetail (Some i) st0))
            = <[i := fst (sortSignals o)]> (currentDecisions st0)).
  { intros st0 o Ho. rewrite (renderDecisionDetail_object i o st0 Ho). simpl.
    destruct (document st0 !! "decision-detail"); reflexivity. }
  split; [now rewrite (Hstore st obj Hobj), Hsorted|].
  rewrite (Hstore _ (fst (sortSignals obj))).
  - rewrite sortSignals_idem, (Hstore st obj Hobj). apply list_insert_insert_eq.
  - rewrite (Hstore st obj Hobj).
    apply list_lookup_insert_eq. eapply lookup_lt_Some. eassumption.
Qed.

(** ** The selection *)

Lemma bind_normal {A B} (m : Stmt A) (k : A -> Stmt B)
    (st st' : PageState) (a : A) :
  m st = (Normal a, st') -> bind m k st = k a st'.
Proof. intros Hm. unfold bind. now rewrite Hm. Qed.

Lemma runTask_catch_log (m : Stmt unit) (context : string) (st : PageState) :
  runTask (catch m (fun err => consoleError context err)) st =
    match m st with
    | (Normal _, st') => st'
    | (Throw e, st') => setConsole (fun l => l ++ [LogError context e]) st'
    end.
Proof. unfold runTask, catch. destruct (m st) as [[a|e] st']; reflexivity. Qed.

(** After the reaction of [loadAIDecisions] to a response, on a page
    with the decision panes: the selection is 0 when the log has an
    entry, and what it was when the log is empty. *)
Lemma loadAIDecisions_settled_selection (response : DecisionsResponse) (st : PageState) :
  decisionPanes (document st) ->
  let st' := runTask (loadAIDecisions_settled (Fulfilled response)) st in
  (currentDecisions st' <> [] -> selectedDecisionIndex st' = 0)
  /\ (currentDecisions st' = [] -> selectedDecisionIndex st' = selectedDecisionIndex st).
Proof.
  intros ([s Hs] & [l Hl] & [p Hp]). simpl.
  pose proof (loadAIDecisions_settled_log response st) as Hlog.
  revert Hlog.
  unfold loadAIDecisions_settled. rewrite runTask_catch_log.
  unfold loadAIDecisions_then.
  set (filtered := List.filter _ _).
  rewrite (bind_normal _ _ st (setCurrentDecisions (fun _ => filtered) st) tt) by reflexivity.
  erewrite bind_normal by (rewrite setContent_run; simpl; rewrite Hs; reflexivity).
  erewrite bind_normal
    by (rewrite renderDecisionList_run; simpl;
        rewrite lookup_insert_ne by discriminate; rewrite Hl; reflexivity).
  erewrite bind_normal by reflexivity.
  simpl currentDecisions.
  destruct filtered as [|d ds] eqn:Hf; simpl.
  - intros Hlog. inversion Hlog as [Hnil|]. split; [congruence|]. intros _. reflexivity.
  - match goal with
    | |- context [selectDecision 0 ?s] =>
        pose proof (selectDecision_stores 0 s) as [Hsel _];
        destruct (selectDecision 0 s) as [[a|e] st2]
    end; simpl in *; intros Hlog;
      (split; [intros _; exact Hsel|]);
      intros Hnil; rewrite Hnil in Hlog; inversion Hlog.
Qed.

Lemma runTask_fields (m : Stmt unit) (st : PageState) :
  currentDecisions (runTask m st) = currentDecisions (snd (m st))
  /\ selectedDecisionIndex (runTask m st) = selectedDecisionIndex (snd (m st))
  /\ document (runTask m st) = document (snd (m st)).
Proof. unfold runTask. destruct (m st) as [[a|e] st']; repeat split. Qed.

Lemma decisionPanes_kept (st st' : PageState) :
  keepsElements st st' -> decisionPanes (document st) -> decisionPanes (document st').
Proof. intros K (Hs & Hl & Hp). repeat split; now apply K. Qed.

Lemma sameDecisions_runTask (m : Stmt unit) (st : PageState) :
  relates sameDecisions m -> sameDecisions st (runTask m st).
Proof.
  intros Hm. apply runTask_relates; [typeclasses eauto|exact Hm|].
  intros st1 e. repeat split. now apply keepsElements_same.
Qed.

Lemma sameDecisions_invariant (st st' : PageState) :
  sameDecisions st st' ->
  decisionPanes (document st) /\ selectionValid st ->
  decisionPanes (document st') /\ selectionValid st'.
Proof.
  intros (D & S & K) [Hpanes Hvalid]. split; [eapply decisionPanes_kept; eassumption|].
  unfold selectionValid in *. now rewrite D, S.
Qed.

(** Every state the page gets to has the decision panes and a valid
    selection. *)
Lemma reachable_invariant (st : PageState) :
  reachable dashboardStats positionsTable tradesTable st ->
  decisionPanes (document st) /\ selectionValid st.
Proof.
  induction 1 as [doc Hdoc|st e Hreach IH Hen].
  - split; [exact Hdoc|]. intros Hne. now contradiction Hne.
  - destruct e as [|order r1 r2 r3 r4|page|r| |r|index]; cbn [task enabled] in *.
    + apply (sameDecisions_invariant st); [|exact IH].
      apply sameDecisions_runTask, same_loadDashboard_request.
    + apply (sameDecisions_invariant st); [|exact IH].
      apply sameDecisions_runTask, same_loadDashboard_settled.
    + apply (sameDecisions_invariant st); [|exact IH].
      apply sameDecisions_runTask.
      pose proof (same_loadTradesPage_request page). frame.
    + apply (sameDecisions_invariant st); [|exact IH].
      apply sameDecisions_runTask, same_loadTradesPage_settled.
    + apply (sameDecisions_invariant st); [|exact IH].
      apply sameDecisions_runTask, same_loadAIDecisions_request.
    + destruct r as [response|err].
      * destruct IH as [Hpanes Hvalid].
        pose proof (loadAIDecisions_settled_kept response st) as [_ K].
        pose proof (loadAIDecisions_settled_selection response st Hpanes) as [Hsel _].
        cbv zeta in Hsel. split.
        -- eapply decisionPanes_kept; [|exact Hpanes].
           intros id Hid. apply K. exact Hid.
        -- intros Hne. rewrite (Hsel Hne).
           destruct (currentDecisions (runTask _ st)); [congruence|]. simpl. lia.
      * apply (sameDecisions_invariant st); [|exact IH].
        apply sameDecisions_runTask. unfold loadAIDecisions_settled. frame.
    + destruct IH as [Hpanes Hvalid].
      destruct (runTask_fields (selectDecision (Z.of_nat index)) st) as (Hd & Hs & Hdoc).
      destruct (selectDecision_stores (Z.of_nat index) st) as [Hsel [D K]].
      split.
      * eapply decisionPanes_kept; [|exact Hpanes].
        intros id Hid. rewrite Hdoc. now apply K.
      * unfold selectionValid. rewrite Hd, Hs, Hsel.
        intros _. apply Forall2_length in D. lia.
Qed.


(** ** The dashboard load *)

#[local] Instance sameTrace_preorder : PreOrder (A := PageState) sameTrace.
Proof.
  split.
  - intros st. repeat split.
  - intros st1 st2 st3 (C12 & L12 & U12) (C23 & L23 & U23).
    repeat split; congruence.
Qed.

Lemma trace_modify (f : PageState -> PageState) :
  (forall st, calls (f st) = calls st) ->
  (forall st, console (f st) = console st) ->
  (forall st, unhandled (f st) = unhandled st) ->
  relates sameTrace (modify f).
Proof. intros Hc Hl Hu st. simpl. repeat split; auto. Qed.

Lemma trace_setContent (id s : string) :
  relates sameTrace (setContent id s : Stmt _).
Proof.
  intros st. rewrite setContent_run.
  destruct (document st !! id); simpl; repeat split.
Qed.

Lemma trace_charted (e : ChartEvent) :
  relates sameTrace (charted e : Stmt _).
Proof. apply trace_modify; reflexivity. Qed.

Lemma trace_getElementById (id : string) :
  relates sameTrace (getElementById id : Stmt _).
Proof. intros st. simpl. reflexivity. Qed.

#[local] Hint Resolve trace_setContent trace_charted trace_getElementById : frame.

Lemma trace_assign (ws : list (string * string)) :
  relates sameTrace (assign ws : Stmt _).
Proof. induction ws as [|[id s] ws IH]; simpl; frame. Qed.

Lemma trace_perform (w : Writes) :
  relates sameTrace (perform w : Stmt _).
Proof. unfold perform. pose proof trace_assign. frame. Qed.

Lemma emits_quiet {A} (m : Stmt A) :
  relates sameTrace m -> emits [] m.
Proof.
  intros Hm st. destruct (Hm st) as (C & L & U).
  repeat split; [exact L|exact U|].
  destruct (fst (m st)).
  - now rewrite List.app_nil_r.
  - exists []. split; [reflexivity|]. now rewrite List.app_nil_r.
Qed.

Lemma emits_bind {A B} (cs1 cs2 : list (RenderCall Stats Position Trade))
    (m : Stmt A) (k : A -> Stmt B) :
  emits cs1 m -> (forall a, emits cs2 (k a)) -> emits (cs1 ++ cs2) (bind m k).
Proof.
  intros Hm Hk st. unfold bind. specialize (Hm st).
  destruct (m st) as [[a|e] st1]; simpl in *.
  - destruct Hm as (L & U & C). specialize (Hk a st1).
    destruct (k a st1) as [[b|e] st2]; simpl in *; destruct Hk as (Lk & Uk & Ck).
    + repeat split; [congruence|congruence|]. now rewrite Ck, C, List.app_assoc.
    + destruct Ck as (cs' & Hpre & Ck).
      repeat split; [congruence|congruence|].
      exists (cs1 ++ cs'). split; [now apply prefix_app|].
      now rewrite Ck, C, List.app_assoc.
  - destruct Hm as (L & U & cs' & Hpre & C). repeat split; [exact L|exact U|].
    exists cs'. split; [now apply prefix_app_r|exact C].
Qed.

(** A renderer is one call, whatever becomes of it. *)
Lemma emits_render (c : RenderCall Stats Position Trade) (m : Stmt unit) :
  relates sameTrace m -> emits [c] (bind (called c) (fun _ => m)).
Proof.
  intros Hm st. unfold bind, called, modify. simpl.
  destruct (Hm (setCalls (fun l => l ++ [c]) st)) as (C & L & U). simpl in *.
  repeat split; [exact L|exact U|].
  destruct (fst (m _)); [exact C|].
  exists [c]. split; [reflexivity|exact C].
Qed.

Lemma emits_renderProfitChart (profit : ProfitCurve) :
  emits [CallProfitChart profit]
    (renderProfitChart profit : Stmt _).
Proof. unfold renderProfitChart. apply emits_render. frame. Qed.

(** *** Statements that complete *)

Lemma completes_ret {A} (ids : list string) (a : A) : completes ids (ret a : Stmt A).
Proof. intros st Hst. split; [now exists a|exact Hst]. Qed.

Lemma completes_bind {A B} (ids : list string) (m : Stmt A) (k : A -> Stmt B) :
  completes ids m -> (forall a, completes ids (k a)) -> completes ids (bind m k).
Proof.
  intros Hm Hk st Hst. unfold bind. destruct (Hm st Hst) as [[a Ha] Hst1].
  destruct (m st) as [c st1]. simpl in *. subst c. now apply Hk.
Qed.

Lemma completes_modify (ids : list string) (f : PageState -> PageState) :
  (forall st, document (f st) = document st) -> completes ids (modify f).
Proof.
  intros Hdoc st Hst. split; [now exists tt|].
  intros id Hid. simpl. rewrite Hdoc. now apply Hst.
Qed.

Lemma completes_setContent (ids : list string) (id s : string) :
  In id ids -> completes ids (setContent id s : Stmt unit).
Proof.
  intros Hin st Hst. rewrite setContent_run.
  destruct (Hst id Hin) as [c Hc]. rewrite Hc. split; [now exists tt|].
  intros id' Hid'. simpl. apply lookup_insert_is_Some.
  destruct (decide (id = id')); [now left|right; split; [assumption|now apply Hst]].
Qed.

Lemma completes_assign (ids : list string) (ws : list (string * string)) :
  (forall id, In id (List.map fst ws) -> In id ids) -> completes ids (assign ws : Stmt unit).
Proof.
  induction ws as [|[id s] ws IH]; intros Hin; simpl.
  - apply completes_ret.
  - apply completes_bind.
    + apply completes_setContent, Hin. now left.
    + intros _. apply IH. intros id' Hid'. apply Hin. now right.
Qed.

Lemma completes_perform (ids : list string) (w : Writes) :
  snd w = None ->
  (forall id, In id (List.map fst (fst w)) -> In id ids) ->
  completes ids (perform w : Stmt unit).
Proof.
  intros Hnone Hin. unfold perform. rewrite Hnone.
  apply completes_bind; [now apply completes_assign|].
  intros _. apply completes_ret.
Qed.

Lemma completes_called (ids : list string) (c : RenderCall Stats Position Trade) :
  completes ids (called c).
Proof. apply completes_modify. reflexivity. Qed.

Lemma completes_getElementById {B} (ids : list string) (id : string)
    (k : option string -> Stmt B) :
  (forall st : PageState,
     hasElements ids st ->
     (exists b, fst (k (document st !! id) st) = Normal b)
     /\ hasElements ids (snd (k (document st !! id) st))) ->
  completes ids (bind (getElementById id) k).
Proof. intros Hk st Hst. exact (Hk st Hst). Qed.

Lemma completes_chart (ids : list string) (legend : string)
    (xData : list string) (yData baseLine : list number) :
  In "chart-legend" ids ->
  completes ids
    (bind (charted (EchartsInit "profit_chart"))
       (fun _ => bind (setContent "chart-legend" legend)
          (fun _ => bind (charted (SetOption xData yData baseLine))
             (fun _ => charted ResizeListener))) : Stmt unit).
Proof.
  intros Hin.
  repeat first [ apply completes_bind; [|intros _]
               | apply completes_modify; reflexivity
               | now apply completes_setContent ].
Qed.

Lemma completes_renderProfitChart (ids : list string) (profit : ProfitCurve) :
  In "chart-legend" ids -> completes ids (renderProfitChart profit : Stmt unit).
Proof.
  intros Hin. unfold renderProfitChart.
  apply completes_bind; [apply completes_called|]. intros _.
  apply completes_getElementById. intros st Hst.
  destruct (document st !! "profit_chart") as [c|] eqn:Hc;
    [|exact (completes_ret ids tt st Hst)].
  destruct (length (default [] (data profit)) =? 0)%nat.
  - rewrite setContent_run, Hc. split; [now exists tt|].
    intros id' Hid'. simpl. apply lookup_insert_is_Some.
    destruct (decide ("profit_chart" = id'));
      [now left|right; split; [assumption|now apply Hst]].
  - destruct (chartSeries _ _) as [[xData yData] baseLine].
    now apply completes_chart.
Qed.

(** The statements of the handler after its first line. *)
Lemma emits_loadDashboard_then (stats : Stats) (profit : ProfitCurve)
    (positionsData : PositionsResponse Position) (trades : TradePage Trade) :
  exists rest,
    loadDashboard_then dashboardStats positionsTable tradesTable
      stats profit positionsData trades
    = bind (consoleLog "Data:") (fun _ => rest)
    /\ emits [CallDashboardStats stats profit; CallProfitChart profit;
              CallPositionsTable positionsData; CallTradesTable trades] rest
    /\ (snd (dashboardStats stats profit) = None ->
        snd (positionsTable positionsData) = None ->
        snd (tradesTable trades) = None ->
        completes
          (handlerElements dashboardStats positionsTable tradesTable
             stats profit positionsData trades) rest).
Proof.
  eexists. split; [reflexivity|]. split.
  - pose proof trace_perform.
    apply (emits_bind [CallDashboardStats stats profit]
             [CallProfitChart profit; CallPositionsTable positionsData;
              CallTradesTable trades]);
      [apply emits_render; frame|intros _].
    apply (emits_bind [CallProfitChart profit]
             [CallPositionsTable positionsData; CallTradesTable trades]);
      [apply emits_renderProfitChart|intros _].
    apply (emits_bind [CallPositionsTable positionsData] [CallTradesTable trades]);
      [apply emits_render; frame|intros _].
    apply (emits_bind [CallTradesTable trades] []);
      [apply emits_render; frame|intros _].
    apply emits_quiet. frame.
  - intros Hstats Hpositions Htrades. unfold handlerElements.
    unfold renderDashboardStats, renderPositionsTable, renderTradesTable.
    repeat first
      [ apply completes_perform; [assumption|intros id Hid]
      | apply completes_renderProfitChart
      | apply completes_called
      | apply completes_setContent
      | apply completes_bind; [|intros _] ];
      rewrite !List.in_app_iff; simpl; tauto.
Qed.

(** The reason [Promise.all] is rejected with is the reason of one of
    the rejected requests, and of the first to settle if that one is
    rejected. *)
Lemma firstRejection_spec (reasons : list (option Error)) (order : list nat) :
  (exists e, In (Some e) reasons) ->
  exists e,
    head (omap (fun i => mjoin (reasons !! i)) (order ++ seq 0 (length reasons))) = Some e
    /\ In (Some e) reasons.
Proof.
  intros [e0 He0].
  set (f := fun i : nat => mjoin (reasons !! i)).
  assert (Hall : forall (l : list nat) e, e ∈ omap f l -> In (Some e) reasons).
  { intros l e He. apply list_elem_of_omap in He. destruct He as (i & _ & Hi).
    unfold f in Hi. destruct (reasons !! i) as [[e'|]|] eqn:Hri; try discriminate.
    injection Hi as ->. apply list_elem_of_In. eapply list_elem_of_lookup_2. eassumption. }
  assert (Hne : e0 ∈ omap f (order ++ seq 0 (length reasons))).
  { apply list_elem_of_In, list_elem_of_lookup in He0. destruct He0 as [i Hi].
    apply list_elem_of_omap. exists i. split.
    - apply elem_of_app. right. apply elem_of_seq. apply lookup_lt_Some in Hi. lia.
    - unfold f. now rewrite Hi. }
  destruct (omap f (order ++ seq 0 (length reasons))) as [|e l] eqn:Hl.
  - now apply elem_of_nil in Hne.
  - exists e. split; [reflexivity|]. apply (Hall (order ++ seq 0 (length reasons))).
    rewrite Hl. now left.
Qed.

Lemma promiseAll4_rejected {A B C D} (order : list nat) (r1 : Outcome A) (r2 : Outcome B)
    (r3 : Outcome C) (r4 : Outcome D) :
  rejection r1 <> None \/ rejection r2 <> None \/ rejection r3 <> None
  \/ rejection r4 <> None ->
  exists e,
    promiseAll4 order r1 r2 r3 r4 = Rejected e
    /\ In (Some e) [rejection r1; rejection r2; rejection r3; rejection r4].
Proof.
  intros Hrej.
  destruct (firstRejection_spec [rejection r1; rejection r2; rejection r3; rejection r4] order)
    as (e & He & Hin).
  { destruct r1 as [v1|e1]; [|exists e1; simpl; tauto].
    destruct r2 as [v2|e2]; [|exists e2; simpl; tauto].
    destruct r3 as [v3|e3]; [|exists e3; simpl; tauto].
    destruct r4 as [v4|e4]; [|exists e4; simpl; tauto].
    simpl in Hrej. tauto. }
  exists e. split; [|exact Hin].
  change (seq 0 (length [rejection r1; rejection r2; rejection r3; rejection r4]))
    with [0; 1; 2; 3]%nat in He.
  destruct r1, r2, r3, r4; try (simpl in Hrej; tauto);
    exact (f_equal (fun o => Rejected (default "" o)) He).
Qed.

(** [loadDashboard] sends its four requests at once, the last one for
    the first page of ten trades.  When [Promise.all] is rejected, the
    reaction only logs the reason: no renderer is called and the
    document, the chart and the rest of the state are what they were.
    When it is fulfilled, one run of the handler calls the four
    renderers with the four results, in the order of the script; should
    one of them throw, the same [catch] logs it and the renderers after
    it are not called, and on a document with the elements they write
    to none does.  Nothing ever escapes to the top level. *)
Lemma loadDashboard_settled_cases (order : list nat) (r1 : Outcome Stats)
    (r2 : Outcome ProfitCurve)
    (r3 : Outcome (PositionsResponse Position)) (r4 : Outcome (TradePage Trade))
    (st : PageState) :
  let st0 := runTask loadDashboard_request st in
  let st' :=
    runTask (loadDashboard_settled dashboardStats positionsTable tradesTable order r1 r2 r3 r4) st in
  (network st0 = network st ++ ["/dashboard_stats"; "/profit_curve"; "/positions";
                                "/completed_trades?limit=10&page=1"]
   /\ document st0 = document st /\ calls st0 = calls st)
  /\ (isRejected r1 \/ isRejected r2 \/ isRejected r3 \/ isRejected r4 ->
      exists err,
        In (Some err) [rejection r1; rejection r2; rejection r3; rejection r4]
        /\ st' = setConsole (fun l => l ++ [LogError "loadDashboard error:" err]) st)
  /\ (forall stats profit positionsData trades,
        r1 = Fulfilled stats -> r2 = Fulfilled profit ->
        r3 = Fulfilled positionsData -> r4 = Fulfilled trades ->
        let rendered := [CallDashboardStats stats profit; CallProfitChart profit;
                         CallPositionsTable positionsData; CallTradesTable trades] in
        unhandled st' = unhandled st
        /\ (exists cs,
              calls st' = calls st ++ cs
              /\ cs `prefix_of` rendered
              /\ ((console st' = console st ++ [Log "Data:"] /\ cs = rendered)
                  \/ exists err,
                       console st' = console st ++ [Log "Data:";
                                                    LogError "loadDashboard error:" err]))
        /\ (snd (dashboardStats stats profit) = None ->
            snd (positionsTable positionsData) = None ->
            snd (tradesTable trades) = None ->
            hasElements
              (handlerElements dashboardStats positionsTable tradesTable
                 stats profit positionsData trades) st ->
            console st' = console st ++ [Log "Data:"]
            /\ calls st' = calls st ++ rendered)).
Proof.
  simpl. split; [|split].
  - repeat split. simpl. now rewrite <- !List.app_assoc.
  - intros Hrej.
    destruct (promiseAll4_rejected order r1 r2 r3 r4) as (e & Hall & Hin).
    { destruct r1, r2, r3, r4; simpl in *; intuition discriminate. }
    exists e. split; [exact Hin|].
    unfold loadDashboard_settled. now rewrite Hall.
  - intros stats profit positionsData trades -> -> -> ->.
    unfold loadDashboard_settled. simpl promiseAll4. cbv iota beta.
    rewrite runTask_catch_log.
    destruct (emits_loadDashboard_then stats profit positionsData trades)
      as (rest & -> & Hrest & Hcompletes).
    set (st1 := setConsole (fun l => l ++ [Log "Data:"]) st).
    assert (Hrun : bind (consoleLog "Data:") (fun _ => rest) st = rest st1) by reflexivity.
    rewrite Hrun. specialize (Hrest st1).
    assert (Hnormal :
      snd (dashboardStats stats profit) = None ->
      snd (positionsTable positionsData) = None ->
      snd (tradesTable trades) = None ->
      hasElements
        (handlerElements dashboardStats positionsTable tradesTable
           stats profit positionsData trades) st ->
      exists a, fst (rest st1) = Normal a).
    { intros Hs Hp Ht Hst. apply (Hcompletes Hs Hp Ht st1). exact Hst. }
    destruct (rest st1) as [[a|e] st2]; simpl in Hrest; destruct Hrest as (L & U & C).
    + split; [exact U|]. split.
      * eexists. split; [exact C|]. split; [reflexivity|].
        left. split; [exact L|reflexivity].
      * intros _ _ _ _. split; [exact L|exact C].
    + destruct C as (cs & Hpre & C). simpl. split; [exact U|]. split.
      * exists cs. split; [exact C|]. split; [exact Hpre|].
        right. exists e. rewrite L. simpl. now rewrite <- List.app_assoc.
      * intros Hs Hp Ht Hst. destruct (Hnormal Hs Hp Ht Hst) as [a Ha]. discriminate.
Qed.


(** ** A trades page that fails to load *)

#[local] Instance nothingEscapes_preorder : PreOrder (A := PageState) nothingEscapes.
Proof.
  split.
  - intros st. reflexivity.
  - intros st1 st2 st3 U12 U23. unfold nothingEscapes in *. congruence.
Qed.

Lemma escapes_modify (f : PageState -> PageState) :
  (forall st, unhandled (f st) = unhandled st) -> relates nothingEscapes (modify f).
Proof. intros Hf st. apply Hf. Qed.

Lemma escapes_setContent (id s : string) :
  relates nothingEscapes (setContent id s : Stmt _).
Proof. intros st. rewrite setContent_run. now destruct (document st !! id). Qed.

Lemma escapes_getElementById (id : string) :
  relates nothingEscapes (getElementById id : Stmt _).
Proof. intros st. reflexivity. Qed.

#[local] Hint Resolve escapes_setContent escapes_getElementById : frame.
#[local] Hint Extern 1 (relates nothingEscapes (modify _)) =>
  apply escapes_modify; intros ?; reflexivity : frame.
#[local] Hint Extern 1 (relates nothingEscapes (consoleLog _)) =>
  apply escapes_modify; intros ?; reflexivity : frame.
#[local] Hint Extern 1 (relates nothingEscapes (consoleError _ _)) =>
  apply escapes_modify; intros ?; reflexivity : frame.
#[local] Hint Extern 1 (relates nothingEscapes (called _)) =>
  apply escapes_modify; intros ?; reflexivity : frame.
#[local] Hint Extern 1 (relates nothingEscapes (charted _)) =>
  apply escapes_modify; intros ?; reflexivity : frame.

Lemma escapes_assign (ws : list (string * string)) :
  relates nothingEscapes (assign ws : Stmt _).
Proof. induction ws as [|[id s] ws IH]; simpl; frame. Qed.

Lemma escapes_loadDashboard_settled (order : list nat) (r1 : Outcome Stats)
    (r2 : Outcome ProfitCurve)
    (r3 : Outcome (PositionsResponse Position)) (r4 : Outcome (TradePage Trade)) :
  relates nothingEscapes
    (loadDashboard_settled dashboardStats positionsTable tradesTable order r1 r2 r3 r4).
Proof.
  pose proof escapes_assign.
  unfold loadDashboard_settled, loadDashboard_then, renderDashboardStats,
    renderPositionsTable, renderTradesTable, renderProfitChart, perform.
  frame.
Qed.

Lemma escapes_loadAIDecisions_settled (r : Outcome DecisionsResponse) :
  relates nothingEscapes (loadAIDecisions_settled r : Stmt _).
Proof.
  unfold loadAIDecisions_settled, loadAIDecisions_then, selectDecision,
    renderDecisionList, renderDecisionDetail.
  frame.
Qed.

(** A reaction under [catch] with a handler that logs completes
    normally. *)
Lemma caught_completes (m : Stmt unit) (context : string) (st : PageState) :
  fst (catch m (fun err => consoleError context err) st) = Normal tt.
Proof. unfold catch. destruct (m st) as [[[]|e] st']; reflexivity. Qed.

Lemma runTask_normal (m : Stmt unit) (st : PageState) :
  fst (m st) = Normal tt -> runTask m st = snd (m st).
Proof. unfold runTask. destruct (m st) as [[a|e] st']; simpl; [reflexivity|discriminate]. Qed.

(** C7, at the trades pager.  The reactions of [loadDashboard] and of
    [loadAIDecisions] take every rejection and every exception of their
    handler: they complete normally and nothing reaches the top level.
    When the request of [loadTradesPage] fails, nothing takes the
    rejection: nothing is logged, the rejection reaches the top level,
    and [currentTradesPage] has moved to the page that failed to load. *)
Theorem loadTradesPage_rejection_unhandled (page : Z) (err : Error) (st : PageState) :
  1 <= page ->
  let st' := loadTradesPage tradesTable page (Rejected err) st in
  (unhandled st' = unhandled st ++ [err]
   /\ console st' = console st
   /\ document st' = document st
   /\ currentTradesPage st' = page
   /\ network st' = network st ++ ["/completed_trades?limit=10&page=" +:+ pretty page])
  /\ (forall order r1 r2 r3 r4,
        unhandled
          (runTask
             (loadDashboard_settled dashboardStats positionsTable tradesTable order r1 r2 r3 r4)
             st)
        = unhandled st)
  /\ (forall r, unhandled (runTask (loadAIDecisions_settled r) st) = unhandled st)
  /\ console (runTask (loadAIDecisions_settled (Rejected err)) st)
     = console st ++ [LogError "loadAIDecisions error:" err].
Proof.
  intros Hpage. split; [|split; [|split]].
  - unfold loadTradesPage, loadTradesPage_request.
    replace (page <? 1) with false by (symmetry; apply Z.ltb_ge; lia).
    simpl. repeat split.
  - intros order r1 r2 r3 r4. rewrite runTask_normal.
    + apply escapes_loadDashboard_settled.
    + unfold loadDashboard_settled.
      destruct (promiseAll4 order r1 r2 r3 r4) as [[[[stats profit] positionsData] trades]|e];
        [apply caught_completes|reflexivity].
  - intros r. rewrite runTask_normal.
    + apply escapes_loadAIDecisions_settled.
    + destruct r as [response|e]; [apply caught_completes|reflexivity].
  - reflexivity.
Qed.

(** ** Selecting a decision of the list *)

Lemma decisionItems_selected (ds : list Decision) (index : nat) :
  decisionItems 0 ds (Z.of_nat index)
  = foldr String.append "" (imap (fun j d => decisionItem j d (j =? index)%nat) ds).
Proof.
  rewrite decisionItems_items. f_equal. apply imap_ext. intros j d _. simpl.
  f_equal. destruct (Nat.eqb_spec j index) as [->|Hne].
  - apply Z.eqb_refl.
  - apply Z.eqb_neq. lia.
Qed.

Lemma selectDecision_object (index : nat) (obj : Decision) (st : PageState) :
  is_Some (document st !! "decision-list") ->
  is_Some (document st !! "decision-detail") ->
  currentDecisions st !! index = Some obj ->
  exists st',
    selectDecision (Z.of_nat index) st = (Normal tt, st')
    /\ selectedDecisionIndex st' = Z.of_nat index
    /\ currentDecisions st' = <[index := fst (sortSignals obj)]> (currentDecisions st)
    /\ document st' !! "decision-list"
       = Some (foldr String.append ""
                 (imap (fun j d => decisionItem j d (j =? index)%nat) (currentDecisions st)))
    /\ document st' !! "decision-detail"
       = Some (decisionDetail (fst (sortSignals obj)) (snd (sortSignals obj)))
    /\ (forall id, id <> "decision-list" -> id <> "decision-detail" ->
          document st' !! id = document st !! id)
    /\ calls st' = calls st ++ [CallDecisionList; CallDecisionDetail (Some index)]
    /\ network st' = network st
    /\ console st' = console st.
Proof.
  intros [l Hl] [p Hp] Hobj.
  assert (Hlen : (index < length (currentDecisions st))%nat)
    by (eapply lookup_lt_Some; eassumption).
  unfold selectDecision, bind, modify, get.
  rewrite renderDecisionList_run. simpl. rewrite Hl. simpl.
  rewrite decisionAt_in by assumption.
  erewrite renderDecisionDetail_object by (simpl; eassumption). simpl.
  rewrite lookup_insert_ne by discriminate. rewrite Hp.
  eexists. split; [reflexivity|]. simpl.
  repeat split.
  - rewrite lookup_insert_ne by discriminate. rewrite lookup_insert_eq.
    destruct (currentDecisions st) as [|d ds] eqn:Hds; [simpl in Hlen; lia|].
    simpl length. simpl Nat.eqb. cbv iota. now rewrite decisionItems_selected.
  - apply lookup_insert_eq.
  - intros id Hlist Hdetail. now rewrite !lookup_insert_ne by congruence.
  - now rewrite <- List.app_assoc.
Qed.

(** X14. On a page with the list and the detail pane, [selectDecision]
    with an index of the loaded list stores the index, renders the list
    with the item of that index as the one marked [active] (its tag
    has [active] in the class attribute, the tag of every other item
    has nothing there), sorts the signals of the decision in the store
    and shows the decision in the detail pane.  No request goes out:
    the detail is drawn from what was loaded. *)
Theorem selectDecision_in_range (index : nat) (obj : Decision) (st : PageState) :
  is_Some (document st !! "decision-list") ->
  is_Some (document st !! "decision-detail") ->
  currentDecisions st !! index = Some obj ->
  exists st',
    selectDecision (Z.of_nat index) st = (Normal tt, st')
    /\ selectedDecisionIndex st' = Z.of_nat index
    /\ currentDecisions st' = <[index := fst (sortSignals obj)]> (currentDecisions st)
    /\ document st' !! "decision-list"
       = Some (foldr String.append ""
                 (imap (fun j d => decisionItem j d (j =? index)%nat) (currentDecisions st)))
    /\ document st' !! "decision-detail"
       = Some (decisionDetail (fst (sortSignals obj)) (snd (sortSignals obj)))
    /\ (forall id, id <> "decision-list" -> id <> "decision-detail" ->
          document st' !! id = document st !! id)
    /\ calls st' = calls st ++ [CallDecisionList; CallDecisionDetail (Some index)]
    /\ network st' = network st
    /\ console st' = console st
    /\ (forall j d,
          currentDecisions st !! j = Some d ->
          exists rest,
            decisionItem j d (j =? index)%nat
            = itemTag j (if (j =? index)%nat then "active" else "") +:+ rest).
Proof.
  intros Hlist Hdetail Hobj.
  destruct (selectDecision_object index obj st Hlist Hdetail Hobj)
    as (st' & Hrun & Hsel & Hlog & Hitems & Hpane & Hrest & Hcalls & Hnet & Hconsole).
  exists st'. repeat (split; [assumption|]).
  intros j d _. apply decisionItem_tag.
Qed.

(** ** What a loaded decision log shows *)

Lemma loadAIDecisions_then_run (response : DecisionsResponse) (st : PageState) (l s : string) :
  document st !! "ai-summary" = Some s ->
  document st !! "decision-list" = Some l ->
  let filtered :=
    List.filter (fun d => orZ (symbols_count d) 0 >? 0) (default [] (decisions response)) in
  let total := orZ (decisions_total response) 0 in
  let st1 :=
    setDocument
      (fun doc =>
         <["decision-list" :=
             if (length filtered =? 0)%nat then noDecisions
             else decisionItems 0 filtered (selectedDecisionIndex st)]>
           (<["ai-summary" :=
                "共 " +:+ pretty total +:+ " 条 · 已执行 " +:+ pretty total +:+ " 轮决策"]> doc))
      (setCalls (fun c => c ++ [CallDecisionList])
         (setCurrentDecisions (fun _ => filtered) st)) in
  loadAIDecisions_then response st
  = if (0 <? length filtered)%nat then selectDecision 0 st1 else (Normal tt, st1).
Proof.
  intros Hs Hl. cbv zeta. unfold loadAIDecisions_then.
  set (filtered := List.filter _ _).
  rewrite (bind_normal _ _ st (setCurrentDecisions (fun _ => filtered) st) tt) by reflexivity.
  erewrite bind_normal by (rewrite setContent_run; simpl; rewrite Hs; reflexivity).
  erewrite bind_normal
    by (rewrite renderDecisionList_run; simpl;
        rewrite lookup_insert_ne by discriminate; rewrite Hl; reflexivity).
  erewrite bind_normal by reflexivity.
  cbn [currentDecisions setDocument setCalls setCurrentDecisions].
  destruct (0 <? length filtered)%nat; reflexivity.
Qed.


(** X16. When a response has a round that is not empty, the reaction of
    [loadAIDecisions] on a page with the decision panes keeps the
    rounds that are not empty, selects the first of them and shows it
    in the detail pane, with its signals sorted in the store.  The
    summary line prints the total the response carries, which counts
    the empty rounds the list leaves out; the list is rendered twice. *)
Theorem loadAIDecisions_shows_first (response : DecisionsResponse) (d : Decision)
    (ds : list Decision) (st : PageState) :
  decisionPanes (document st) ->
  List.filter (fun d => orZ (symbols_count d) 0 >? 0) (default [] (decisions response))
  = d :: ds ->
  exists st',
    loadAIDecisions_settled (Fulfilled response) st = (Normal tt, st')
    /\ currentDecisions st' = fst (sortSignals d) :: ds
    /\ selectedDecisionIndex st' = 0
    /\ document st' !! "decision-list"
       = Some (foldr String.append ""
                 (imap (fun j d => decisionItem j d (j =? 0)%nat) (d :: ds)))
    /\ document st' !! "decision-detail"
       = Some (decisionDetail (fst (sortSignals d)) (snd (sortSignals d)))
    /\ document st' !! "ai-summary"
       = Some ("共 " +:+ pretty (orZ (decisions_total response) 0) +:+ " 条 · 已执行 "
               +:+ pretty (orZ (decisions_total response) 0) +:+ " 轮决策")
    /\ calls st' = calls st ++ [CallDecisionList; CallDecisionList; CallDecisionDetail (Some 0%nat)]
    /\ console st' = console st.
Proof.
  intros ([s Hs] & [l Hl] & [p Hp]) Hfiltered.
  unfold loadAIDecisions_settled, catch.
  rewrite (loadAIDecisions_then_run response st l s Hs Hl). cbv zeta.
  rewrite Hfiltered. simpl length. simpl Nat.ltb. cbv iota.
  match goal with
  | |- context [selectDecision 0 ?st1] =>
      destruct (selectDecision_object 0 d st1) as (st' & Hrun & Hsel & Hlog & Hlist & Hdetail & Hrest & Hcalls & _ & Hconsole)
  end.
  - simpl. rewrite lookup_insert_eq. eauto.
  - simpl. rewrite !lookup_insert_ne by discriminate. rewrite Hp. eauto.
  - reflexivity.
  - change (Z.of_nat 0) with 0 in Hrun. rewrite Hrun.
    exists st'. split; [reflexivity|]. simpl in *.
    split; [exact Hlog|]. split; [exact Hsel|]. split; [exact Hlist|].
    split; [exact Hdetail|]. split; [|split].
    + rewrite Hrest by discriminate.
      rewrite lookup_insert_ne by discriminate. apply lookup_insert_eq.
    + rewrite Hcalls. now rewrite <- List.app_assoc.
    + exact Hconsole.
Qed.

(** ** The requests of the page *)

#[local] Instance sameNetwork_preorder : PreOrder (A := PageState) sameNetwork.
Proof.
  split.
  - intros st. reflexivity.
  - intros st1 st2 st3 N12 N23. unfold sameNetwork in *. congruence.
Qed.

Lemma network_modify (f : PageState -> PageState) :
  (forall st, network (f st) = network st) -> relates sameNetwork (modify f).
Proof. intros Hf st. apply Hf. Qed.

Lemma network_setContent (id s : string) :
  relates sameNetwork (setContent id s : Stmt _).
Proof. intros st. rewrite setContent_run. now destruct (document st !! id). Qed.

Lemma network_getElementById (id : string) :
  relates sameNetwork (getElementById id : Stmt _).
Proof. intros st. reflexivity. Qed.

#[local] Hint Resolve network_setContent network_getElementById : frame.
#[local] Hint Extern 1 (relates sameNetwork (modify _)) =>
  apply network_modify; intros ?; reflexivity : frame.
#[local] Hint Extern 1 (relates sameNetwork (consoleLog _)) =>
  apply network_modify; intros ?; reflexivity : frame.
#[local] Hint Extern 1 (relates sameNetwork (consoleError _ _)) =>
  apply network_modify; intros ?; reflexivity : frame.
#[local] Hint Extern 1 (relates sameNetwork (called _)) =>
  apply network_modify; intros ?; reflexivity : frame.
#[local] Hint Extern 1 (relates sameNetwork (charted _)) =>
  apply network_modify; intros ?; reflexivity : frame.

Lemma network_assign (ws : list (string * string)) :
  relates sameNetwork (assign ws : Stmt _).
Proof. induction ws as [|[id s] ws IH]; simpl; frame. Qed.

Lemma network_loadDashboard_settled (order : list nat) (r1 : Outcome Stats)
    (r2 : Outcome ProfitCurve)
    (r3 : Outcome (PositionsResponse Position)) (r4 : Outcome (TradePage Trade)) :
  relates sameNetwork
    (loadDashboard_settled dashboardStats positionsTable tradesTable order r1 r2 r3 r4).
Proof.
  pose proof network_assign.
  unfold loadDashboard_settled, loadDashboard_then, renderDashboardStats,
    renderPositionsTable, renderTradesTable, renderProfitChart, perform.
  frame.
Qed.

Lemma network_loadTradesPage_settled (r : Outcome (TradePage Trade)) :
  relates sameNetwork (loadTradesPage_settled tradesTable r : Stmt _).
Proof.
  pose proof network_assign.
  unfold loadTradesPage_settled, renderTradesTable, perform. frame.
Qed.

Lemma network_selectDecision (index : Z) :
  relates sameNetwork (selectDecision index : Stmt _).
Proof. unfold selectDecision, renderDecisionList, renderDecisionDetail. frame. Qed.

Lemma network_loadAIDecisions_settled (r : Outcome DecisionsResponse) :
  relates sameNetwork (loadAIDecisions_settled r : Stmt _).
Proof.
  unfold loadAIDecisions_settled, loadAIDecisions_then, selectDecision,
    renderDecisionList, renderDecisionDetail.
  frame.
Qed.

Lemma sameNetwork_runTask (m : Stmt unit) (st : PageState) :
  relates sameNetwork m -> network (runTask m st) = network st.
Proof.
  intros Hm. apply (runTask_relates sameNetwork); [exact Hm|]. intros st1 e. reflexivity.
Qed.

(** X17. Requests go out when a page is opened and when a pager button
    asks for a page from 1 on, and at no other time: the reaction to a
    response, fulfilled or rejected, whatever it renders and whether or
    not it throws, sends nothing (no flow retries or chains a request),
    and neither does selecting a decision. *)
Theorem requests_of_task (e : Event) (st : PageState) :
  network (runTask (task dashboardStats positionsTable tradesTable e) st)
  = network st ++ requests e st.
Proof.
  destruct e as [|order r1 r2 r3 r4|page|r| |r|index]; cbn [task requests].
  - simpl. now rewrite <- !List.app_assoc.
  - rewrite List.app_nil_r. apply sameNetwork_runTask, network_loadDashboard_settled.
  - unfold runTask, bind, loadTradesPage_request.
    destruct (page <? 1); simpl; [now rewrite List.app_nil_r|reflexivity].
  - rewrite List.app_nil_r. apply sameNetwork_runTask, network_loadTradesPage_settled.
  - unfold runTask, loadAIDecisions_request, bind, getElementById, fetch, modify. simpl.
    now destruct (document st !! "ai-limit").
  - rewrite List.app_nil_r. apply sameNetwork_runTask, network_loadAIDecisions_settled.
  - rewrite List.app_nil_r. apply sameNetwork_runTask, network_selectDecision.
Qed.

(** ** Empty rounds never enter the log *)

Lemma sortedVersion_symbols_count (d d' : Decision) :
  sortedVersion d d' -> symbols_count d' = symbols_count d.
Proof.
  intros [->| ->]; [reflexivity|]. unfold sortSignals. now destruct (signals d).
Qed.

Lemma decisionsKept_counts (st st' : PageState) :
  decisionsKept st st' ->
  Forall (fun d => 0 < orZ (symbols_count d) 0) (currentDecisions st) ->
  Forall (fun d => 0 < orZ (symbols_count d) 0) (currentDecisions st').
Proof.
  intros [D _] Hall. eapply Forall2_Forall_r; [exact D|].
  eapply List.Forall_impl; [|exact Hall].
  intros d Hd d' Hdd'. now rewrite (sortedVersion_symbols_count d d' Hdd').
Qed.

(** X18. In every state the page gets to, every decision of the log has
    a positive [symbols_count]: the filter of [loadAIDecisions] is the
    only way into the log, and the other flows, the clicks on the list
    and the sort of the detail pane leave the counts alone. *)
Theorem reachable_no_empty_round (st : PageState) :
  reachable dashboardStats positionsTable tradesTable st ->
  Forall (fun d => 0 < orZ (symbols_count d) 0) (currentDecisions st).
Proof.
  induction 1 as [doc Hdoc|st e Hreach IH Hen]; [constructor|].
  assert (Hsame : forall m : Stmt unit,
            relates sameDecisions m ->
            Forall (fun d => 0 < orZ (symbols_count d) 0)
              (currentDecisions (runTask m st))).
  { intros m Hm. destruct (sameDecisions_runTask m st Hm) as (D & _ & _).
    now rewrite D. }
  destruct e as [|order r1 r2 r3 r4|page|r| |r|index]; cbn [task enabled] in *.
  - apply Hsame, same_loadDashboard_request.
  - apply Hsame, same_loadDashboard_settled.
  - apply Hsame. pose proof (same_loadTradesPage_request page). frame.
  - apply Hsame, same_loadTradesPage_settled.
  - apply Hsame, same_loadAIDecisions_request.
  - destruct r as [response|err].
    + eapply Forall2_Forall_r; [apply loadAIDecisions_settled_log|].
      apply List.Forall_forall. intros d Hd d' Hdd'.
      apply List.filter_In in Hd. destruct Hd as [_ Hpos]. apply Z.gtb_lt in Hpos.
      now rewrite (sortedVersion_symbols_count d d' Hdd').
    + apply Hsame. unfold loadAIDecisions_settled. frame.
  - destruct (runTask_fields (selectDecision (Z.of_nat index)) st) as (Hd & _ & _).
    rewrite Hd. eapply decisionsKept_counts; [|exact IH].
    apply selectDecision_stores.
Qed.

(** ** Assignments to the document *)

Lemma written_keeps (ws : list (string * string)) (doc : gmap string string) (id : string) :
  is_Some (doc !! id) -> is_Some (written ws doc !! id).
Proof.
  revert doc. induction ws as [|[id' s] ws IH]; intros doc Hid; [exact Hid|].
  apply IH. simpl. apply lookup_insert_is_Some.
  destruct (decide (id' = id)); auto.
Qed.

Lemma written_other (ws : list (string * string)) (doc : gmap string string) (id : string) :
  ~ In id (List.map fst ws) -> written ws doc !! id = doc !! id.
Proof.
  revert doc. induction ws as [|[id' s] ws IH]; intros doc Hid; [reflexivity|].
  simpl in Hid. unfold written. simpl. fold (written ws (<[id' := s]> doc)).
  rewrite IH by tauto. apply lookup_insert_ne. tauto.
Qed.

Lemma assign_run (ws : list (string * string)) (st : PageState) :
  hasElements (List.map fst ws) st ->
  assign ws st = (Normal tt, setDocument (written ws) st).
Proof.
  revert st. induction ws as [|[id s] ws IH]; intros st Hst.
  - destruct st. reflexivity.
  - simpl. unfold bind. rewrite setContent_run.
    destruct (Hst id) as [c Hc]; [now left|]. simpl in Hc. rewrite Hc.
    rewrite IH; [reflexivity|].
    intros id' Hid'. simpl. apply lookup_insert_is_Some.
    destruct (decide (id = id')); [now left|].
    right. split; [assumption|]. apply Hst. now right.
Qed.

Lemma perform_run (w : Writes) (st : PageState) :
  snd w = None ->
  hasElements (List.map fst (fst w)) st ->
  perform w st = (Normal tt, setDocument (written (fst w)) st).
Proof.
  intros Hnone Hst. unfold perform, bind. rewrite assign_run by assumption.
  now rewrite Hnone.
Qed.

Lemma bind_throw {A B} (m : Stmt A) (k : A -> Stmt B) (st st' : PageState) (e : Error) :
  m st = (Throw e, st') -> bind m k st = (Throw e, st').
Proof. intros Hm. unfold bind. now rewrite Hm. Qed.

(** ** The chart *)


Lemma renderProfitChart_no_legend (profit : ProfitCurve) (st : PageState) :
  is_Some (document st !! "profit_chart") ->
  document st !! "chart-legend" = None ->
  default [] (data profit) <> [] ->
  renderProfitChart profit st
  = (Throw nullError,
     setChart (fun l => l ++ [EchartsInit "profit_chart"])
       (setCalls (fun l => l ++ [CallProfitChart profit]) st)).
Proof.
  intros [c Hc] Hlegend Hpoints.
  unfold renderProfitChart, bind, called, charted, modify, getElementById. simpl.
  rewrite Hc. destruct (default [] (data profit)) as [|p points]; [congruence|].
  destruct (chartSeries _ _) as [[xData yData] baseLine].
  cbn [length Nat.eqb]. cbv beta iota. rewrite setContent_run.
  cbn [document setChart setCalls]. now rewrite Hlegend.
Qed.

(** X20. On a page that has the chart element but not its legend, a
    dashboard load with a curve to draw stops at the chart: the cards
    are written, a chart is initialised and never given its data, the
    exception of the missing legend is logged by the flow, and the
    positions table, the trades table, the two counts and the subtitle
    are left as they were. *)
Theorem loadDashboard_stops_at_chart (order : list nat) (stats : Stats) (profit : ProfitCurve)
    (positionsData : PositionsResponse Position) (trades : TradePage Trade)
    (st : PageState) :
  snd (dashboardStats stats profit) = None ->
  hasElements (List.map fst (fst (dashboardStats stats profit))) st ->
  is_Some (document st !! "profit_chart") ->
  document st !! "chart-legend" = None ->
  default [] (data profit) <> [] ->
  let st' :=
    runTask
      (loadDashboard_settled dashboardStats positionsTable tradesTable order
         (Fulfilled stats) (Fulfilled profit) (Fulfilled positionsData) (Fulfilled trades))
      st in
  console st' = console st ++ [Log "Data:"; LogError "loadDashboard error:" nullError]
  /\ calls st' = calls st ++ [CallDashboardStats stats profit; CallProfitChart profit]
  /\ chart st' = chart st ++ [EchartsInit "profit_chart"]
  /\ document st' = written (fst (dashboardStats stats profit)) (document st)
  /\ unhandled st' = unhandled st.
Proof.
  intros Hnone Hst Hchart Hlegend Hpoints. cbv zeta.
  unfold loadDashboard_settled. simpl promiseAll4. cbv iota beta.
  rewrite runTask_catch_log. unfold loadDashboard_then.
  erewrite bind_normal by reflexivity.
  erewrite bind_normal; cycle 1.
  { unfold renderDashboardStats. erewrite bind_normal by reflexivity.
    apply perform_run; [exact Hnone|exact Hst]. }
  erewrite bind_throw; cycle 1.
  { apply renderProfitChart_no_legend; [|simpl|exact Hpoints].
    - simpl. now apply written_keeps.
    - rewrite written_other; [exact Hlegend|].
      intros Hin. destruct (Hst _ Hin) as [c Hc]. congruence. }
  simpl. repeat split; now rewrite <- !List.app_assoc.
Qed.

Lemma renderProfitChart_frame (profit : ProfitCurve) (st : PageState) :
  is_Some (document st !! "chart-legend") ->
  exists st',
    renderProfitChart profit st = (Normal tt, st')
    /\ console st' = console st
    /\ keepsElements st st'
    /\ (forall id, id <> "profit_chart" -> id <> "chart-legend" ->
          document st' !! id = document st !! id).
Proof.
  intros [legend Hlegend].
  unfold renderProfitChart, bind, called, charted, modify, getElementById. simpl.
  destruct (document st !! "profit_chart") as [c|] eqn:Hc.
  - destruct (length (default [] (data profit)) =? 0)%nat.
    + rewrite setContent_run. simpl. rewrite Hc.
      eexists. split; [reflexivity|]. simpl. repeat split.
      * eapply keepsElements_insert; [rewrite Hc; eauto|reflexivity].
      * intros id Hid _. now rewrite lookup_insert_ne by congruence.
    + destruct (chartSeries _ _) as [[xData yData] baseLine].
      rewrite setContent_run. cbn [document setChart setCalls]. rewrite Hlegend.
      eexists. split; [reflexivity|]. simpl. repeat split.
      * eapply keepsElements_insert; [rewrite Hlegend; eauto|reflexivity].
      * intros id _ Hid. now rewrite lookup_insert_ne by congruence.
  - eexists. split; [reflexivity|]. simpl. repeat split.
    now apply keepsElements_same.
Qed.

(** ** What a completed load leaves in the document *)

(** The handler of [loadDashboard], statement by statement, when none
    of the renderers throws: [doc] is the document as the chart
    renderer leaves it. *)
Lemma loadDashboard_then_run (stats : Stats) (profit : ProfitCurve)
    (positionsData : PositionsResponse Position) (trades : TradePage Trade)
    (st : PageState) :
  snd (dashboardStats stats profit) = None ->
  snd (positionsTable positionsData) = None ->
  snd (tradesTable trades) = None ->
  hasElements
    (handlerElements dashboardStats positionsTable tradesTable
       stats profit positionsData trades) st ->
  exists st' doc,
    loadDashboard_then dashboardStats positionsTable tradesTable
      stats profit positionsData trades st = (Normal tt, st')
    /\ console st' = console st ++ [Log "Data:"]
    /\ (forall id, id <> "profit_chart" -> id <> "chart-legend" ->
          doc !! id = written (fst (dashboardStats stats profit)) (document st) !! id)
    /\ document st'
       = <["dashboard-subtitle" :=
             "Stats | Base: " +:+ toFixed (orQ (initial_equity profit) 0%Q) 2 +:+ " USDT"]>
           (<["trade-count" := pretty (orZ (trades_total trades) 0)]>
              (<["pos-count" := pretty (length (default [] (positions positionsData)))]>
                 (written (fst (tradesTable trades))
                    (written (fst (positionsTable positionsData)) doc)))).
Proof.
  intros Hstats Hpositions Htrades Hst.
  unfold handlerElements in Hst.
  assert (Hin : forall (ids : list string) (st0 : PageState),
            keepsElements st st0 ->
            (forall id, In id ids ->
               In id (List.map fst (fst (dashboardStats stats profit))
                      ++ List.map fst (fst (positionsTable positionsData))
                      ++ List.map fst (fst (tradesTable trades))
                      ++ ["chart-legend"; "pos-count"; "trade-count"; "dashboard-subtitle"])) ->
            hasElements ids st0).
  { intros ids st0 K Hsub id Hid. apply K, Hst, Hsub, Hid. }
  unfold loadDashboard_then.
  erewrite bind_normal by reflexivity.
  set (st1 := setConsole _ st).
  assert (K1 : keepsElements st st1) by (now apply keepsElements_same).
  erewrite bind_normal; cycle 1.
  { unfold renderDashboardStats. erewrite bind_normal by reflexivity.
    apply perform_run; [exact Hstats|].
    apply (Hin _ _ K1). intros id Hid. rewrite !List.in_app_iff. tauto. }
  set (st2 := setDocument _ _).
  assert (K2 : keepsElements st st2).
  { intros id Hid. unfold st2. simpl. now apply written_keeps. }
  destruct (renderProfitChart_frame profit st2) as (st3 & Hrun3 & L3 & K3 & D3).
  { apply K2, Hst. rewrite !List.in_app_iff. simpl. tauto. }
  erewrite bind_normal by exact Hrun3.
  assert (K03 : keepsElements st st3) by (etransitivity; eassumption).
  erewrite bind_normal; cycle 1.
  { unfold renderPositionsTable. erewrite bind_normal by reflexivity.
    apply perform_run; [exact Hpositions|].
    apply (Hin _ (setCalls _ st3)); [exact K03|].
    intros id Hid. rewrite !List.in_app_iff. tauto. }
  set (st4 := setDocument _ _).
  assert (K4 : keepsElements st st4).
  { intros id Hid. unfold st4. simpl. now apply written_keeps, K03. }
  erewrite bind_normal; cycle 1.
  { unfold renderTradesTable. erewrite bind_normal by reflexivity.
    apply perform_run; [exact Htrades|].
    apply (Hin _ (setCalls _ st4)); [exact K4|].
    intros id Hid. rewrite !List.in_app_iff. tauto. }
  set (st5 := setDocument _ _).
  assert (K5 : keepsElements st st5).
  { intros id Hid. unfold st5. simpl. now apply written_keeps, K4. }
  destruct (K5 "pos-count") as [c1 Hc1];
    [apply Hst; rewrite !List.in_app_iff; simpl; tauto|].
  destruct (K5 "trade-count") as [c2 Hc2];
    [apply Hst; rewrite !List.in_app_iff; simpl; tauto|].
  destruct (K5 "dashboard-subtitle") as [c3 Hc3];
    [apply Hst; rewrite !List.in_app_iff; simpl; tauto|].
  erewrite bind_normal by (rewrite setContent_run, Hc1; reflexivity).
  erewrite bind_normal
    by (rewrite setContent_run; simpl; rewrite lookup_insert_ne by discriminate;
        simpl in Hc2; rewrite Hc2; reflexivity).
  rewrite setContent_run. simpl. rewrite !lookup_insert_ne by discriminate.
  simpl in Hc3. rewrite Hc3.
  exists (setDocument
            (insert "dashboard-subtitle"
               ("Stats | Base: " +:+ toFixed (orQ (initial_equity profit) 0%Q) 2 +:+ " USDT"))
            (setDocument (insert "trade-count" (pretty (orZ (trades_total trades) 0)))
               (setDocument
                  (insert "pos-count" (pretty (length (default [] (positions positionsData)))))
                  st5))),
    (document st3).
  split; [reflexivity|]. split; [simpl; exact L3|]. split; [|reflexivity].
  intros id Hchart Hlegend. now rewrite D3.
Qed.

(** The reaction of [loadTradesPage] to a response, when the renderer
    does not throw. *)
Lemma loadTradesPage_settled_run (data : TradePage Trade) (st : PageState) :
  snd (tradesTable data) = None ->
  hasElements ("trade-count" :: List.map fst (fst (tradesTable data))) st ->
  loadTradesPage_settled tradesTable (Fulfilled data) st
  = (Normal tt,
     setDocument (insert "trade-count" (pretty (orZ (trades_total data) 0)))
       (setDocument (written (fst (tradesTable data)))
          (setCalls (fun l => l ++ [CallTradesTable data]) st))).
Proof.
  intros Hnone Hst. unfold loadTradesPage_settled.
  erewrite bind_normal; cycle 1.
  { unfold renderTradesTable. erewrite bind_normal by reflexivity.
    apply perform_run; [exact Hnone|].
    intros id Hid. simpl. apply Hst. now right. }
  rewrite setContent_run. simpl.
  destruct (written_keeps (fst (tradesTable data)) (document st) "trade-count") as [c Hc];
    [apply Hst; now left|].
  now rewrite Hc.
Qed.

Lemma loadTradesPage_request_run (page : Z) (st : PageState) :
  1 <= page ->
  loadTradesPage_request page st
  = (Normal true,
     setNetwork (fun l => l ++ ["/completed_trades?limit=10&page=" +:+ pretty page])
       (setCurrentTradesPage page st)).
Proof.
  intros Hpage. unfold loadTradesPage_request.
  replace (page <? 1) with false by (symmetry; apply Z.ltb_ge; lia).
  reflexivity.
Qed.

Lemma loadTradesPage_fulfilled (page : Z) (data : TradePage Trade) (st : PageState) :
  1 <= page ->
  snd (tradesTable data) = None ->
  hasElements ("trade-count" :: List.map fst (fst (tradesTable data))) st ->
  let st' := loadTradesPage tradesTable page (Fulfilled data) st in
  currentTradesPage st' = page
  /\ network st' = network st ++ ["/completed_trades?limit=10&page=" +:+ pretty page]
  /\ document st'
     = <["trade-count" := pretty (orZ (trades_total data) 0)]>
         (written (fst (tradesTable data)) (document st))
  /\ calls st' = calls st ++ [CallTradesTable data]
  /\ console st' = console st
  /\ unhandled st' = unhandled st.
Proof.
  intros Hpage Hnone Hst. cbv zeta.
  unfold loadTradesPage. rewrite loadTradesPage_request_run by assumption.
  unfold runTask. rewrite loadTradesPage_settled_run by assumption.
  repeat split.
Qed.

(** ** The stored page of trades *)

Lemma blind_ret {A} (a : A) : blind (ret a : Stmt A).
Proof. intros p st. reflexivity. Qed.

Lemma blind_throw {A} (e : Error) : blind (throw e : Stmt A).
Proof. intros p st. reflexivity. Qed.

Lemma blind_bind {A B} (m : Stmt A) (k : A -> Stmt B) :
  blind m -> (forall a, blind (k a)) -> blind (bind m k).
Proof.
  intros Hm Hk p st. unfold bind. rewrite Hm.
  destruct (m st) as [[a|e] st1]; simpl; [apply Hk|reflexivity].
Qed.

Lemma blind_catch (m : Stmt unit) (handler : Error -> Stmt unit) :
  blind m -> (forall e, blind (handler e)) -> blind (catch m handler).
Proof.
  intros Hm Hh p st. unfold catch. rewrite Hm.
  destruct (m st) as [[a|e] st1]; simpl; [reflexivity|apply Hh].
Qed.

(** What a statement reads of the state it gets does not include the
    stored page. *)
Lemma blind_get {B} (k : PageState -> Stmt B) :
  (forall s, blind (k s)) ->
  (forall p s, k (setCurrentTradesPage p s) = k s) ->
  blind (bind get k).
Proof. intros Hk Hread p st. unfold bind, get. rewrite Hread. apply Hk. Qed.

Lemma blind_modify (f : PageState -> PageState) :
  (forall p st, f (setCurrentTradesPage p st) = setCurrentTradesPage p (f st)) ->
  blind (modify f).
Proof. intros Hf p st. unfold modify. simpl. now rewrite Hf. Qed.

Lemma blind_setContent (id s : string) : blind (setContent id s : Stmt _).
Proof.
  intros p st. rewrite !setContent_run. simpl.
  now destruct (document st !! id).
Qed.

Lemma blind_getElementById (id : string) : blind (getElementById id : Stmt _).
Proof. intros p st. reflexivity. Qed.

Lemma blind_assign (ws : list (string * string)) : blind (assign ws : Stmt _).
Proof.
  induction ws as [|[id s] ws IH]; simpl; [apply blind_ret|].
  apply blind_bind; [apply blind_setContent|intros _; exact IH].
Qed.

Ltac blindly :=
  repeat first
    [ progress intros
    | match goal with
      | |- blind (ret _) => apply blind_ret
      | |- blind (throw _) => apply blind_throw
      | |- blind (setContent _ _) => apply blind_setContent
      | |- blind (getElementById _) => apply blind_getElementById
      | |- blind (assign _) => apply blind_assign
      | |- blind (modify _) => apply blind_modify; reflexivity
      | |- blind (bind get _) => apply blind_get; [|reflexivity]
      | |- blind (bind _ _) => apply blind_bind
      | |- blind (catch _ _) => apply blind_catch
      | |- blind (match ?x with _ => _ end) => destruct x
      end ].

Lemma blind_settled (e : Event) :
  (forall page, e <> PagerClicked page) ->
  blind (task dashboardStats positionsTable tradesTable e).
Proof.
  intros Hpager.
  destruct e as [|order r1 r2 r3 r4|page|r| |r|index]; cbn [task];
    [| | now contradiction (Hpager page) | | | |];
    unfold loadDashboard_request, loadDashboard_settled, loadDashboard_then,
      loadTradesPage_settled, loadAIDecisions_request, loadAIDecisions_settled,
      loadAIDecisions_then, selectDecision,
      renderDashboardStats, renderPositionsTable, renderTradesTable, renderProfitChart,
      renderDecisionList, renderDecisionDetail,
      perform, consoleLog, consoleError, fetch, called, charted;
    blindly.
Qed.

Lemma agreeButPage_set (st st' : PageState) :
  agreeButPage st st' -> st' = setCurrentTradesPage (currentTradesPage st') st.
Proof.
  destruct st, st'. unfold agreeButPage. simpl.
  intros (-> & -> & -> & -> & -> & -> & -> & ->). reflexivity.
Qed.

Lemma agreeButPage_runTask (m : Stmt unit) (st : PageState) (p : Z) :
  blind m ->
  runTask m (setCurrentTradesPage p st) = setCurrentTradesPage p (runTask m st).
Proof.
  intros Hm. unfold runTask. rewrite Hm.
  destruct (m st) as [[a|e] st1]; reflexivity.
Qed.

(** X26. [currentTradesPage] is written by [loadTradesPage] and read by
    nothing: from two states of the page that differ in it alone, a
    task leaves two states that differ in it alone (the same document,
    requests, log, chart, decision log and selection), and a pager
    click leaves the same state. *)
Theorem currentTradesPage_never_read (e : Event) (st1 st2 : PageState) :
  agreeButPage st1 st2 ->
  agreeButPage (runTask (task dashboardStats positionsTable tradesTable e) st1)
    (runTask (task dashboardStats positionsTable tradesTable e) st2)
  /\ (forall page, e = PagerClicked page -> 1 <= page ->
        runTask (task dashboardStats positionsTable tradesTable e) st1
        = runTask (task dashboardStats positionsTable tradesTable e) st2).
Proof.
  intros Hagree. rewrite (agreeButPage_set st1 st2 Hagree).
  set (p := currentTradesPage st2). clearbody p. clear Hagree st2.
  split.
  - destruct e as [|order r1 r2 r3 r4|page|r| |r|index].
    3: { cbn [task]. unfold runTask, bind, loadTradesPage_request.
         destruct (page <? 1); simpl; repeat split. }
    all: rewrite agreeButPage_runTask by (apply blind_settled; discriminate);
      repeat split.
  - intros page -> Hpage. cbn [task]. unfold runTask, bind.
    rewrite !loadTradesPage_request_run by assumption. reflexivity.
Qed.

End Properties.

(** * Further properties *)

(** ** Escaping *)

Lemma replaceAll_app (c : ascii) (r a b : string) :
  replaceAll c r (a +:+ b) = replaceAll c r a +:+ replaceAll c r b.
Proof.
  induction a as [|x a IH]; [reflexivity|]. simpl.
  destruct (Ascii.eqb x c); simpl; rewrite IH; [|reflexivity].
  now rewrite string_app_assoc.
Qed.

Lemma escapeChar_cases (c : ascii) :
  (c = "&"%char /\ escapeChar c = "&amp;")
  \/ (c = "<"%char /\ escapeChar c = "&lt;")
  \/ (c = ">"%char /\ escapeChar c = "&gt;")
  \/ (c <> "&"%char /\ c <> "<"%char /\ c <> ">"%char /\ escapeChar c = String c "").
Proof.
  unfold escapeChar.
  destruct (Ascii.eqb c "&") eqn:Ea; [apply Ascii.eqb_eq in Ea; auto|].
  destruct (Ascii.eqb c "<") eqn:El; [apply Ascii.eqb_eq in El; auto|].
  destruct (Ascii.eqb c ">") eqn:Eg; [apply Ascii.eqb_eq in Eg; auto 6|].
  apply Ascii.eqb_neq in Ea, El, Eg. auto 8.
Qed.

Lemma replaceAll_head (c : ascii) (r : string) (x : ascii) (s : string) :
  replaceAll c r (String x s)
  = replaceAll c r (String x "") +:+ replaceAll c r s.
Proof.
  cbn [replaceAll]. destruct (Ascii.eqb x c); [|reflexivity].
  now rewrite string_app_nil_r.
Qed.

Lemma three_passes_char (c : ascii) :
  replaceAll ">" "&gt;" (replaceAll "<" "&lt;" (replaceAll "&" "&amp;" (String c "")))
  = escapeChar c.
Proof.
  destruct (escapeChar_cases c) as [[-> ->]|[[-> ->]|[[-> ->]|(Ha & Hl & Hg & ->)]]];
    try reflexivity.
  apply Ascii.eqb_neq in Ha, Hl, Hg.
  cbn [replaceAll]. rewrite Ha. cbn [replaceAll]. rewrite Hl. cbn [replaceAll].
  now rewrite Hg.
Qed.

Lemma three_passes (s : string) :
  replaceAll ">" "&gt;" (replaceAll "<" "&lt;" (replaceAll "&" "&amp;" s)) = escapeEach s.
Proof.
  induction s as [|c s IH]; [reflexivity|].
  cbn [escapeEach].
  rewrite replaceAll_head, !replaceAll_app, IH. f_equal. apply three_passes_char.
Qed.

Lemma escapeHtml_escapeEach (s : string) : escapeHtml s = escapeEach s.
Proof.
  unfold escapeHtml. destruct s as [|c s]; [reflexivity|].
  cbn [String.eqb]. apply three_passes.
Qed.

Lemma escapeEach_app (a b : string) : escapeEach (a +:+ b) = escapeEach a +:+ escapeEach b.
Proof.
  induction a as [|c a IH]; [reflexivity|].
  change (escapeChar c +:+ escapeEach (a +:+ b)
          = (escapeChar c +:+ escapeEach a) +:+ escapeEach b).
  now rewrite IH, string_app_assoc.
Qed.

(** X1. [escapeHtml] replaces each character of its argument once: [&]
    by [&amp;], [<] by [&lt;], [>] by [&gt;], and any other character by
    itself.  The ampersands the first pass brings in are not escaped
    again by the passes after it.  So the escape of a text in two
    pieces is the escape of the one followed by the escape of the
    other. *)
Theorem escapeHtml_one_pass (s t : string) :
  escapeHtml s = escapeEach s
  /\ escapeHtml (s +:+ t) = escapeHtml s +:+ escapeHtml t.
Proof.
  split; [apply escapeHtml_escapeEach|].
  rewrite !escapeHtml_escapeEach. apply escapeEach_app.
Qed.

Lemma occurs_app (c : ascii) (a b : string) :
  occurs c (a +:+ b) = occurs c a || occurs c b.
Proof.
  induction a as [|x a IH]; [reflexivity|]. simpl. rewrite IH. apply orb_assoc.
Qed.

(** X2. The text [escapeHtml] returns has no [<] and no [>], whatever
    its argument, and every [&] in it starts one of the three
    entities. *)
Theorem escapeHtml_no_markup (s : string) :
  occurs "<" (escapeHtml s) = false
  /\ occurs ">" (escapeHtml s) = false
  /\ (forall before after,
        escapeHtml s = before +:+ String "&" after ->
        String.prefix "amp;" after = true \/ String.prefix "lt;" after = true
        \/ String.prefix "gt;" after = true).
Proof.
  rewrite escapeHtml_escapeEach.
  assert (Hno : forall c, (c = "<" \/ c = ">")%char -> occurs c (escapeEach s) = false).
  { intros c Hc. induction s as [|x s IH]; [reflexivity|].
    cbn [escapeEach]. rewrite occurs_app, IH, orb_false_r.
    destruct (escapeChar_cases x) as [[-> ->]|[[-> ->]|[[-> ->]|(Ha & Hl & Hg & ->)]]];
      try (destruct Hc as [->| ->]; reflexivity).
    simpl. rewrite orb_false_r. apply Ascii.eqb_neq. destruct Hc as [->| ->]; assumption. }
  split; [apply Hno; now left|]. split; [apply Hno; now right|].
  clear Hno. induction s as [|x s IH]; intros before after Heq.
  - destruct before; discriminate.
  - cbn [escapeEach] in Heq.
    destruct (escapeChar_cases x) as [[-> E]|[[-> E]|[[-> E]|(Ha & Hl & Hg & E)]]];
      rewrite E in Heq; clear E.
    + destruct before as [|b before]; simpl in Heq.
      * injection Heq as <-. left. simpl. now destruct (escapeEach s).
      * injection Heq as _ Heq.
        do 4 (destruct before as [|? before]; [discriminate|]; injection Heq as _ Heq).
        now apply (IH before after).
    + destruct before as [|b before]; simpl in Heq.
      * injection Heq as <-. right. left. simpl. now destruct (escapeEach s).
      * injection Heq as _ Heq.
        do 3 (destruct before as [|? before]; [discriminate|]; injection Heq as _ Heq).
        now apply (IH before after).
    + destruct before as [|b before]; simpl in Heq.
      * injection Heq as <-. right. right. simpl. now destruct (escapeEach s).
      * injection Heq as _ Heq.
        do 3 (destruct before as [|? before]; [discriminate|]; injection Heq as _ Heq).
        now apply (IH before after).
    + destruct before as [|b before]; simpl in Heq.
      * injection Heq as Hx _. congruence.
      * injection Heq as _ Heq. now apply (IH before after).
Qed.

Lemma escapeEach_injective (a b : string) : escapeEach a = escapeEach b -> a = b.
Proof.
  revert b. induction a as [|x a IH]; intros [|y b] Heq.
  - reflexivity.
  - cbn [escapeEach] in Heq.
    destruct (escapeChar_cases y) as [[-> _]|[[-> _]|[[-> _]|(_ & _ & _ & E)]]];
      try discriminate; rewrite E in Heq; discriminate.
  - cbn [escapeEach] in Heq.
    destruct (escapeChar_cases x) as [[-> _]|[[-> _]|[[-> _]|(_ & _ & _ & E)]]];
      try discriminate; rewrite E in Heq; discriminate.
  - cbn [escapeEach] in Heq.
    destruct (escapeChar_cases x) as [[-> _]|[[-> _]|[[-> _]|(Hxa & Hxl & Hxg & Ex)]]];
      destruct (escapeChar_cases y) as [[-> _]|[[-> _]|[[-> _]|(Hya & Hyl & Hyg & Ey)]]];
      rewrite ?Ex, ?Ey in Heq; simpl in Heq;
      try discriminate;
      try (injection Heq as Heq; f_equal; now apply IH);
      try (injection Heq as Hc _; congruence).
    injection Heq as -> Heq. f_equal. now apply IH.
Qed.

(** X3. [escapeHtml] loses nothing: two texts with the same escaped
    form are the same text. *)
Theorem escapeHtml_injective (a b : string) : escapeHtml a = escapeHtml b -> a = b.
Proof. rewrite !escapeHtml_escapeEach. apply escapeEach_injective. Qed.

Lemma escapeEach_length (s : string) : (String.length s <= String.length (escapeEach s))%nat.
Proof.
  induction s as [|c s IH]; [reflexivity|].
  cbn [escapeEach]. rewrite string_length_app. simpl.
  destruct (escapeChar_cases c) as [[_ ->]|[[_ ->]|[[_ ->]|(_ & _ & _ & ->)]]]; simpl; lia.
Qed.

(** X4. [escapeHtml] returns its argument as it is exactly when the
    argument has none of [&], [<] and [>]: every other character, the
    two kinds of quotes among them, goes through. *)
Theorem escapeHtml_plain_text (s : string) :
  escapeHtml s = s
  <-> occurs "&" s = false /\ occurs "<" s = false /\ occurs ">" s = false.
Proof.
  rewrite escapeHtml_escapeEach. induction s as [|c s IH]; [easy|].
  cbn [escapeEach occurs]. pose proof (escapeEach_length s) as Hlen.
  destruct (escapeChar_cases c) as [[-> ->]|[[-> ->]|[[-> ->]|(Ha & Hl & Hg & ->)]]].
  - split; [|intros [? _]; discriminate].
    simpl. intros Heq. injection Heq as Heq.
    apply (f_equal String.length) in Heq.
    rewrite string_length_app in Heq. simpl in Heq. lia.
  - split; [|intros (_ & ? & _); discriminate].
    simpl. intros Heq. discriminate Heq.
  - split; [|intros (_ & _ & ?); discriminate].
    simpl. intros Heq. discriminate Heq.
  - apply Ascii.eqb_neq in Ha, Hl, Hg. rewrite Ha, Hl, Hg.
    change (String c EmptyString +:+ escapeEach s) with (String c (escapeEach s)).
    cbn [orb]. rewrite <- IH. split; [intros [= Heq]; exact Heq|now intros ->].
Qed.

Section Cells.

Context `{Host}.

(** ** The cells of the decision detail *)

(** The badge classes as the two loops of [renderDecisionDetail] use
    them. *)
Lemma signalRow_rowBadge (s : Signal) :
  signalRow s
  = "<tr><td><b>" +:+ orText (symbol s) "-"
    +:+ markup "</b></td><td><span class=`badge " +:+ rowBadge s +:+ markup "`>"
    +:+ orText (action s) "wait"
    +:+ "</span></td><td>" +:+ firstTruthy [entry s] "-"
    +:+ "</td><td>"
    +:+ firstTruthy [position_size s; quantity s; order_value s; amount s] "-"
    +:+ "</td><td>" +:+ firstTruthy [stop_loss s] "-"
    +:+ "</td><td>" +:+ firstTruthy [take_profit s] "-" +:+ "</td></tr>".
Proof. reflexivity. Qed.

Lemma signalReason_reasonBadge (sig : Signal) :
  exists rest,
    signalReason sig
    = markup "<div style=`margin-bottom:12px;padding:10px;background:#0a0c10;border-radius:4px;`>"
      +:+ markup "<div style=`margin-bottom:6px;`><b style=`color:#5ab2ff;`>"
      +:+ orText (symbol sig) "-"
      +:+ markup "</b> <span class=`badge " +:+ reasonBadge sig
      +:+ markup "` style=`margin-left:8px;`>" +:+ orText (action sig) "wait" +:+ rest.
Proof. eexists. reflexivity. Qed.

(** X5. The badge of a signal has the same class in the table of the
    detail pane and in the block of reasons when the signal has an
    action.  For a signal without one (absent or empty), both places
    print [wait], with the class [wait] in the table and the class
    [sell] in the block of reasons. *)
Theorem badge_classes (s : Signal) :
  match truthyText (action s) with
  | Some a => rowBadge s = reasonBadge s /\ orText (action s) "wait" = a
  | None =>
      rowBadge s = "wait" /\ reasonBadge s = "sell" /\ orText (action s) "wait" = "wait"
  end.
Proof.
  unfold rowBadge, reasonBadge, isWait, orText, truthyText.
  destruct (action s) as [a|]; [|now repeat split].
  destruct (String.eqb_spec a "") as [->|Hne]; [now repeat split|].
  simpl. split; [|reflexivity].
  now destruct (String.eqb a "wait" || String.eqb a "hold").
Qed.

(** X6. A cell printed as [a || b || ... || '-'] shows the first field
    that is set, where a field that is 0 or the empty text counts as
    not set; it shows [-] when none is.  So a size of 0 gives way to the
    next of [position_size], [quantity], [order_value] and [amount], and
    an entry, stop or target price of 0 is shown as [-]. *)
Theorem firstTruthy_first_set (xs : list (option Scalar)) (d : string) :
  (Forall unset xs -> firstTruthy xs d = d)
  /\ (forall pre v post,
        xs = pre ++ Some v :: post -> Forall unset pre -> truthyScalar v = true ->
        firstTruthy xs d = scalarToString v).
Proof.
  split.
  - induction 1 as [|x xs Hx _ IH]; [reflexivity|].
    destruct x as [v|]; simpl in *; [now rewrite Hx|exact IH].
  - intros pre v post -> Hpre Hv.
    induction Hpre as [|x pre Hx _ IH]; simpl; [now rewrite Hv|].
    destruct x as [w|]; simpl in *; [now rewrite Hx|exact IH].
Qed.

(** ** The cells of the trades table *)

Lemma toLowerCase_empty (s : string) : toLowerCase s = "" <-> s = "".
Proof. destruct s; simpl; split; congruence. Qed.

(** X7. The order type is read without regard to case: two type texts
    that differ only in the case of their letters give the same cell.
    The cell is one of the two labels, and it is the label of a limit
    order exactly when the text has [limit] in it, in any case; an
    absent or empty type is a market order. *)
Theorem orderType_case_insensitive (type : option string) :
  (orderType type = "限价单"
   <-> exists s, type = Some s /\ includes "limit" (toLowerCase s) = true)
  /\ (orderType type = "限价单" \/ orderType type = "市价单")
  /\ (forall s t, toLowerCase t = toLowerCase s -> orderType (Some t) = orderType (Some s)).
Proof.
  assert (Hsome : forall s,
            orderType (Some s)
            = if includes "limit" (toLowerCase s) then "限价单" else "市价单").
  { intros s. unfold orderType, truthyText.
    destruct (String.eqb_spec s "") as [->|Hne]; reflexivity. }
  split; [|split].
  - destruct type as [s|].
    + rewrite Hsome. split.
      * intros Heq. exists s. split; [reflexivity|].
        destruct (includes "limit" (toLowerCase s)); [reflexivity|discriminate].
      * intros (s' & [= <-] & ->). reflexivity.
    + split; [discriminate|]. intros (s & Hs & _). discriminate.
  - destruct type as [s|]; [|now right].
    rewrite Hsome. destruct (includes "limit" (toLowerCase s)); auto.
  - intros s t Heq. now rewrite !Hsome, Heq.
Qed.

(** X8. A trade held for an hour or more is shown as hours and
    minutes.  The minutes printed are the remainder of the hold time by
    60, which nothing rounds: they are from 0 to below 60, and the
    hold time less the minutes is 60 times the whole hours in it, at
    least 1.  The hours printed are the floor of the quotient as the
    host rounds it; when that is the floor of the exact quotient, the
    two numbers printed add up to the hold time. *)
Theorem holdDuration_hours_minutes (m : number) :
  (60 <= m)%Q ->
  exists minutes : number,
    holdDuration (Some m)
    = numberToString (inject_Z (Qfloor (divide m 60%Q))) +:+ "小时"
      +:+ numberToString minutes +:+ "分钟"
    /\ (minutes == m - 60 * inject_Z (Qfloor (m / 60)))%Q
    /\ 1 <= Qfloor (m / 60)
    /\ (0 <= minutes)%Q /\ (minutes < 60)%Q
    /\ (Qfloor (divide m 60%Q) = Qfloor (m / 60) ->
        (inject_Z (Qfloor (divide m 60%Q)) * 60 + minutes == m)%Q).
Proof.
  intros Hm. exists (remainder m 60%Q).
  assert (Hx : (m / 60 * 60 == m)%Q) by (field; discriminate).
  assert (Hpos : (0 <= m / 60)%Q) by lra.
  pose proof (Qfloor_le (m / 60)) as Hlo.
  pose proof (Qlt_floor (m / 60)) as Hhi.
  rewrite inject_Z_plus in Hhi. change (inject_Z 1) with 1%Q in Hhi.
  assert (Hrem : (remainder m 60 == m - 60 * inject_Z (Qfloor (m / 60)))%Q).
  { unfold remainder, truncate.
    apply Qle_bool_iff in Hpos. rewrite Hpos. reflexivity. }
  split; [|split; [|split; [|split; [|split]]]].
  - unfold holdDuration. apply Qle_bool_iff in Hm. now rewrite Hm.
  - exact Hrem.
  - change 1 with (Qfloor 1). apply Qfloor_resp_le. lra.
  - rewrite Hrem. lra.
  - rewrite Hrem. lra.
  - intros ->. rewrite Hrem. ring.
Qed.

End Cells.

(** ** The positions table *)

Lemma Qabs_opp_eq (q : number) : Qabs (- q) = Qabs q.
Proof. destruct q as [n d]. unfold Qabs, Qopp. simpl. now rewrite Z.abs_opp. Qed.

Lemma Qeq_bool_opp (q : number) : Qeq_bool (- q) 0 = Qeq_bool q 0.
Proof.
  destruct (Qeq_bool q 0) eqn:E.
  - apply Qeq_bool_iff in E. apply Qeq_bool_iff. lra.
  - apply Qeq_bool_neq in E. destruct (Qeq_bool (- q) 0) eqn:E'; [|reflexivity].
    apply Qeq_bool_iff in E'. exfalso. apply E. lra.
Qed.

(** X9. The row of a position shows the size without its sign: a
    position of size [-q] and one of size [q] that agree in the other
    fields get the same row.  The direction shown comes from [side]
    alone. *)
Theorem positionRow_size_unsigned `{Host} (symbol : string) (side : option string)
    (q : number) (entry leverage mark_price pnl tp_price sl_price : option number) :
  positionRow
    (OpenPosition.Build_t symbol side (Some (- q)%Q) entry leverage mark_price pnl
       tp_price sl_price)
  = positionRow
      (OpenPosition.Build_t symbol side (Some q) entry leverage mark_price pnl
         tp_price sl_price).
Proof.
  unfold positionRow. cbn [OpenPosition.size OpenPosition.symbol OpenPosition.side
    OpenPosition.entry OpenPosition.leverage OpenPosition.mark_price OpenPosition.pnl
    OpenPosition.tp_price OpenPosition.sl_price].
  replace (Qabs (orQ (Some (- q)%Q) 0%Q)) with (Qabs (orQ (Some q) 0%Q)); [reflexivity|].
  unfold orQ. rewrite Qeq_bool_opp.
  destruct (Qeq_bool q 0); [reflexivity|]. now rewrite Qabs_opp_eq.
Qed.

(** ** Panels, pages and tabs *)

(** X10. Toggling a panel flips whether it is open and sets the arrow,
    when the header has one, to the sign of the new state; a second
    toggle brings the panel back to the state it had.  A header that is
    not followed by an element makes the toggle throw, and nothing is
    changed. *)
Theorem toggleCollapsible_twice (header : Collapsible) :
  match bodyOpen header with
  | Some b =>
      exists once,
        toggleCollapsible header = (Normal tt, once)
        /\ bodyOpen once = Some (negb b)
        /\ arrow once = (fun _ => if b then "▶" else "▼") <$> arrow header
        /\ toggleCollapsible once
           = (Normal tt,
              {| bodyOpen := Some b;
                 arrow := (fun _ => if b then "▼" else "▶") <$> arrow header |})
  | None => toggleCollapsible header = (Throw readError, header)
  end.
Proof.
  destruct header as [[[|]|] [a|]]; simpl; try reflexivity;
    eexists; repeat split.
Qed.

(** Membership in the sets of marked elements, by cases. *)
Ltac marked := set_unfold; intuition (subst; auto).

Section Pages.

Context {Stats Position Trade : Type}.

Local Abbreviation PageState := (State Stats Position Trade).

(** X11. When the document has no element for the page asked for, or no
    link for it, [showPage] throws: no request goes out and the state of
    the script is untouched.  By then every page and every link has lost
    [active]: none of them is marked, except the element of the page
    asked for when it is the link that is missing. *)
Theorem showPage_unknown (layout : Layout) (page : string) (v : View) (st : PageState) :
  document st !! ("page-" +:+ page) = None \/ document st !! ("nav-" +:+ page) = None ->
  exists v',
    showPage layout page v st = (Throw readError, v', st)
    /\ display v' = display v
    /\ (forall e, e ∈ pageElements layout \/ e ∈ navLinks layout -> e ∈ active v' ->
          e = "page-" +:+ page /\ is_Some (document st !! e)).
Proof.
  intros Hmissing. unfold showPage.
  destruct (document st !! ("page-" +:+ page)) as [p|] eqn:Hp.
  - destruct Hmissing as [Hm|Hm]; [discriminate|]. rewrite Hm.
    eexists. split; [reflexivity|]. split; [reflexivity|].
    intros e He. cbn [active addActive removeActive]. intros Hact.
    assert (e = "page-" +:+ page) as -> by marked.
    split; [reflexivity|]. rewrite Hp. eauto.
  - eexists. split; [reflexivity|]. split; [reflexivity|].
    intros e He. cbn [active addActive removeActive]. marked.
Qed.

(** The requests [showPage] ends with. *)
Lemma showPage_requests_run (page : string) (st : PageState) :
  bind (if String.eqb page "dashboard" then loadDashboard_request else ret tt)
    (fun _ => if String.eqb page "ai" then loadAIDecisions_request else ret tt) st
  = (Normal tt,
     if String.eqb page "dashboard"
     then setNetwork
            (fun l => l ++ ["/dashboard_stats"; "/profit_curve"; "/positions";
                            "/completed_trades?limit=10&page=1"])
            (setConsole (fun l => l ++ [Log "loadDashboard..."]) st)
     else if String.eqb page "ai"
     then setNetwork
            (fun l => l ++ ["/decisions?limit=" +:+ default "8" (document st !! "ai-limit")]) st
     else st).
Proof.
  destruct (String.eqb_spec page "dashboard") as [->|Hd].
  - unfold bind, loadDashboard_request, consoleLog, fetch, modify, bind. simpl.
    unfold setNetwork, setConsole. simpl. now rewrite <- !List.app_assoc.
  - destruct (String.eqb_spec page "ai") as [->|Ha].
    + unfold bind, ret, loadAIDecisions_request, getElementById, fetch, modify, bind. simpl.
      now destruct (document st !! "ai-limit").
    + destruct st. reflexivity.
Qed.

(** X12. When the document has the element of the page and its link,
    [showPage] completes.  Of the pages and links, the two of the page
    asked for are then the ones marked [active].  Requests go out for
    the dashboard (its four) and for the decision log (one, with the
    limit of the box, or 8 without a box), and for no other page; the
    document and the decision log are not touched. *)
Theorem showPage_known (layout : Layout) (page : string) (v : View) (st : PageState) :
  is_Some (document st !! ("page-" +:+ page)) ->
  is_Some (document st !! ("nav-" +:+ page)) ->
  exists v' st',
    showPage layout page v st = (Normal tt, v', st')
    /\ (forall e, e ∈ pageElements layout \/ e ∈ navLinks layout ->
          e ∈ active v' <-> e = "page-" +:+ page \/ e = "nav-" +:+ page)
    /\ "page-" +:+ page ∈ active v' /\ "nav-" +:+ page ∈ active v'
    /\ display v' = display v
    /\ network st'
       = network st ++
         (if String.eqb page "dashboard"
          then ["/dashboard_stats"; "/profit_curve"; "/positions";
                "/completed_trades?limit=10&page=1"]
          else if String.eqb page "ai"
          then ["/decisions?limit=" +:+ default "8" (document st !! "ai-limit")]
          else [])
    /\ document st' = document st
    /\ currentDecisions st' = currentDecisions st
    /\ selectedDecisionIndex st' = selectedDecisionIndex st.
Proof.
  intros [p Hp] [n Hn]. unfold showPage. rewrite Hp, Hn.
  rewrite showPage_requests_run.
  eexists _, _. split; [reflexivity|]. cbn [active display addActive removeActive].
  split; [intros e He; marked|].
  split; [marked|]. split; [marked|]. split; [reflexivity|].
  destruct (String.eqb page "dashboard"); [now repeat split|].
  destruct (String.eqb page "ai"); simpl; repeat split.
  now rewrite List.app_nil_r.
Qed.

(** X13. With two tab buttons and the two panes in the document,
    [switchTab] completes for every argument.  The positions pane is
    shown for [positions] and hidden otherwise, the trades pane is
    shown for [trades] and hidden otherwise, and the first button is
    marked for [positions], the second for everything else: for an
    argument that is neither, both panes are hidden and the second
    button is marked. *)
Theorem switchTab_panes (layout : Layout) (tab first second : string) (v : View)
    (st : PageState) :
  tabButtons layout !! 0%nat = Some first ->
  tabButtons layout !! 1%nat = Some second ->
  is_Some (document st !! "tab-positions") ->
  is_Some (document st !! "tab-trades") ->
  exists v',
    switchTab layout tab v st = (Normal tt, v')
    /\ display v' !! "tab-positions"
       = Some (if String.eqb tab "positions" then "block" else "none")
    /\ display v' !! "tab-trades"
       = Some (if String.eqb tab "trades" then "block" else "none")
    /\ (forall e, e ∈ tabButtons layout ->
          e ∈ active v' <-> e = (if String.eqb tab "positions" then first else second))
    /\ (tab <> "positions" -> tab <> "trades" ->
        display v' !! "tab-positions" = Some "none"
        /\ display v' !! "tab-trades" = Some "none"
        /\ second ∈ active v').
Proof.
  intros Hfirst Hsecond [p Hp] [t Ht]. unfold switchTab.
  assert (Hbutton : tabButtons layout !! (if String.eqb tab "positions" then 0%nat else 1%nat)
                    = Some (if String.eqb tab "positions" then first else second))
    by now destruct (String.eqb tab "positions").
  rewrite Hbutton, Hp, Ht.
  eexists. split; [reflexivity|]. simpl.
  split; [now rewrite lookup_insert_ne by discriminate; rewrite lookup_insert_eq|].
  split; [now rewrite lookup_insert_eq|].
  split; [intros e He; marked|].
  intros Hnp Hnt.
  apply String.eqb_neq in Hnp, Hnt. rewrite Hnp, Hnt.
  split; [now rewrite lookup_insert_ne by discriminate; rewrite lookup_insert_eq|].
  split; [now rewrite lookup_insert_eq|marked].
Qed.

End Pages.

(** ** Rows *)

Lemma fold_left_append {A} (f : A -> string) (l : list A) (init : string) :
  fold_left (fun html a => html +:+ f a) l init
  = init +:+ foldr String.append "" (List.map f l).
Proof.
  revert init. induction l as [|a l IH]; intros init; simpl.
  - now rewrite string_app_nil_r.
  - rewrite IH. apply string_app_assoc.
Qed.

Lemma concatMap_rows {A} (f : A -> string) (l : list A) :
  concatMap f l = foldr String.append "" (List.map f l).
Proof. unfold concatMap. now rewrite fold_left_append. Qed.

Lemma concatMap_empty {A} (f : A -> string) (l : list A) :
  (forall a, f a <> "") -> concatMap f l = "" <-> l = [].
Proof.
  intros Hf. rewrite concatMap_rows. destruct l as [|a l]; [easy|].
  split; [|discriminate]. simpl. intros Heq. exfalso. apply (Hf a).
  destruct (f a); [reflexivity|discriminate].
Qed.

Section Tables.

Context `{Host}.




Local Abbreviation Dashboard := (State DashboardStats.t OpenPosition.t CompletedTrade.t).

(** The renderers of the script write to these elements and throw
    nothing of their own. *)
Lemma dashboardStatsWrites_completes (stats : DashboardStats.t) (profit : ProfitCurve) :
  snd (dashboardStatsWrites stats profit) = None.
Proof. unfold dashboardStatsWrites. now destruct (statsRows stats profit). Qed.

Lemma handlerElements_script (stats : DashboardStats.t) (profit : ProfitCurve)
    (positionsData : PositionsResponse OpenPosition.t)
    (trades : TradePage CompletedTrade.t) :
  handlerElements dashboardStatsWrites positionsTableWrites tradesTableWrites
    stats profit positionsData trades
  = ["stats-row1"; "stats-row2"; "tab-positions"; "tab-trades"; "chart-legend";
     "pos-count"; "trade-count"; "dashboard-subtitle"].
Proof.
  unfold handlerElements, dashboardStatsWrites.
  now destruct (statsRows stats profit).
Qed.

(** X24. [loadTradesPage] for a page from 1 on, with no upper bound,
    sends the request for that page and stores the page; when the
    response arrives, on a document with the trades pane and the trade
    count, the pane gets the markup of the response and the count gets
    its total, 0 when the total is missing.  Nothing is logged and
    nothing reaches the top level. *)
Theorem loadTradesPage_renders_page (page : Z) (data : TradePage CompletedTrade.t)
    (st : Dashboard) :
  1 <= page ->
  is_Some (document st !! "tab-trades") ->
  is_Some (document st !! "trade-count") ->
  let st' := loadTradesPage tradesTableWrites page (Fulfilled data) st in
  currentTradesPage st' = page
  /\ network st' = network st ++ ["/completed_trades?limit=10&page=" +:+ pretty page]
  /\ document st'
     = <["trade-count" := pretty (orZ (trades_total data) 0)]>
         (<["tab-trades" := tradesMarkup data]> (document st))
  /\ console st' = console st
  /\ unhandled st' = unhandled st.
Proof.
  intros Hpage Htab Hcount.
  assert (Hst : hasElements ("trade-count" :: List.map fst (fst (tradesTableWrites data))) st)
    by (intros id [<-|[<-|[]]]; assumption).
  destruct (loadTradesPage_fulfilled tradesTableWrites page data st Hpage eq_refl Hst)
    as (P & N & D & _ & L & U).
  repeat split; assumption.
Qed.

(** X27. The responses to the pager's requests are rendered as they
    arrive, with nothing that ties a response to the page asked for
    last: after pages [p1] and then [p2] have been asked for, if the
    response for [p2] arrives first and the one for [p1] after it, the
    pane and the count show the response for [p1], while
    [currentTradesPage] is [p2]. *)
Theorem trades_last_response_wins (p1 p2 : Z) (data1 data2 : TradePage CompletedTrade.t)
    (st : Dashboard) :
  1 <= p1 -> 1 <= p2 ->
  is_Some (document st !! "tab-trades") ->
  is_Some (document st !! "trade-count") ->
  let step e :=
    runTask (task dashboardStatsWrites positionsTableWrites tradesTableWrites e) in
  let st' :=
    step (TradesSettled (Fulfilled data1))
      (step (TradesSettled (Fulfilled data2))
         (step (PagerClicked p2) (step (PagerClicked p1) st))) in
  currentTradesPage st' = p2
  /\ document st' !! "tab-trades" = Some (tradesMarkup data1)
  /\ document st' !! "trade-count" = Some (pretty (orZ (trades_total data1) 0))
  /\ network st'
     = network st ++ ["/completed_trades?limit=10&page=" +:+ pretty p1;
                      "/completed_trades?limit=10&page=" +:+ pretty p2]
  /\ unhandled st' = unhandled st.
Proof.
  intros Hp1 Hp2 [t Ht] [c Hc]. cbv zeta. cbn [task].
  assert (Hclick : forall p (s : Dashboard), 1 <= p ->
            runTask (bind (loadTradesPage_request p) (fun _ => ret tt)) s
            = setNetwork (fun l => l ++ ["/completed_trades?limit=10&page=" +:+ pretty p])
                (setCurrentTradesPage p s)).
  { intros p s Hp. unfold runTask, bind. now rewrite loadTradesPage_request_run. }
  assert (Hsettled : forall data (s : Dashboard),
            is_Some (document s !! "tab-trades") ->
            is_Some (document s !! "trade-count") ->
            runTask (loadTradesPage_settled tradesTableWrites (Fulfilled data)) s
            = setDocument (insert "trade-count" (pretty (orZ (trades_total data) 0)))
                (setDocument (insert "tab-trades" (tradesMarkup data))
                   (setCalls (fun l => l ++ [CallTradesTable data]) s))).
  { intros data s Htab Hcount. unfold runTask.
    rewrite loadTradesPage_settled_run; [reflexivity|reflexivity|].
    intros id [<-|[<-|[]]]; assumption. }
  rewrite !Hclick by assumption.
  rewrite (Hsettled data2) by (simpl; eauto).
  rewrite (Hsettled data1);
    [|simpl; rewrite lookup_insert_ne by discriminate; rewrite lookup_insert_eq; eauto
     |simpl; rewrite lookup_insert_eq; eauto].
  simpl. repeat split.
  - rewrite lookup_insert_ne by discriminate. apply lookup_insert_eq.
  - apply lookup_insert_eq.
  - now rewrite <- List.app_assoc.
Qed.

(** X25. On a document with the cards, the panes, the counts, the
    subtitle and the legend, the handler of [loadDashboard] completes
    for every four payloads, whatever fields they lack, and logs no
    error.  It leaves the two rows of cards, the positions and the
    trades markup, the number of positions, the total of the trades (0
    when missing) and the base equity in the subtitle. *)
Theorem loadDashboard_renders_payloads (order : list nat) (stats : DashboardStats.t)
    (profit : ProfitCurve)
    (positionsData : PositionsResponse OpenPosition.t) (trades : TradePage CompletedTrade.t)
    (st : Dashboard) :
  hasElements ["stats-row1"; "stats-row2"; "tab-positions"; "tab-trades"; "chart-legend";
               "pos-count"; "trade-count"; "dashboard-subtitle"] st ->
  let st' :=
    runTask
      (loadDashboard_settled dashboardStatsWrites positionsTableWrites tradesTableWrites
         order (Fulfilled stats) (Fulfilled profit) (Fulfilled positionsData)
         (Fulfilled trades))
      st in
  console st' = console st ++ [Log "Data:"]
  /\ unhandled st' = unhandled st
  /\ document st' !! "stats-row1" = Some (fst (statsRows stats profit))
  /\ document st' !! "stats-row2" = Some (snd (statsRows stats profit))
  /\ document st' !! "tab-positions"
     = Some (positionsMarkup (default [] (positions positionsData)))
  /\ document st' !! "tab-trades" = Some (tradesMarkup trades)
  /\ document st' !! "pos-count"
     = Some (pretty (length (default [] (positions positionsData))))
  /\ document st' !! "trade-count" = Some (pretty (orZ (trades_total trades) 0))
  /\ document st' !! "dashboard-subtitle"
     = Some ("Stats | Base: " +:+ toFixed (orQ (initial_equity profit) 0%Q) 2 +:+ " USDT").
Proof.
  intros Hst. cbv zeta.
  assert (U : unhandled
                (runTask
                   (loadDashboard_settled dashboardStatsWrites positionsTableWrites
                      tradesTableWrites order (Fulfilled stats) (Fulfilled profit)
                      (Fulfilled positionsData) (Fulfilled trades)) st)
              = unhandled st).
  { rewrite runTask_normal; [apply escapes_loadDashboard_settled|].
    apply caught_completes. }
  revert U.
  unfold loadDashboard_settled. simpl promiseAll4. cbv iota beta.
  rewrite runTask_catch_log.
  assert (Hs : snd (dashboardStatsWrites stats profit) = None)
    by (unfold dashboardStatsWrites; now destruct (statsRows stats profit)).
  assert (Hels : hasElements
            (handlerElements dashboardStatsWrites positionsTableWrites tradesTableWrites
               stats profit positionsData trades) st).
  { intros id Hid. apply Hst. unfold handlerElements, dashboardStatsWrites in Hid.
    destruct (statsRows stats profit). simpl in *. tauto. }
  destruct (loadDashboard_then_run dashboardStatsWrites positionsTableWrites
              tradesTableWrites stats profit positionsData trades st Hs eq_refl eq_refl Hels)
    as (st' & doc & Hrun & L & Hdoc & D).
  rewrite Hrun. intros U. split; [exact L|]. split; [exact U|].
  rewrite D. unfold dashboardStatsWrites in Hdoc.
  destruct (statsRows stats profit) as [row1 row2]. simpl in *.
  unfold written. simpl.
  repeat split.
  all: rewrite ?lookup_insert_eq; rewrite ?lookup_insert_ne by discriminate;
    rewrite ?lookup_insert_eq; try reflexivity.
  all: rewrite ?Hdoc by discriminate; unfold written; simpl;
    rewrite ?lookup_insert_eq; rewrite ?lookup_insert_ne by discriminate;
    rewrite ?lookup_insert_eq; reflexivity.
Qed.

End Tables.

(** * The properties on the example page *)

#[local] Existing Instance decimalHost.

Lemma exampleState_reachable :
  reachable exampleStats examplePositions exampleTrades exampleState.
Proof.
  apply reachable_init. repeat split; eexists; reflexivity.
Qed.

Lemma exampleLoaded_reachable :
  reachable exampleStats examplePositions exampleTrades exampleLoaded.
Proof.
  apply reachable_step; [apply exampleState_reachable|exact I].
Qed.

Lemma exampleClicked_reachable :
  reachable exampleStats examplePositions exampleTrades exampleClicked.
Proof.
  apply reachable_step; [apply exampleLoaded_reachable|].
  vm_compute. lia.
Qed.

(** C3, at a signal that carries markup.  The reason of the signal
    reaches the detail pane escaped, its invalidation condition as it
    came. *)
Theorem invalidations_inserted_unescaped :
  let st' := loadAIDecisions (Fulfilled markedDecisions) exampleState in
  exists html,
    document st' !! "decision-detail" = Some html
    /\ includes "&lt;i&gt;breakout&lt;/i&gt;" html = true
    /\ includes "<i>breakout</i>" html = false
    /\ includes "<img src=x onerror=alert(1)>, close < 100" html = true.
Proof.
  eexists. split; [vm_compute; reflexivity|].
  vm_compute. repeat split.
Qed.

(** The third round of the example log is stored with its waiting
    signal first; once its detail has been rendered, the store holds it
    with the waiting signal last. *)
Lemma renderDecisionDetail_reorders_store :
  let st' := snd (renderDecisionDetail (Some 1%nat) exampleLoaded) in
  signals <$> (currentDecisions st' !! 1%nat)
  <> signals <$> (currentDecisions exampleLoaded !! 1%nat).
Proof. vm_compute. discriminate. Qed.


(** The pager at pages 0 and -1. *)
Lemma loadTradesPage_below_one_witness :
  (0 < 1 /\ -1 < 1)
  /\ loadTradesPage exampleTrades 0 (Rejected "offline") exampleLoaded = exampleLoaded
  /\ loadTradesPage exampleTrades (-1) (Rejected "offline") exampleLoaded = exampleLoaded.
Proof.
  split; [lia|]. split.
  - apply (loadTradesPage_below_one exampleTrades 0). lia.
  - apply (loadTradesPage_below_one exampleTrades (-1)). lia.
Defined.

(** The series of a curve of two points. *)
Lemma renderProfitChart_series_witness :
  let points := [PointArray 1700000000000 5000%Q; PointObject 1700000060000 (50105 # 10)] in
  let xData := ["1700000000000"; "1700000060000"] in
  let yData := [5000%Q; (50105 # 10)%Q] in
  let baseLine := [5000%Q; 5000%Q] in
  data exampleCurve = Some points
  /\ points <> []
  /\ chartSeries points (orQ (initial_equity exampleCurve) 0%Q) = (xData, yData, baseLine)
  /\ length xData = length points
  /\ length yData = length points
  /\ length baseLine = length points
  /\ Forall (fun b => (b == 5000)%Q) baseLine.
Proof.
  intros points xData yData baseLine.
  assert (Hpoints : points <> []) by discriminate.
  assert (Hseries : chartSeries points (orQ (initial_equity exampleCurve) 0%Q)
                    = (xData, yData, baseLine)) by reflexivity.
  split; [reflexivity|]. split; [exact Hpoints|]. split; [exact Hseries|].
  destruct (renderProfitChart_series (Stats := unit) (Position := unit) (Trade := unit)
              exampleCurve points xData yData baseLine eq_refl Hpoints Hseries)
    as (Hx & Hy & Hb & Hbase & _).
  split; [exact Hx|]. split; [exact Hy|]. split; [exact Hb|].
  apply Hbase. reflexivity.
Defined.


(** The detail of the third round of the example log. *)
Lemma renderDecisionDetail_sorts_store_witness :
  let obj := decisionOf 3 2 [signalOf "BTCUSDT" "wait"; signalOf "ETHUSDT" "open_long"] in
  let sorted := decisionOf 3 2 [signalOf "ETHUSDT" "open_long"; signalOf "BTCUSDT" "wait"] in
  currentDecisions exampleLoaded !! 1%nat = Some obj
  /\ signals obj = Some [signalOf "BTCUSDT" "wait"; signalOf "ETHUSDT" "open_long"]
  /\ currentDecisions (snd (renderDecisionDetail (Some 1%nat) exampleLoaded))
     = <[1%nat := sorted]> (currentDecisions exampleLoaded).
Proof.
  intros obj sorted.
  assert (Hobj : currentDecisions exampleLoaded !! 1%nat = Some obj)
    by (vm_compute; reflexivity).
  split; [exact Hobj|]. split; [reflexivity|].
  exact (proj1 (renderDecisionDetail_sorts_store 1 obj _ exampleLoaded Hobj eq_refl)).
Defined.



(** The second trades page, with the network down. *)
Lemma loadTradesPage_rejection_unhandled_witness :
  let st' := loadTradesPage exampleTrades 2 (Rejected "TypeError: Failed to fetch") exampleLoaded in
  1 <= 2
  /\ unhandled st' = unhandled exampleLoaded ++ ["TypeError: Failed to fetch"]
  /\ console st' = console exampleLoaded
  /\ document st' = document exampleLoaded
  /\ currentTradesPage st' = 2
  /\ network st' = network exampleLoaded ++ ["/completed_trades?limit=10&page=2"].
Proof.
  intros st'. assert (Hpage : 1 <= 2) by lia.
  split; [exact Hpage|].
  exact (proj1 (loadTradesPage_rejection_unhandled exampleStats examplePositions
                  exampleTrades 2 _ exampleLoaded Hpage)).
Defined.

(** ** The further properties on the example page *)

(** Two texts with the same escape. *)
Lemma escapeHtml_injective_witness :
  escapeHtml "a<b" = escapeHtml "a<b" /\ "a<b" = "a<b".
Proof.
  split; [reflexivity|]. apply (escapeHtml_injective "a<b" "a<b"). reflexivity.
Defined.

(** A size of 0 gives way to the quantity. *)
Lemma firstTruthy_first_set_witness :
  Forall unset [Some (SNum 0%Q)]
  /\ truthyScalar (SText "0.5") = true
  /\ firstTruthy [Some (SNum 0%Q); Some (SText "0.5"); None; None] "-" = "0.5".
Proof.
  assert (Hpre : Forall unset [Some (SNum 0%Q)]) by (repeat constructor).
  split; [exact Hpre|]. split; [reflexivity|].
  exact (proj2 (firstTruthy_first_set [Some (SNum 0%Q); Some (SText "0.5"); None; None] "-")
           [Some (SNum 0%Q)] (SText "0.5") [None; None] eq_refl Hpre eq_refl).
Defined.

(** [LIMIT] and [limit]. *)
Lemma orderType_case_insensitive_witness :
  toLowerCase "LIMIT" = toLowerCase "limit"
  /\ orderType (Some "LIMIT") = orderType (Some "limit").
Proof.
  split; [reflexivity|].
  exact (proj2 (proj2 (orderType_case_insensitive None)) "limit" "LIMIT" eq_refl).
Defined.

(** A hold time of [100.1], the double 3521955646092083 / 2^45: the
    minutes are the double 1410893320762163 / 2^45, which an engine
    prints as [40.099999999999994]. *)
Lemma holdDuration_hours_minutes_witness :
  (60 <= 3521955646092083 # 35184372088832)%Q
  /\ exists minutes : number,
       holdDuration (Some (3521955646092083 # 35184372088832))
       = numberToString (inject_Z 1) +:+ "小时" +:+ numberToString minutes +:+ "分钟"
       /\ (minutes == 1410893320762163 # 35184372088832)%Q.
Proof.
  assert (Hm : (60 <= 3521955646092083 # 35184372088832)%Q)
    by (unfold Qle; simpl; lia).
  split; [exact Hm|].
  destruct (holdDuration_hours_minutes (3521955646092083 # 35184372088832) Hm)
    as (minutes & Hrun & Hminutes & _).
  exists minutes. split; [exact Hrun|].
  rewrite Hminutes. vm_compute. reflexivity.
Defined.

(** A page the site does not have. *)
Lemma showPage_unknown_witness :
  (document exampleSiteState !! ("page-" +:+ "settings") = None
   \/ document exampleSiteState !! ("nav-" +:+ "settings") = None)
  /\ exists v',
       showPage exampleLayout "settings" exampleView exampleSiteState
       = (Throw readError, v', exampleSiteState).
Proof.
  assert (Hmissing :
    document exampleSiteState !! ("page-" +:+ "settings") = None
    \/ document exampleSiteState !! ("nav-" +:+ "settings") = None)
    by (left; vm_compute; reflexivity).
  split; [exact Hmissing|].
  destruct (showPage_unknown exampleLayout "settings" exampleView exampleSiteState Hmissing)
    as (v' & Hrun & _).
  exists v'. exact Hrun.
Defined.

(** The decision log of the site. *)
Lemma showPage_known_witness :
  is_Some (document exampleSiteState !! ("page-" +:+ "ai"))
  /\ is_Some (document exampleSiteState !! ("nav-" +:+ "ai"))
  /\ exists v' st',
       showPage exampleLayout "ai" exampleView exampleSiteState = (Normal tt, v', st')
       /\ network st' = ["/decisions?limit=8"].
Proof.
  assert (Hpage : is_Some (document exampleSiteState !! ("page-" +:+ "ai")))
    by (eexists; vm_compute; reflexivity).
  assert (Hnav : is_Some (document exampleSiteState !! ("nav-" +:+ "ai")))
    by (eexists; vm_compute; reflexivity).
  split; [exact Hpage|]. split; [exact Hnav|].
  destruct (showPage_known exampleLayout "ai" exampleView exampleSiteState Hpage Hnav)
    as (v' & st' & Hrun & _ & _ & _ & _ & Hnet & _).
  exists v', st'. split; [exact Hrun|]. rewrite Hnet. vm_compute. reflexivity.
Defined.

(** A tab that is neither of the two. *)
Lemma switchTab_panes_witness :
  tabButtons exampleLayout !! 0%nat = Some "btn-positions"
  /\ tabButtons exampleLayout !! 1%nat = Some "btn-trades"
  /\ is_Some (document exampleSiteState !! "tab-positions")
  /\ is_Some (document exampleSiteState !! "tab-trades")
  /\ exists v',
       switchTab exampleLayout "history" exampleView exampleSiteState = (Normal tt, v')
       /\ display v' !! "tab-positions" = Some "none"
       /\ display v' !! "tab-trades" = Some "none".
Proof.
  assert (Hp : is_Some (document exampleSiteState !! "tab-positions"))
    by (eexists; vm_compute; reflexivity).
  assert (Ht : is_Some (document exampleSiteState !! "tab-trades"))
    by (eexists; vm_compute; reflexivity).
  split; [reflexivity|]. split; [reflexivity|]. split; [exact Hp|]. split; [exact Ht|].
  destruct (switchTab_panes exampleLayout "history" "btn-positions" "btn-trades"
              exampleView exampleSiteState eq_refl eq_refl Hp Ht)
    as (v' & Hrun & Hpos & Htrades & _).
  exists v'. split; [exact Hrun|]. split; [exact Hpos|exact Htrades].
Defined.

(** The second item of the loaded log. *)
Lemma selectDecision_in_range_witness :
  is_Some (document exampleLoaded !! "decision-list")
  /\ is_Some (document exampleLoaded !! "decision-detail")
  /\ currentDecisions exampleLoaded !! 1%nat
     = Some (decisionOf 3 2 [signalOf "BTCUSDT" "wait"; signalOf "ETHUSDT" "open_long"])
  /\ exists st',
       selectDecision 1 exampleLoaded = (Normal tt, st')
       /\ selectedDecisionIndex st' = 1
       /\ network st' = network exampleLoaded
       /\ document st' !! "decision-list"
          = Some (decisionItem 0 (decisionOf 2 2 [signalOf "BTCUSDT" "open_long";
                                                   signalOf "ETHUSDT" "wait"]) false
                  +:+ decisionItem 1 (decisionOf 3 2 [signalOf "BTCUSDT" "wait";
                                                      signalOf "ETHUSDT" "open_long"]) true)
       /\ (exists rest,
             decisionItem 0 (decisionOf 2 2 [signalOf "BTCUSDT" "open_long";
                                             signalOf "ETHUSDT" "wait"]) false
             = markup "<div class=`decision-item ` onclick=`selectDecision(0)`>" +:+ rest)
       /\ (exists rest,
             decisionItem 1 (decisionOf 3 2 [signalOf "BTCUSDT" "wait";
                                             signalOf "ETHUSDT" "open_long"]) true
             = markup "<div class=`decision-item active` onclick=`selectDecision(1)`>"
               +:+ rest).
Proof.
  assert (Hlist : is_Some (document exampleLoaded !! "decision-list"))
    by (eexists; vm_compute; reflexivity).
  assert (Hdetail : is_Some (document exampleLoaded !! "decision-detail"))
    by (eexists; vm_compute; reflexivity).
  assert (Hobj : currentDecisions exampleLoaded !! 1%nat
                 = Some (decisionOf 3 2 [signalOf "BTCUSDT" "wait";
                                         signalOf "ETHUSDT" "open_long"]))
    by (vm_compute; reflexivity).
  split; [exact Hlist|]. split; [exact Hdetail|]. split; [exact Hobj|].
  destruct (selectDecision_in_range 1 _ exampleLoaded Hlist Hdetail Hobj)
    as (st' & Hrun & Hsel & _ & Hitems & _ & _ & _ & Hnet & _ & Htags).
  exists st'. split; [exact Hrun|]. split; [exact Hsel|]. split; [exact Hnet|].
  split; [|split].
  - rewrite Hitems. vm_compute. reflexivity.
  - assert (Hfirst : currentDecisions exampleLoaded !! 0%nat
                     = Some (decisionOf 2 2 [signalOf "BTCUSDT" "open_long";
                                             signalOf "ETHUSDT" "wait"]))
      by (vm_compute; reflexivity).
    destruct (Htags 0%nat _ Hfirst) as [rest Hrest]. exists rest.
    cbn [Nat.eqb] in Hrest. rewrite Hrest. vm_compute. reflexivity.
  - destruct (Htags 1%nat _ Hobj) as [rest Hrest]. exists rest.
    cbn [Nat.eqb] in Hrest. rewrite Hrest. vm_compute. reflexivity.
Defined.


(** The example log arrives on the fresh page. *)
Lemma loadAIDecisions_shows_first_witness :
  decisionPanes (document exampleState)
  /\ exists st',
       loadAIDecisions_settled (Fulfilled exampleDecisions) exampleState = (Normal tt, st')
       /\ selectedDecisionIndex st' = 0
       /\ document st' !! "ai-summary" = Some "共 3 条 · 已执行 3 轮决策"
       /\ length (currentDecisions st') = 2%nat.
Proof.
  assert (Hpanes : decisionPanes (document exampleState))
    by (repeat split; eexists; vm_compute; reflexivity).
  split; [exact Hpanes|].
  destruct (loadAIDecisions_shows_first exampleDecisions _ _ exampleState Hpanes eq_refl)
    as (st' & Hrun & Hlog & Hsel & _ & _ & Hsummary & _).
  exists st'. split; [exact Hrun|]. split; [exact Hsel|].
  split; [rewrite Hsummary; vm_compute; reflexivity|]. rewrite Hlog. reflexivity.
Defined.

(** The page after the example log has loaded. *)
Lemma reachable_no_empty_round_witness :
  Forall (fun d => 0 < orZ (symbols_count d) 0) (currentDecisions exampleLoaded).
Proof.
  exact (reachable_no_empty_round exampleStats examplePositions exampleTrades
           exampleLoaded exampleLoaded_reachable).
Defined.


(** The example curve on the page without a legend. *)
Lemma loadDashboard_stops_at_chart_witness :
  let st' :=
    runTask
      (loadDashboard_settled exampleStats examplePositions exampleTrades [0; 1; 2; 3]%nat
         (Fulfilled tt) (Fulfilled exampleCurve) (Fulfilled examplePositionsData)
         (Fulfilled exampleTradePage))
      exampleNoLegend in
  hasElements (List.map fst (fst (exampleStats tt exampleCurve))) exampleNoLegend
  /\ is_Some (document exampleNoLegend !! "profit_chart")
  /\ document exampleNoLegend !! "chart-legend" = None
  /\ default [] (data exampleCurve) <> []
  /\ console st' = [Log "Data:"; LogError "loadDashboard error:" nullError]
  /\ calls st' = [CallDashboardStats tt exampleCurve; CallProfitChart exampleCurve]
  /\ chart st' = [EchartsInit "profit_chart"].
Proof.
  cbv zeta.
  assert (Hels : hasElements (List.map fst (fst (exampleStats tt exampleCurve)))
                   exampleNoLegend).
  { intros id Hid. simpl in Hid.
    repeat (destruct Hid as [<-|Hid]; [eexists; vm_compute; reflexivity|]).
    contradiction. }
  assert (Hchart : is_Some (document exampleNoLegend !! "profit_chart"))
    by (eexists; vm_compute; reflexivity).
  assert (Hlegend : document exampleNoLegend !! "chart-legend" = None)
    by (vm_compute; reflexivity).
  assert (Hpoints : default [] (data exampleCurve) <> []) by discriminate.
  split; [exact Hels|]. split; [exact Hchart|]. split; [exact Hlegend|].
  split; [exact Hpoints|].
  destruct (loadDashboard_stops_at_chart exampleStats examplePositions exampleTrades
              [0; 1; 2; 3]%nat tt exampleCurve examplePositionsData exampleTradePage exampleNoLegend
              eq_refl Hels Hchart Hlegend Hpoints)
    as (Hconsole & Hcalls & Hinit & _).
  split; [exact Hconsole|]. split; [exact Hcalls|exact Hinit].
Defined.

(** Two states of the example page, with page 1 and page 5 stored. *)
Lemma currentTradesPage_never_read_witness :
  agreeButPage exampleLoaded (setCurrentTradesPage 5 exampleLoaded)
  /\ agreeButPage
       (runTask (task exampleStats examplePositions exampleTrades (DecisionClicked 1))
          exampleLoaded)
       (runTask (task exampleStats examplePositions exampleTrades (DecisionClicked 1))
          (setCurrentTradesPage 5 exampleLoaded)).
Proof.
  assert (Hagree : agreeButPage exampleLoaded (setCurrentTradesPage 5 exampleLoaded))
    by (repeat split).
  split; [exact Hagree|].
  exact (proj1 (currentTradesPage_never_read exampleStats examplePositions exampleTrades
                  (DecisionClicked 1) exampleLoaded (setCurrentTradesPage 5 exampleLoaded)
                  Hagree)).
Defined.

(** Page 7, of which the response is the second page of three. *)
Lemma loadTradesPage_renders_page_witness :
  let st' := loadTradesPage tradesTableWrites 7 (Fulfilled exampleTrades2) exampleDashboard in
  1 <= 7
  /\ is_Some (document exampleDashboard !! "tab-trades")
  /\ is_Some (document exampleDashboard !! "trade-count")
  /\ currentTradesPage st' = 7
  /\ network st' = ["/completed_trades?limit=10&page=7"]
  /\ document st' !! "trade-count" = Some "0".
Proof.
  cbv zeta.
  assert (Hpage : 1 <= 7) by lia.
  assert (Htab : is_Some (document exampleDashboard !! "tab-trades"))
    by (eexists; vm_compute; reflexivity).
  assert (Hcount : is_Some (document exampleDashboard !! "trade-count"))
    by (eexists; vm_compute; reflexivity).
  split; [exact Hpage|]. split; [exact Htab|]. split; [exact Hcount|].
  destruct (loadTradesPage_renders_page 7 exampleTrades2 exampleDashboard Hpage Htab Hcount)
    as (Hstored & Hnet & Hdoc & _).
  split; [exact Hstored|]. split; [exact Hnet|].
  rewrite Hdoc. apply lookup_insert_eq.
Defined.

(** Pages 1 and 2 asked for, answered in the other order. *)
Lemma trades_last_response_wins_witness :
  let step e :=
    runTask (task dashboardStatsWrites positionsTableWrites tradesTableWrites e) in
  let st' :=
    step (TradesSettled (Fulfilled exampleTrades1))
      (step (TradesSettled (Fulfilled exampleTrades2))
         (step (PagerClicked 2) (step (PagerClicked 1) exampleDashboard))) in
  1 <= 1 /\ 1 <= 2
  /\ is_Some (document exampleDashboard !! "tab-trades")
  /\ is_Some (document exampleDashboard !! "trade-count")
  /\ currentTradesPage st' = 2
  /\ document st' !! "tab-trades" = Some (tradesMarkup exampleTrades1)
  /\ document st' !! "trade-count" = Some "21".
Proof.
  cbv zeta.
  assert (Hp1 : 1 <= 1) by lia.
  assert (Hp2 : 1 <= 2) by lia.
  assert (Htab : is_Some (document exampleDashboard !! "tab-trades"))
    by (eexists; vm_compute; reflexivity).
  assert (Hcount : is_Some (document exampleDashboard !! "trade-count"))
    by (eexists; vm_compute; reflexivity).
  split; [exact Hp1|]. split; [exact Hp2|]. split; [exact Htab|]. split; [exact Hcount|].
  destruct (trades_last_response_wins 1 2 exampleTrades1 exampleTrades2 exampleDashboard
              Hp1 Hp2 Htab Hcount)
    as (Hstored & Hpane & Hbadge & _).
  split; [exact Hstored|]. split; [exact Hpane|exact Hbadge].
Defined.

(** An account that has not traded, with one position and two trades. *)
Lemma loadDashboard_renders_payloads_witness :
  let st' :=
    runTask
      (loadDashboard_settled dashboardStatsWrites positionsTableWrites tradesTableWrites
         [0; 1; 2; 3]%nat (Fulfilled exampleBareStats) (Fulfilled exampleCurve)
         (Fulfilled exampleOpenPositions) (Fulfilled exampleTrades2))
      exampleDashboard in
  hasElements ["stats-row1"; "stats-row2"; "tab-positions"; "tab-trades"; "chart-legend";
               "pos-count"; "trade-count"; "dashboard-subtitle"] exampleDashboard
  /\ console st' = [Log "Data:"]
  /\ document st' !! "pos-count" = Some "1"
  /\ document st' !! "trade-count" = Some "0"
  /\ document st' !! "dashboard-subtitle" = Some "Stats | Base: 5000.00 USDT".
Proof.
  cbv zeta.
  assert (Hels : hasElements
            ["stats-row1"; "stats-row2"; "tab-positions"; "tab-trades"; "chart-legend";
             "pos-count"; "trade-count"; "dashboard-subtitle"] exampleDashboard).
  { intros id Hid. simpl in Hid.
    repeat (destruct Hid as [<-|Hid]; [eexists; vm_compute; reflexivity|]).
    contradiction. }
  split; [exact Hels|].
  destruct (loadDashboard_renders_payloads [0; 1; 2; 3]%nat exampleBareStats exampleCurve
              exampleOpenPositions exampleTrades2 exampleDashboard Hels)
    as (Hconsole & _ & _ & _ & _ & _ & Hpos & Htrades & Hsub).
  split; [exact Hconsole|]. split; [exact Hpos|]. split; [exact Htrades|].
  rewrite Hsub. vm_compute. reflexivity.
Defined.
